(** * BE Solar back end: a shallow embedding of [core_backend.py] and of the
    login, logout, document generation and history pages of
    [streamlit_app.py].

    Tables of the hosted store are lists of rows, every back-end function
    takes the tables it reads and returns the tables it writes (explicit
    state passing).  Python exceptions are values of a small error monad.
    A Python string is held as the bytes of its UTF-8 encoding.
    What lives outside the repository is a parameter of the development
    (class [Platform]): the SHA-256 digest of [hashlib], the store's
    ordering of [created_at] values, Python's [float] applied to a string,
    Python's [int] applied to text outside ASCII, and the interpreter's
    arithmetic on floats ([+], [/], [sum] and [round]).  A float is kept
    as the rational number it is; infinities and NaN are not values of the
    model.  Integers are printed and read at any length, as CPython does
    before 3.11 and wherever [sys.set_int_max_str_digits(0)] is in force.
    The general results hold for every platform; the worked examples run
    on [reference_platform], which computes on binary64 numbers. *)

From Stdlib Require Import ZArith QArith Qround Qabs Ascii String List Lia
  Sorted.
From stdpp Require Import base option list gmap strings.

Local Open Scope string_scope.
Local Open Scope list_scope.
Local Open Scope Z_scope.

(** ** Python built-ins used by the back end *)

Module Py.

(** Exceptions the modelled code can raise, and the monad that carries them. *)
Inductive exn : Type := TypeError | ValueError | IndexError.

Inductive result (A : Type) : Type :=
| Ret (a : A)
| Raise (e : exn).
Arguments Ret {A} a.
Arguments Raise {A} e.

Definition bind {A B : Type} (m : result A) (k : A -> result B) : result B :=
  match m with
  | Ret a => k a
  | Raise e => Raise e
  end.

Definition returns {A : Type} (m : result A) : bool :=
  match m with Ret _ => true | Raise _ => false end.

(** [try: x = m  except: x = fallback] with a bare [except]. *)
Definition try_except {A : Type} (m : result A) (fallback : A) : A :=
  match m with
  | Ret a => a
  | Raise _ => fallback
  end.

(** Characters. *)
Definition is_digit (c : ascii) : bool :=
  let n := nat_of_ascii c in (48 <=? n)%nat && (n <=? 57)%nat.

Definition digit_val (c : ascii) : Z := Z.of_nat (nat_of_ascii c) - 48.

Definition digit_char (d : Z) : ascii := ascii_of_nat (Z.to_nat (48 + d)).

Definition is_ascii (c : ascii) : bool := (nat_of_ascii c <? 128)%nat.

(** White space that [int()] strips from ASCII text: TAB, LF, VT, FF, CR
    and the blank.  (The separators FS, GS, RS and US, which [str.strip]
    removes, are not among them.) *)
Definition is_space (c : ascii) : bool :=
  let n := nat_of_ascii c in
  ((9 <=? n)%nat && (n <=? 13)%nat) || (n =? 32)%nat.

Definition lower (c : ascii) : ascii :=
  let n := nat_of_ascii c in
  if (65 <=? n)%nat && (n <=? 90)%nat then ascii_of_nat (n + 32) else c.

Fixpoint lstrip (l : list ascii) : list ascii :=
  match l with
  | c :: l' => if is_space c then lstrip l' else l
  | [] => []
  end.

Definition strip (l : list ascii) : list ascii :=
  rev (lstrip (rev (lstrip l))).

(** The digits of a decimal literal: one or more digits, single
    underscores allowed between two digits.  [prev] tells whether the
    character just read was a digit. *)
Fixpoint int_digits (acc : Z) (prev : bool) (l : list ascii) : option Z :=
  match l with
  | [] => if prev then Some acc else None
  | c :: l' =>
      if is_digit c then int_digits (10 * acc + digit_val c) true l'
      else if Ascii.eqb c "_" && prev then int_digits acc false l'
      else None
  end.

(** [int(s)] in base 10 for a string of ASCII characters; [None] is
    [ValueError]. *)
Definition int_chars (l : list ascii) : option Z :=
  match strip l with
  | "-"%char :: ds => Z.opp <$> int_digits 0 false ds
  | "+"%char :: ds => int_digits 0 false ds
  | ds => int_digits 0 false ds
  end.

Definition int_ascii (s : string) : result Z :=
  match int_chars (list_ascii_of_string s) with
  | Some z => Ret z
  | None => Raise ValueError
  end.

(** [str(n)] for an integer.  The digits are produced least significant
    first; [fuel] bounds the number of digits. *)
Fixpoint rev_digits (fuel : nat) (n : Z) : list ascii :=
  match fuel with
  | O => []
  | S fuel' =>
      digit_char (n mod 10) ::
      (if n <? 10 then [] else rev_digits fuel' (n / 10))
  end.

Definition nat_digits (n : Z) : list ascii :=
  rev (rev_digits (S (Z.to_nat (Z.log2 n))) n).

Definition str_chars (z : Z) : list ascii :=
  if z <? 0 then "-"%char :: nat_digits (- z) else nat_digits z.

Definition str (z : Z) : string := string_of_list_ascii (str_chars z).

(** [s.zfill(width)]: zeros go after a leading sign, nothing is cut. *)
Definition zfill_chars (width : nat) (l : list ascii) : list ascii :=
  let pad := repeat "0"%char (width - length l) in
  match l with
  | "-"%char :: l' => "-"%char :: pad ++ l'
  | "+"%char :: l' => "+"%char :: pad ++ l'
  | _ => pad ++ l
  end.

Definition zfill (width : nat) (s : string) : string :=
  string_of_list_ascii (zfill_chars width (list_ascii_of_string s)).

(** [s.split(sep)] for a one-character separator: never empty. *)
Fixpoint split_chars (sep : ascii) (l : list ascii) : list (list ascii) :=
  match l with
  | [] => [[]]
  | c :: l' =>
      if Ascii.eqb c sep then [] :: split_chars sep l'
      else match split_chars sep l' with
           | tok :: toks => (c :: tok) :: toks
           | [] => [[c]]
           end
  end.

Definition split (sep : ascii) (s : string) : list string :=
  string_of_list_ascii <$> split_chars sep (list_ascii_of_string s).

(** [l[-1]]. *)
Definition last_item {A : Type} (l : list A) : result A :=
  match last l with
  | Some a => Ret a
  | None => Raise IndexError
  end.

(** [max(l)] of the non-empty list [z :: l]. *)
Definition max (z : Z) (l : list Z) : Z := fold_left Z.max l z.

(** [s[:n]]: the first [n] characters.  A string is held as the bytes
    of its UTF-8 encoding, in which the bytes 128 to 191 continue the
    character begun before them. *)
Definition is_continuation (c : ascii) : bool :=
  let n := nat_of_ascii c in (128 <=? n)%nat && (n <=? 191)%nat.

Fixpoint prefix_chars (n : nat) (l : list ascii) : list ascii :=
  match l with
  | [] => []
  | c :: l' =>
      if is_continuation c then c :: prefix_chars n l'
      else match n with
           | O => []
           | S n' => c :: prefix_chars n' l'
           end
  end.

Definition prefix (n : nat) (s : string) : string :=
  string_of_list_ascii (prefix_chars n (list_ascii_of_string s)).

(** [int(x)] on a number: the fraction is dropped, towards zero. *)
Definition int_of_number (q : Q) : Z := Z.quot (Qnum q) (Z.pos (Qden q)).

End Py.

(** ** SHA-256 (FIPS 180-4) on byte strings, as [hashlib.sha256] computes it *)

Module Sha256.

Definition wrap (x : Z) : Z := x mod 2 ^ 32.

Definition rotr (n x : Z) : Z :=
  wrap (Z.lor (Z.shiftr x n) (Z.shiftl x (32 - n))).

Definition ch (x y z : Z) : Z :=
  Z.lxor (Z.land x y) (Z.land (wrap (Z.lnot x)) z).

Definition maj (x y z : Z) : Z :=
  Z.lxor (Z.lxor (Z.land x y) (Z.land x z)) (Z.land y z).

Definition big_sigma0 (x : Z) : Z :=
  Z.lxor (Z.lxor (rotr 2 x) (rotr 13 x)) (rotr 22 x).

Definition big_sigma1 (x : Z) : Z :=
  Z.lxor (Z.lxor (rotr 6 x) (rotr 11 x)) (rotr 25 x).

Definition small_sigma0 (x : Z) : Z :=
  Z.lxor (Z.lxor (rotr 7 x) (rotr 18 x)) (Z.shiftr x 3).

Definition small_sigma1 (x : Z) : Z :=
  Z.lxor (Z.lxor (rotr 17 x) (rotr 19 x)) (Z.shiftr x 10).

(** The standard derives its constants from the first primes: the first
    32 bits of the fractional parts of their square and cube roots. *)
Definition is_prime (n : nat) : bool :=
  forallb (fun d => negb (n mod d =? 0)%nat) (seq 2 (n - 2)).

Definition first_primes (k : nat) : list Z :=
  map Z.of_nat (firstn k (List.filter is_prime (seq 2 310))).

(** The integer cube root, one bit at a time from bit [bits - 1] down. *)
Fixpoint cube_root_bits (bits : nat) (n r : Z) : Z :=
  match bits with
  | O => r
  | S b =>
      let r' := r + 2 ^ Z.of_nat b in
      cube_root_bits b n (if r' * r' * r' <=? n then r' else r)
  end.

Definition cube_root (n : Z) : Z := cube_root_bits 40 n 0.

Definition round_constants : list Z :=
  map (fun p => wrap (cube_root (p * 2 ^ 96))) (first_primes 64).

Definition initial_state : list Z :=
  map (fun p => wrap (Z.sqrt (p * 2 ^ 64))) (first_primes 8).

(** Big-endian bytes of [x], [n] of them. *)
Fixpoint be_bytes (n : nat) (x : Z) : list Z :=
  match n with
  | O => []
  | S n' => (Z.shiftr x (8 * Z.of_nat n')) mod 256 :: be_bytes n' x
  end.

(** The message followed by a one bit, zeros up to 56 modulo 64, and the
    bit length on eight bytes. *)
Definition padded (msg : list Z) : list Z :=
  let len := Z.of_nat (length msg) in
  let zeros := Z.to_nat ((55 - len) mod 64) in
  msg ++ [0x80] ++ repeat 0 zeros ++ be_bytes 8 (8 * len).

Fixpoint be_words (fuel : nat) (bytes : list Z) : list Z :=
  match fuel, bytes with
  | S fuel', a :: b :: c :: d :: rest =>
      (Z.shiftl a 24 + Z.shiftl b 16 + Z.shiftl c 8 + d) :: be_words fuel' rest
  | _, _ => []
  end.

(** The message schedule, newest word first: [w] holds [W(t-1) .. W(0)]. *)
Fixpoint schedule (n : nat) (w : list Z) : list Z :=
  match n with
  | O => w
  | S n' =>
      let next :=
        wrap (small_sigma1 (nth 1 w 0) + nth 6 w 0
              + small_sigma0 (nth 14 w 0) + nth 15 w 0) in
      schedule n' (next :: w)
  end.

Definition compress_round (st : list Z) (kw : Z * Z) : list Z :=
  match st with
  | [a; b; c; d; e; f; g; h] =>
      let t1 := h + big_sigma1 e + ch e f g + fst kw + snd kw in
      let t2 := big_sigma0 a + maj a b c in
      [wrap (t1 + t2); a; b; c; wrap (d + t1); e; f; g]
  | _ => st
  end.

Definition compress (st : list Z) (block : list Z) : list Z :=
  let w := rev (schedule 48 (rev block)) in
  let st' := fold_left compress_round (combine round_constants w) st in
  map (fun p => wrap (fst p + snd p)) (combine st st').

Fixpoint blocks (fuel : nat) (words : list Z) : list (list Z) :=
  match fuel, words with
  | O, _ => []
  | _, [] => []
  | S fuel', _ => firstn 16 words :: blocks fuel' (skipn 16 words)
  end.

Definition digest (msg : list Z) : list Z :=
  let bytes := padded msg in
  let words := be_words (length bytes) bytes in
  fold_left compress (blocks (length words) words) initial_state.

Definition hex_digit (d : Z) : ascii :=
  ascii_of_nat (Z.to_nat (if d <? 10 then 48 + d else 87 + d)).

Fixpoint hex_word (n : nat) (x : Z) : list ascii :=
  match n with
  | O => []
  | S n' => hex_digit ((Z.shiftr x (4 * Z.of_nat n')) mod 16) :: hex_word n' x
  end.

Definition hexdigest (s : string) : string :=
  let msg := map (fun c => Z.of_nat (nat_of_ascii c)) (list_ascii_of_string s) in
  string_of_list_ascii (flat_map (hex_word 8) (digest msg)).

End Sha256.

(** The error monad plugs into stdpp's monad notation [x ← m; k]. *)
#[global] Instance result_ret : MRet Py.result := @Py.Ret.
#[global] Instance result_bind : MBind Py.result :=
  fun A B k m => Py.bind m k.

(** ** The hosted store: pattern operators and tables *)

Module Store.

(** PostgreSQL's [LIKE] on characters: [%] any run of characters, [_] any
    single one, backslash takes the next pattern character literally (a
    pattern that ends in a lone backslash matches nothing here; the store
    rejects it). *)
Fixpoint like_chars (p : list ascii) : list ascii -> bool :=
  match p with
  | [] => fun s => match s with [] => true | _ :: _ => false end
  | "%"%char :: p' =>
      fix any (s : list ascii) : bool :=
        like_chars p' s || match s with [] => false | _ :: s' => any s' end
  | "_"%char :: p' =>
      fun s => match s with [] => false | _ :: s' => like_chars p' s' end
  | "\"%char :: [] => fun _ => false
  | "\"%char :: c :: p' =>
      fun s => match s with
               | [] => false
               | d :: s' => Ascii.eqb c d && like_chars p' s'
               end
  | c :: p' =>
      fun s => match s with
               | [] => false
               | d :: s' => Ascii.eqb c d && like_chars p' s'
               end
  end.

(** The request layer reads [*] in a pattern as [%]. *)
Definition star_to_percent (c : ascii) : ascii :=
  if Ascii.eqb c "*" then "%"%char else c.

Definition like (pattern value : string) : bool :=
  like_chars (map star_to_percent (list_ascii_of_string pattern))
             (list_ascii_of_string value).

Definition ilike (pattern value : string) : bool :=
  like_chars (map Py.lower (map star_to_percent (list_ascii_of_string pattern)))
             (map Py.lower (list_ascii_of_string value)).

(** JSON values a numeric-looking column can carry. *)
Inductive jvalue : Type :=
| JNull
| JNum (q : Q)
| JStr (s : string).

(** Rows of [users], with the columns as [create_user] fills them: the
    flags and the counter are never [null]. *)
Record User : Type := mkUser {
  user_id : Z;
  username : string;
  password_hash : string;
  role : string;
  active : bool;
  failed_attempts : Z;
  locked : bool;
  last_login : option string;
  last_logout : option string
}.

(** Rows of [invoices] and of [agreements]: the two tables have the same
    columns but for the reference, which is [invoice_ref] in the first
    and [agreement_no] in the second. *)
Record Document : Type := mkDocument {
  reference : string;
  customer_name : string;
  phone : string;
  address : string;
  consumer_no : string;
  subdivision : string;
  capacity : Q;
  phase : string;
  amount : jvalue;
  created_by : string;
  created_at : string
}.

(** Rows of [activity_logs]. *)
Record ActivityLog : Type := mkActivityLog {
  log_username : string;
  action : string;
  category : string
}.

Record Tables : Type := mkTables {
  users : list User;
  invoices : list Document;
  agreements : list Document;
  activity_logs : list ActivityLog
}.

(** [table.update(change).eq(column, value)]: every row the filter
    selects is changed, the others stay. *)
Definition update_where {A : Type} (sel : A -> bool) (change : A -> A)
    (rows : list A) : list A :=
  map (fun r => if sel r then change r else r) rows.

(** [table.insert(row)]. *)
Definition insert_row {A : Type} (row : A) (rows : list A) : list A :=
  rows ++ [row].

(** A [select] request as the query builder accumulates it: filters are
    conjoined, [range] keeps the rows at indices [first..last] of the
    ordered result. *)
Record Query : Type := mkQuery {
  q_filters : list (Document -> bool);
  q_range : option (Z * Z);
  q_order_desc : bool
}.

Definition select_all : Query :=
  {| q_filters := []; q_range := None; q_order_desc := false |}.

Definition add_filter (f : Document -> bool) (q : Query) : Query :=
  {| q_filters := q_filters q ++ [f];
     q_range := q_range q;
     q_order_desc := q_order_desc q |}.

Definition range (first last : Z) (q : Query) : Query :=
  {| q_filters := q_filters q;
     q_range := Some (first, last);
     q_order_desc := q_order_desc q |}.

Definition order_created_at_desc (q : Query) : Query :=
  {| q_filters := q_filters q;
     q_range := q_range q;
     q_order_desc := true |}.

Definition matches (q : Query) (d : Document) : bool :=
  forallb (fun f => f d) (q_filters q).

(** Insertion of a row in a list kept newest first. *)
Fixpoint insert_desc (leb : string -> string -> bool) (d : Document)
    (l : list Document) : list Document :=
  match l with
  | [] => [d]
  | e :: l' =>
      if leb (created_at e) (created_at d) then d :: l
      else e :: insert_desc leb d l'
  end.

Definition sort_desc (leb : string -> string -> bool)
    (l : list Document) : list Document :=
  fold_right (insert_desc leb) [] l.

Definition slice (first last : Z) (l : list Document) : list Document :=
  take (Z.to_nat (last - first + 1)) (drop (Z.to_nat first) l).

Record Response : Type := mkResponse {
  data : list Document;
  count : nat
}.

(** [query.execute()] with [count="exact"]: the page, and the number of
    rows the filters select before paging. *)
Definition execute (leb : string -> string -> bool) (q : Query)
    (table : list Document) : Response :=
  let hits := filter (matches q) table in
  let ordered := if q_order_desc q then sort_desc leb hits else hits in
  let page := match q_range q with
              | Some (first, last) => slice first last ordered
              | None => ordered
              end in
  {| data := page; count := length hits |}.

End Store.

Import Store.

(** ** What the back end takes from outside the repository *)

(** [sha256_hexdigest] is [hashlib.sha256(s.encode()).hexdigest()],
    [created_at_leb] the store's order on [created_at] values (used by
    [gte], [lte] and [order]), [float_of_string] Python's [float] on a
    string ([None] when it raises [ValueError]).

    [int_of_text] is Python's [int] on a string that has a character
    outside ASCII ([None] when it raises [ValueError]): which characters
    are white space and decimal digits there is read from the Unicode
    tables of the interpreter.

    The remaining fields are the interpreter's arithmetic on floats:
    [float_of_number] is [float] on a number that came out of JSON,
    [fadd] is [+], [fdiv] is [/], [fsum] is the built-in [sum] on one or
    more floats (a plain addition from left to right before CPython 3.12,
    a compensated one since) and [round2] is [round(x, 2)]. *)
Class Platform : Type := mkPlatform {
  sha256_hexdigest : string -> string;
  created_at_leb : string -> string -> bool;
  float_of_string : string -> option Q;
  int_of_text : string -> option Z;
  float_of_number : Q -> Q;
  fadd : Q -> Q -> Q;
  fdiv : Q -> Q -> Q;
  fsum : list Q -> Q;
  round2 : Q -> Q
}.

(** A reading of the clock. *)
Record datetime : Type := mkDatetime {
  year : Z;
  month : Z;
  day : Z;
  hour : Z;
  minute : Z;
  second : Z;
  microsecond : Z
}.

Definition pad (width : nat) (n : Z) : string := Py.zfill width (Py.str n).

(** [now.strftime("%m/%y")]. *)
Definition strftime_m_y (now : datetime) : string :=
  pad 2 (month now) +:+ "/" +:+ pad 2 (year now mod 100).

(** [now.isoformat()]. *)
Definition isoformat (now : datetime) : string :=
  pad 4 (year now) +:+ "-" +:+ pad 2 (month now) +:+ "-" +:+ pad 2 (day now)
  +:+ "T" +:+ pad 2 (hour now) +:+ ":" +:+ pad 2 (minute now)
  +:+ ":" +:+ pad 2 (second now)
  +:+ (if microsecond now =? 0 then "" else "." +:+ pad 6 (microsecond now)).

(** [if s:] on an optional string argument: [None] and the empty string
    are false; a true one is handed to the branch. *)
Definition truthy (s : option string) : option string :=
  match s with
  | Some "" => None
  | Some t => Some t
  | None => None
  end.

(** ** core_backend.py *)

Section Backend.
Context `{Platform}.

(** *** Security *)

Definition hash_password (password : string) : string :=
  sha256_hexdigest password.

Definition verify_password (password hashed : string) : bool :=
  String.eqb (hash_password password) hashed.

(** *** Users *)

(** [new_id] is the key the store gives the inserted row. *)
Definition create_user (new_id : Z) (username password role : string)
    (tbl : list User) : list User :=
  insert_row {| user_id := new_id;
            username := username;
            password_hash := hash_password password;
            role := role;
            active := true;
            failed_attempts := 0;
            locked := false;
            last_login := None;
            last_logout := None |} tbl.

Definition get_user (tbl : list User) (name : string) : option User :=
  head (filter (fun u => String.eqb (username u) name) tbl).

Definition ensure_default_admin (new_id : Z) (tbl : list User) : list User :=
  match tbl with
  | [] => create_user new_id "admin" "admin@123" "admin" tbl
  | _ :: _ => tbl
  end.

(** *** Login *)

Record Identity : Type := mkIdentity {
  identity_username : string;
  identity_role : string
}.

Definition set_login_success (stamp : string) (u : User) : User :=
  {| user_id := user_id u;
     username := username u;
     password_hash := password_hash u;
     role := role u;
     active := active u;
     failed_attempts := 0;
     locked := locked u;
     last_login := Some stamp;
     last_logout := last_logout u |}.

Definition set_attempts (attempts : Z) (lock : bool) (u : User) : User :=
  {| user_id := user_id u;
     username := username u;
     password_hash := password_hash u;
     role := role u;
     active := active u;
     failed_attempts := attempts;
     locked := lock;
     last_login := last_login u;
     last_logout := last_logout u |}.

Definition set_last_logout (stamp : string) (u : User) : User :=
  {| user_id := user_id u;
     username := username u;
     password_hash := password_hash u;
     role := role u;
     active := active u;
     failed_attempts := failed_attempts u;
     locked := locked u;
     last_login := last_login u;
     last_logout := Some stamp |}.

Definition has_id (i : Z) (u : User) : bool := user_id u =? i.

(** Returns the [users] table after the call and what the call returns. *)
Definition validate_login (utcnow : datetime) (tbl : list User)
    (name password : string) : list User * option Identity :=
  match get_user tbl name with
  | None => (tbl, None)
  | Some user =>
      if locked user then (tbl, None)
      else if negb (active user) then (tbl, None)
      else if verify_password password (password_hash user) then
        (update_where (has_id (user_id user))
                      (set_login_success (isoformat utcnow)) tbl,
         Some {| identity_username := username user;
                 identity_role := role user |})
      else
        let attempts := failed_attempts user + 1 in
        let lock := 3 <=? attempts in
        (update_where (has_id (user_id user)) (set_attempts attempts lock) tbl,
         None)
  end.

Definition record_logout (utcnow : datetime) (name : string)
    (tbl : list User) : list User :=
  update_where (fun u => String.eqb (username u) name)
               (set_last_logout (isoformat utcnow)) tbl.

Definition unlock_user (uid : Z) (tbl : list User) : list User :=
  update_where (has_id uid) (set_attempts 0 false) tbl.

(** *** Activity log *)

Definition log_activity (name action category : string)
    (logs : list ActivityLog) : list ActivityLog :=
  insert_row {| log_username := name; action := action; category := category |}
         logs.

(** *** Counters *)

(** [int(s)] on a string: ASCII text is read as the language defines
    it, other text as the interpreter at hand reads it. *)
Definition int (s : string) : Py.result Z :=
  if forallb Py.is_ascii (list_ascii_of_string s) then Py.int_ascii s
  else match int_of_text s with
       | Some z => Py.Ret z
       | None => Py.Raise Py.ValueError
       end.

(** The body of the [try] in the counter loops:
    [int(row[...].split("/")[-1])]. *)
Definition trailing_number (ref : string) : Py.result Z :=
  tok ← Py.last_item (Py.split "/" ref);
  int tok.

(** The loop that collects [nums]; a row whose trailing token raises is
    passed over. *)
Definition collect_nums (rows : list Document) : list Z :=
  fold_left
    (fun nums row =>
       Py.try_except (n ← trailing_number (reference row);
                      mret (nums ++ [n]))
                     nums)
    rows [].

(** [max(nums) + 1 if nums else 1]. *)
Definition next_num (nums : list Z) : Z :=
  match nums with
  | [] => 1
  | z :: rest => Py.max z rest + 1
  end.

Definition period_rows (key : string) (tbl : list Document) : list Document :=
  filter (fun d => like ("%/" +:+ key +:+ "/%") (reference d)) tbl.

Definition get_next_invoice_ref (now : datetime) (tbl : list Document)
    : string :=
  let month_key := strftime_m_y now in
  let rows := period_rows month_key tbl in
  let nums := collect_nums rows in
  "BE/KNG/PMSG/QTN/" +:+ month_key +:+ "/" +:+ Py.zfill 4 (Py.str (next_num nums)).

Definition get_next_agreement_no (now : datetime) (tbl : list Document)
    : string :=
  let year_key := Py.str (year now) in
  let rows := period_rows year_key tbl in
  let nums := collect_nums rows in
  "AG/SG/APDCL/" +:+ year_key +:+ "/" +:+ Py.zfill 4 (Py.str (next_num nums)).

(** *** Save *)

Definition insert_invoice (row : Document) (tbl : list Document)
    : list Document := insert_row row tbl.

Definition insert_agreement (row : Document) (tbl : list Document)
    : list Document := insert_row row tbl.

(** *** History *)

Record Page : Type := mkPage {
  page_data : list Document;
  page_count : nat
}.

(** The [or_] group of the history queries: [ilike] on the customer's
    name, the phone or the reference, each against [%search%].  (A search
    text that contains the filter syntax's own separators is rejected by
    the store and is outside this model.) *)
Definition search_filter (search : string) (d : Document) : bool :=
  let pattern := "%" +:+ search +:+ "%" in
  ilike pattern (customer_name d) || ilike pattern (phone d)
  || ilike pattern (reference d).

Definition history_query (role name : string) (search : option string)
    (limit offset : Z) : Query :=
  let query := select_all in
  let query :=
    if negb (String.eqb role "admin")
    then add_filter (fun d => String.eqb (created_by d) name) query
    else query in
  let query :=
    match truthy search with
    | Some text => add_filter (search_filter text) query
    | None => query
    end in
  order_created_at_desc (range offset (offset + limit - 1) query).

Definition fetch_invoices (tbl : list Document) (role name : string)
    (search : option string) (limit offset : Z) : Page :=
  let res := execute created_at_leb
                     (history_query role name search limit offset) tbl in
  {| page_data := data res; page_count := count res |}.

Definition fetch_agreements (tbl : list Document) (role name : string)
    (search : option string) (limit offset : Z) : Page :=
  let res := execute created_at_leb
                     (history_query role name search limit offset) tbl in
  {| page_data := data res; page_count := count res |}.

(** [float(x)] on a JSON value: [None] raises [TypeError], a string that
    is no number raises [ValueError]. *)
Definition float (v : jvalue) : Py.result Q :=
  match v with
  | JNull => Py.Raise Py.TypeError
  | JNum q => Py.Ret (float_of_number q)
  | JStr s => match float_of_string s with
              | Some q => Py.Ret q
              | None => Py.Raise Py.ValueError
              end
  end.

Record Totals : Type := mkTotals {
  totals_count : nat;
  total_amount : Q
}.

Definition calculate_invoice_totals (rows : list Document) : Totals :=
  let total :=
    fold_left
      (fun total i =>
         Py.try_except (x ← float (amount i); mret (fadd total x)) total)
      rows 0%Q in
  {| totals_count := length rows; total_amount := total |}.

Definition calculate_agreement_totals (rows : list Document) : Totals :=
  let total :=
    fold_left
      (fun total a =>
         Py.try_except (x ← float (amount a); mret (fadd total x)) total)
      rows 0%Q in
  {| totals_count := length rows; total_amount := total |}.

(** *** Analytics *)

Definition fetch_invoices_in_range (tbl : list Document)
    (start_date end_date : option string) : list Document :=
  let query := select_all in
  let query :=
    match truthy start_date with
    | Some s => add_filter (fun d => created_at_leb s (created_at d)) query
    | None => query
    end in
  let query :=
    match truthy end_date with
    | Some e => add_filter (fun d => created_at_leb (created_at d) e) query
    | None => query
    end in
  data (execute created_at_leb query tbl).

(** The built-in [sum] on floats: the integer 0 when there is nothing to
    add, the interpreter's sum otherwise. *)
Definition builtin_sum (xs : list Q) : Q :=
  match xs with
  | [] => 0%Q
  | _ :: _ => fsum xs
  end.

(** [sum(float(i["amount"]) for i in rows)]: the amounts are converted
    in the order of the rows, and the first one that does not convert
    ends the sum with its exception. *)
Definition sum_amounts (rows : list Document) : Py.result Q :=
  xs ← fold_left
         (fun acc i => xs ← acc; x ← float (amount i); mret (xs ++ [x]))
         rows (Py.Ret []);
  mret (builtin_sum xs).

Record Kpis : Type := mkKpis {
  total_revenue : Q;
  total_invoices : nat;
  avg_value : Q
}.

Definition get_revenue_kpis (tbl : list Document)
    (start_date end_date : option string) : Py.result Kpis :=
  let rows := fetch_invoices_in_range tbl start_date end_date in
  total ← sum_amounts rows;
  let total_count := length rows in
  let avg :=
    if (total_count =? 0)%nat then 0%Q
    else round2 (fdiv total (inject_Z (Z.of_nat total_count))) in
  mret {| total_revenue := total;
          total_invoices := total_count;
          avg_value := avg |}.

(** Insertion in a list of pairs kept in ascending order of the key. *)
Fixpoint insert_sorted (kv : string * Q) (l : list (string * Q))
    : list (string * Q) :=
  match l with
  | [] => [kv]
  | e :: l' =>
      if String.leb (fst kv) (fst e) then kv :: l
      else e :: insert_sorted kv l'
  end.

Definition sorted_items (m : gmap string Q) : list (string * Q) :=
  fold_right insert_sorted [] (map_to_list m).

Definition get_daily_revenue_series (tbl : list Document)
    (start_date end_date : option string)
    : Py.result (list (string * Q)) :=
  let rows := fetch_invoices_in_range tbl start_date end_date in
  series ←
    fold_left
      (fun acc inv =>
         series ← acc;
         let day := Py.prefix 10 (created_at inv) in
         x ← float (amount inv);
         mret (<[day := fadd (default 0%Q (series !! day)) x]> series))
      rows (Py.Ret (∅ : gmap string Q));
  mret (sorted_items series).

Definition get_phase_split (tbl : list Document)
    (start_date end_date : option string) : gmap string nat :=
  let rows := fetch_invoices_in_range tbl start_date end_date in
  let split : gmap string nat :=
    <["Single Phase" := 0%nat]> (<["Three Phase" := 0%nat]> ∅) in
  fold_left
    (fun split inv =>
       <[phase inv := (default 0%nat (split !! phase inv) + 1)%nat]> split)
    rows split.

Definition get_staff_performance (tbl : list Document)
    (start_date end_date : option string) : Py.result (gmap string Q) :=
  let rows := fetch_invoices_in_range tbl start_date end_date in
  fold_left
    (fun acc inv =>
       perf ← acc;
       let user := created_by inv in
       x ← float (amount inv);
       mret (<[user := fadd (default 0%Q (perf !! user)) x]> perf))
    rows (Py.Ret (∅ : gmap string Q)).

End Backend.

(** ** streamlit_app.py: the document generation page *)

Section Pages.
Context `{Platform}.

Definition RATE_PER_KW : Q := 70000.

(** The choices of the capacity select box. *)
Definition capacity_choices : list Q := [3; 45 # 10; 5; 10]%Q.

Definition phase_of (capacity : Q) : string :=
  if Qle_bool 5 capacity then "Three Phase" else "Single Phase".

Definition total_amount_of (capacity : Q) : Z :=
  Py.int_of_number (capacity * RATE_PER_KW).

Record GenerateForm : Type := mkGenerateForm {
  form_customer_name : string;
  form_phone : string;
  form_address : string;
  form_consumer_no : string;
  form_subdivision : string;
  form_capacity : Q;
  form_w1_name : string;
  form_w1_phone : string;
  form_w2_name : string;
  form_w2_phone : string
}.

Inductive Outcome : Type :=
| Idle
| Rejected (message : string)
| Saved (invoice_ref agreement_no : string).

Definition document_row (ref : string) (form : GenerateForm)
    (session_username : string) (now : datetime) : Document :=
  {| reference := ref;
     customer_name := form_customer_name form;
     phone := form_phone form;
     address := form_address form;
     consumer_no := form_consumer_no form;
     subdivision := form_subdivision form;
     capacity := form_capacity form;
     phase := phase_of (form_capacity form);
     amount := JNum (inject_Z (total_amount_of (form_capacity form)));
     created_by := session_username;
     created_at := isoformat now |}.

(** One run of the page.  [clicked] is the state of the button, the three
    clock readings are those of [get_next_invoice_ref],
    [get_next_agreement_no] and the handler itself, in this order. *)
Definition generate_documents_page (session_username : string)
    (clicked : bool) (t_invoice t_agreement now : datetime)
    (form : GenerateForm) (db : Tables) : Tables * Outcome :=
  if negb clicked then (db, Idle)
  else if String.eqb (form_customer_name form) ""
          || String.eqb (form_phone form) ""
  then (db, Rejected "Customer name and phone are required.")
  else
    let invoice_ref := get_next_invoice_ref t_invoice (invoices db) in
    let agreement_no := get_next_agreement_no t_agreement (agreements db) in
    let invoices' :=
      insert_invoice (document_row invoice_ref form session_username now)
                     (invoices db) in
    let agreements' :=
      insert_agreement (document_row agreement_no form session_username now)
                       (agreements db) in
    let logs' :=
      log_activity session_username
                   ("Generated " +:+ invoice_ref +:+ " & " +:+ agreement_no)
                   "generate" (activity_logs db) in
    ({| users := users db;
        invoices := invoices';
        agreements := agreements';
        activity_logs := logs' |},
     Saved invoice_ref agreement_no).

(** *** The writing operations of the application, as one transition
    system over the tables *)

Inductive Op : Type :=
| OpCreateUser (new_id : Z) (name password role : string)
| OpEnsureDefaultAdmin (new_id : Z)
| OpValidateLogin (utcnow : datetime) (name password : string)
| OpRecordLogout (utcnow : datetime) (name : string)
| OpUnlockUser (uid : Z)
| OpLogActivity (name action category : string)
| OpInsertInvoice (row : Document)
| OpInsertAgreement (row : Document)
| OpGenerateDocuments (session_username : string) (clicked : bool)
    (t_invoice t_agreement now : datetime) (form : GenerateForm).

Definition with_users (db : Tables) (tbl : list User) : Tables :=
  {| users := tbl;
     invoices := invoices db;
     agreements := agreements db;
     activity_logs := activity_logs db |}.

Definition step (op : Op) (db : Tables) : Tables :=
  match op with
  | OpCreateUser new_id name password role =>
      with_users db (create_user new_id name password role (users db))
  | OpEnsureDefaultAdmin new_id =>
      with_users db (ensure_default_admin new_id (users db))
  | OpValidateLogin utcnow name password =>
      with_users db (fst (validate_login utcnow (users db) name password))
  | OpRecordLogout utcnow name =>
      with_users db (record_logout utcnow name (users db))
  | OpUnlockUser uid =>
      with_users db (unlock_user uid (users db))
  | OpLogActivity name action category =>
      {| users := users db;
         invoices := invoices db;
         agreements := agreements db;
         activity_logs := log_activity name action category (activity_logs db) |}
  | OpInsertInvoice row =>
      {| users := users db;
         invoices := insert_invoice row (invoices db);
         agreements := agreements db;
         activity_logs := activity_logs db |}
  | OpInsertAgreement row =>
      {| users := users db;
         invoices := invoices db;
         agreements := insert_agreement row (agreements db);
         activity_logs := activity_logs db |}
  | OpGenerateDocuments session_username clicked t_invoice t_agreement now form =>
      fst (generate_documents_page session_username clicked
                                   t_invoice t_agreement now form db)
  end.

Definition is_unlock (op : Op) : bool :=
  match op with
  | OpUnlockUser _ => true
  | _ => false
  end.

Definition run (ops : list Op) (db : Tables) : Tables :=
  fold_left (fun db op => step op db) ops db.

(** The store serves an insertion into [users] with a key not in use. *)
Definition fresh_key (op : Op) (db : Tables) : Prop :=
  match op with
  | OpCreateUser new_id _ _ _ => new_id ∉ user_id <$> users db
  | _ => True
  end.

(** A run without unlock in which every insertion gets a fresh key. *)
Fixpoint unlock_free (ops : list Op) (db : Tables) : Prop :=
  match ops with
  | [] => True
  | op :: ops' =>
      is_unlock op = false /\ fresh_key op db /\ unlock_free ops' (step op db)
  end.

End Pages.

(** ** streamlit_app.py: session, login, logout and the history pages *)

Section Sessions.
Context `{Platform}.

(** The session.  Its three fields ([logged_in], [username], [role]) are
    always written together: all cleared at start and by [logout], all
    set by [login_page]. *)
Inductive Session : Type :=
| Anonymous
| LoggedIn (name role : string).

(** One run of the login page; [clicked] is the state of the button. *)
Definition login_page (utcnow : datetime) (name password : string)
    (clicked : bool) (db : Tables) (session : Session) : Tables * Session :=
  if negb clicked then (db, session)
  else
    match validate_login utcnow (users db) name password with
    | (users', Some user) =>
        ({| users := users';
            invoices := invoices db;
            agreements := agreements db;
            activity_logs :=
              log_activity (identity_username user) "Logged in" "auth"
                           (activity_logs db) |},
         LoggedIn (identity_username user) (identity_role user))
    | (users', None) => (with_users db users', session)
    end.

(** [logout()], called from the side bar of a logged-in session whose
    user name is [name]. *)
Definition logout (utcnow : datetime) (name : string) (db : Tables)
    : Tables * Session :=
  ({| users := record_logout utcnow name (users db);
      invoices := invoices db;
      agreements := agreements db;
      activity_logs := log_activity name "Logged out" "auth" (activity_logs db) |},
   Anonymous).

(** What the user does in one run of the script. *)
Inductive Event : Type :=
| ClickLogin (utcnow : datetime) (name password : string)
| ClickLogout (utcnow : datetime)
| ClickGenerate (t_invoice t_agreement now : datetime) (form : GenerateForm)
| Browse.

(** One run of the script: [ensure_default_admin()] at the top, then the
    login page for an anonymous session and the main application for a
    logged-in one.  The run that [st.rerun()] starts after a login or a
    logout is a further run with [Browse].  (The unlock button of the
    security page is left to [OpUnlockUser]: the page lists the users
    with a function the back end does not define.) *)
Definition script_run (new_id : Z) (ev : Event) (db : Tables)
    (session : Session) : Tables * Session :=
  let db := with_users db (ensure_default_admin new_id (users db)) in
  match session with
  | Anonymous =>
      match ev with
      | ClickLogin utcnow name password =>
          login_page utcnow name password true db session
      | _ => (db, session)
      end
  | LoggedIn name role =>
      match ev with
      | ClickLogout utcnow => logout utcnow name db
      | ClickGenerate t_invoice t_agreement now form =>
          (fst (generate_documents_page name true t_invoice t_agreement
                                        now form db),
           session)
      | _ => (db, session)
      end
  end.

(** A step of the whole system: a run of the script in this session, or
    a write of the back end on behalf of another one. *)
Inductive Action : Type :=
| Ui (new_id : Z) (ev : Event)
| Elsewhere (op : Op).

Definition act (a : Action) (state : Tables * Session) : Tables * Session :=
  match a with
  | Ui new_id ev => script_run new_id ev (fst state) (snd state)
  | Elsewhere op => (step op (fst state), snd state)
  end.

Definition play (actions : list Action) (state : Tables * Session)
    : Tables * Session :=
  fold_left (fun st a => act a st) actions state.

Definition ROWS_PER_PAGE : Z := 20.

(** What a history page shows: the notice that nothing was found, or the
    rows of the page with the totals line. *)
Inductive HistoryView : Type :=
| NothingFound
| Listing (rows : list Document) (totals : Totals).

Definition invoice_history_page (role name search : string) (page_no : Z)
    (tbl : list Document) : HistoryView :=
  let offset := (page_no - 1) * ROWS_PER_PAGE in
  let result := fetch_invoices tbl role name (Some search) ROWS_PER_PAGE offset in
  match page_data result with
  | [] => NothingFound
  | invoices => Listing invoices (calculate_invoice_totals invoices)
  end.

Definition agreement_history_page (role name search : string) (page_no : Z)
    (tbl : list Document) : HistoryView :=
  let offset := (page_no - 1) * ROWS_PER_PAGE in
  let result := fetch_agreements tbl role name (Some search) ROWS_PER_PAGE offset in
  match page_data result with
  | [] => NothingFound
  | agreements => Listing agreements (calculate_agreement_totals agreements)
  end.

End Sessions.

(** ** A platform to run the code on *)

(** The reference platform is CPython 3.11: floats are binary64 numbers
    with the arithmetic of IEEE 754, [sum] adds from left to right, and
    the decimal digits are those of Unicode 14. *)

(** *** Binary64 numbers *)

Module Binary64.

Definition pow2 (k : Z) : Q :=
  if 0 <=? k then inject_Z (2 ^ k) else 1 # Z.to_pos (2 ^ (- k)).

(** [floor (log2 q)] for a positive [q]. *)
Definition exponent (q : Q) : Z :=
  let k := Z.log2 (Qnum q) - Z.log2 (Z.pos (Qden q)) in
  if Qle_bool (pow2 k) q then k else k - 1.

(** To the nearest integer, a tie to the even one. *)
Definition round_half_even (q : Q) : Z :=
  let f := Qfloor q in
  match Qcompare (q - inject_Z f) (1 # 2) with
  | Lt => f
  | Gt => f + 1
  | Eq => if Z.even f then f else f + 1
  end.

(** The binary64 number nearest to [q], a tie to the even significand:
    53 bits above the exponent -1074 of the subnormal numbers.  The
    exponent is not bounded above. *)
Definition nearest (q : Q) : Q :=
  if Qeq_bool q 0 then 0%Q
  else
    let a := Qabs q in
    let ulp := pow2 (Z.max (exponent a - 52) (-1074)) in
    let r := Qred (inject_Z (round_half_even (a / ulp)) * ulp) in
    if Qle_bool 0 q then r else Qred (- r).

Definition add (a b : Q) : Q := nearest (a + b).

Definition div (a b : Q) : Q := nearest (a / b).

(** [sum] before CPython 3.12: additions from left to right. *)
Definition sum (xs : list Q) : Q := fold_left add xs 0%Q.

(** [round(x, 2)]: the decimal with two places nearest to [x], a tie to
    the even one, and then the binary64 number nearest to that. *)
Definition round_2 (x : Q) : Q :=
  nearest (inject_Z (round_half_even (x * 100)) / 100).

End Binary64.

(** *** Text outside ASCII *)

Module Unicode.

Definition byte (c : ascii) : Z := Z.of_nat (nat_of_ascii c).

(** The code points of a UTF-8 string; [None] when it is not well
    formed. *)
Fixpoint decode (fuel : nat) (l : list ascii) : option (list Z) :=
  match fuel with
  | O => None
  | S fuel' =>
      match l with
      | [] => Some []
      | b0 :: l1 =>
          if byte b0 <? 128 then cons (byte b0) <$> decode fuel' l1
          else if (194 <=? byte b0) && (byte b0 <=? 223) then
            match l1 with
            | b1 :: l2 =>
                if Py.is_continuation b1
                then cons ((byte b0 - 192) * 64 + (byte b1 - 128))
                       <$> decode fuel' l2
                else None
            | _ => None
            end
          else if (224 <=? byte b0) && (byte b0 <=? 239) then
            match l1 with
            | b1 :: b2 :: l3 =>
                let cp := (byte b0 - 224) * 4096 + (byte b1 - 128) * 64
                          + (byte b2 - 128) in
                if Py.is_continuation b1 && Py.is_continuation b2
                   && (2048 <=? cp)
                   && negb ((55296 <=? cp) && (cp <=? 57343))
                then cons cp <$> decode fuel' l3
                else None
            | _ => None
            end
          else if (240 <=? byte b0) && (byte b0 <=? 244) then
            match l1 with
            | b1 :: b2 :: b3 :: l4 =>
                let cp := (byte b0 - 240) * 262144 + (byte b1 - 128) * 4096
                          + (byte b2 - 128) * 64 + (byte b3 - 128) in
                if Py.is_continuation b1 && Py.is_continuation b2
                   && Py.is_continuation b3
                   && (65536 <=? cp) && (cp <=? 1114111)
                then cons cp <$> decode fuel' l4
                else None
            | _ => None
            end
          else None
      end
  end.

(** A string is read as UTF-8, and byte by byte as code points below 256
    when it is not well-formed UTF-8. *)
Definition code_points (l : list ascii) : list Z :=
  match decode (S (length l)) l with
  | Some cps => cps
  | None => byte <$> l
  end.

(** White space outside ASCII. *)
Definition is_space (cp : Z) : bool :=
  (cp =? 133) || (cp =? 160) || (cp =? 5760)
  || ((8192 <=? cp) && (cp <=? 8202))
  || (cp =? 8232) || (cp =? 8233) || (cp =? 8239) || (cp =? 8287)
  || (cp =? 12288).

(** Where the runs of the ten decimal digits start in Unicode 14. *)
Definition digit_zeros : list Z :=
  [48; 1632; 1776; 1984; 2406; 2534; 2662; 2790; 2918; 3046; 3174; 3302;
   3430; 3558; 3664; 3792; 3872; 4160; 4240; 6112; 6160; 6470; 6608; 6784;
   6800; 6992; 7088; 7232; 7248; 42528; 43216; 43264; 43472; 43504; 43600;
   44016; 65296; 66720; 68912; 69734; 69872; 69942; 70096; 70384; 70736;
   70864; 71248; 71360; 71472; 71904; 72016; 72784; 73040; 73120; 92768;
   92864; 93008; 120782; 120792; 120802; 120812; 120822; 123200; 123632;
   125264; 130032].

Definition decimal (cp : Z) : option Z :=
  (fun zero => cp - zero)
    <$> find (fun zero => (zero <=? cp) && (cp <=? zero + 9)) digit_zeros.

(** What [int] makes of a character before it reads the text as ASCII:
    a character below 127 stays, white space becomes a blank and a
    decimal digit the ASCII one. *)
Definition to_ascii (cp : Z) : option ascii :=
  if cp <? 127 then Some (ascii_of_nat (Z.to_nat cp))
  else if is_space cp then Some " "%char
  else (fun d => ascii_of_nat (Z.to_nat (48 + d))) <$> decimal cp.

Definition int_of_text (s : string) : option Z :=
  l ← mapM to_ascii (code_points (list_ascii_of_string s));
  Py.int_chars l.

End Unicode.

(** *** Decimal literals *)

(** The digits of [digit (["_"] digit)*], without the underscores. *)
Definition digit_part (l : list ascii) : option (list ascii) :=
  _ ← Py.int_digits 0 false l;
  Some (List.filter Py.is_digit l).

Definition digits_value (l : list ascii) : Z :=
  fold_left (fun a c => 10 * a + Py.digit_val c) l 0.

Definition signed (l : list ascii) : bool * list ascii :=
  match l with
  | "-"%char :: rest => (true, rest)
  | "+"%char :: rest => (false, rest)
  | _ => (false, l)
  end.

(** [12.5], [12.], [.5] or [12]: the digits before and after the point. *)
Definition mantissa (l : list ascii) : option (list ascii * list ascii) :=
  match Py.split_chars "." l with
  | [whole] => w ← digit_part whole; Some (w, [])
  | [whole; frac] =>
      match whole, frac with
      | [], [] => None
      | [], _ => f ← digit_part frac; Some ([], f)
      | _, [] => w ← digit_part whole; Some (w, [])
      | _, _ => w ← digit_part whole; f ← digit_part frac; Some (w, f)
      end
  | _ => None
  end.

Definition is_e (c : ascii) : bool := Ascii.eqb c "e" || Ascii.eqb c "E".

(** The text before the first [e] and, when there is one, the text
    after it. *)
Fixpoint exponent_split (l : list ascii) : list ascii * option (list ascii) :=
  match l with
  | [] => ([], None)
  | c :: l' =>
      if is_e c then ([], Some l')
      else let '(m, e) := exponent_split l' in (c :: m, e)
  end.

Definition power10 (k : Z) : Q :=
  if 0 <=? k then inject_Z (10 ^ k) else 1 # Z.to_pos (10 ^ (- k)).

(** The number a decimal literal of Python's [float] grammar denotes,
    exponent and underscores included; [inf] and [nan] are not read. *)
Definition decimal_literal (s : string) : option Q :=
  l ← mapM Unicode.to_ascii (Unicode.code_points (list_ascii_of_string s));
  let '(negative, body) := signed (Py.strip l) in
  let '(m, rest) := exponent_split body in
  '(w, f) ← mantissa m;
  k ← match rest with
      | None => Some 0
      | Some e =>
          let '(down, digits) := signed e in
          d ← digit_part digits;
          Some (if down then - digits_value d else digits_value d)
      end;
  let q := (inject_Z (digits_value (w ++ f)) * power10 (k - Z.of_nat (length f)))%Q in
  Some (Qred (if negative then - q else q)).

Definition reference_platform : Platform :=
  {| sha256_hexdigest := Sha256.hexdigest;
     created_at_leb := String.leb;
     float_of_string := fun s => Binary64.nearest <$> decimal_literal s;
     int_of_text := Unicode.int_of_text;
     float_of_number := Binary64.nearest;
     fadd := Binary64.add;
     fdiv := Binary64.div;
     fsum := Binary64.sum;
     round2 := Binary64.round_2 |}.

(** ** Sample data for the worked examples *)

Module Sample.

Definition morning : datetime :=
  {| year := 2025; month := 1; day := 31;
     hour := 9; minute := 5; second := 7; microsecond := 0 |}.

(** The SHA-256 digest of the password [secret], as the store holds it. *)
Definition secret_digest : string :=
  "2bb80d537b1da3e38bd30361aa855686bde0eacd7162fef6a25fe97bf527a25b".

Definition staff (uid : Z) (name : string) (is_active : bool) (attempts : Z)
    (is_locked : bool) : User :=
  {| user_id := uid;
     username := name;
     password_hash := secret_digest;
     role := "staff";
     active := is_active;
     failed_attempts := attempts;
     locked := is_locked;
     last_login := None;
     last_logout := None |}.

(** An ordinary account, a deactivated one, a deactivated one that was
    locked before, and a locked one. *)
Definition alice : User := staff 1 "alice" true 0 false.
Definition carol : User := staff 3 "carol" false 0 false.
Definition dave : User := staff 4 "dave" false 3 true.
Definition erin : User := staff 5 "erin" true 3 true.

Definition document (ref creator : string) (value : jvalue) (ph stamp : string)
    : Document :=
  {| reference := ref;
     customer_name := "Customer";
     phone := "555-1234";
     address := "";
     consumer_no := "";
     subdivision := "";
     capacity := 3;
     phase := ph;
     amount := value;
     created_by := creator;
     created_at := stamp |}.

Definition first_invoice : Document :=
  document "BE/KNG/PMSG/QTN/01/25/0001" "alice" (JNum 210000) "Single Phase"
           "2025-01-10T10:00:00".

Definition third_invoice : Document :=
  document "BE/KNG/PMSG/QTN/01/25/0003" "bob" (JNum 350000) "Three Phase"
           "2025-01-11T10:00:00".

Definition old_invoice : Document :=
  document "BE/KNG/PMSG/QTN/12/24/0009" "bob" (JNum 700000) "Three Phase"
           "2024-12-11T10:00:00".

(** A row whose amount is [null]. *)
Definition blank_invoice : Document :=
  document "BE/KNG/PMSG/QTN/01/25/0002" "bob" JNull "Three Phase"
           "2025-01-12T10:00:00".

(** A row whose reference ends in a negative number. *)
Definition negative_invoice : Document :=
  document "BE/KNG/PMSG/QTN/01/25/-5000" "bob" (JNum 210000) "Single Phase"
           "2025-01-13T10:00:00".

Definition form : GenerateForm :=
  {| form_customer_name := "Customer";
     form_phone := "555-1234";
     form_address := "";
     form_consumer_no := "";
     form_subdivision := "";
     form_capacity := 5;
     form_w1_name := "";
     form_w1_phone := "";
     form_w2_name := "";
     form_w2_phone := "" |}.

Definition empty_tables : Tables :=
  {| users := []; invoices := []; agreements := []; activity_logs := [] |}.

End Sample.

(** ** Vocabulary of the statements *)

(** Value of a digit list, least significant digit first, and the step
    of reading one more digit from the left. *)
Fixpoint le_value (l : list ascii) : Z :=
  match l with
  | [] => 0
  | c :: l' => Py.digit_val c + 10 * le_value l'
  end.

Definition digit_step (a : Z) (c : ascii) : Z := 10 * a + Py.digit_val c.

(** Characters of a printed integer. *)
Definition numeric_char (c : ascii) : bool :=
  Py.is_digit c || Ascii.eqb c "-".

(** Characters that stand for themselves in a pattern. *)
Definition plain_char (c : ascii) : bool :=
  negb (Ascii.eqb c "%" || Ascii.eqb c "_" || Ascii.eqb c "\" || Ascii.eqb c "*").

(** The rows of a period, and the counter in the words of the
    specification: [n] is the successor of the largest trailing number
    among the rows of the period, or 1 when no row of the period has
    one. *)
Definition in_period (key : string) (tbl : list Document) (d : Document) : Prop :=
  d ∈ tbl /\ like ("%/" +:+ key +:+ "/%") (reference d) = true.

Definition period_successor `{Platform} (key : string) (tbl : list Document)
    (n : Z) : Prop :=
  (forall d m, in_period key tbl d ->
               trailing_number (reference d) = Py.Ret m -> m < n) /\
  ((exists d, in_period key tbl d /\
              trailing_number (reference d) = Py.Ret (n - 1)) \/
   (n = 1 /\ forall d m, in_period key tbl d ->
                         trailing_number (reference d) <> Py.Ret m)).

Definition parsed `{Platform} (d : Document) : option Z :=
  match trailing_number (reference d) with
  | Py.Ret n => Some n
  | Py.Raise _ => None
  end.

(** What a login may touch on a row: [failed_attempts] and [last_login]
    of the rows whose key is [target], nothing else. *)
Definition frame_login (target : Z) (u u' : User) : Prop :=
  user_id u' = user_id u /\ username u' = username u /\
  password_hash u' = password_hash u /\ role u' = role u /\
  active u' = active u /\ locked u' = locked u /\
  last_logout u' = last_logout u /\
  (user_id u <> target -> u' = u).

(** What a failed attempt and an unlock may touch: [failed_attempts] and
    [locked] of the rows whose key is [target]. *)
Definition frame_attempts (target : Z) (u u' : User) : Prop :=
  user_id u' = user_id u /\ username u' = username u /\
  password_hash u' = password_hash u /\ role u' = role u /\
  active u' = active u /\ last_login u' = last_login u /\
  last_logout u' = last_logout u /\
  (user_id u <> target -> u' = u).

(** What the history query asks of a row besides its creator. *)
Definition sought (search : option string) (d : Document) : bool :=
  match truthy search with
  | Some text => search_filter text d
  | None => true
  end.

(** Number of rows with a given phase, and one turn of the phase loop. *)
Definition phase_count (k : string) (rows : list Document) : nat :=
  length (filter (fun d => phase d = k) rows).

Definition bump (split : gmap string nat) (inv : Document) : gmap string nat :=
  <[phase inv := (default 0%nat (split !! phase inv) + 1)%nat]> split.

(** The amounts of the rows that convert, in order. *)
Definition convertible `{Platform} (rows : list Document) : list Q :=
  omap (fun d => match float (amount d) with
                 | Py.Ret q => Some q
                 | Py.Raise _ => None
                 end) rows.

(** *** Vocabulary for accounts, sessions, history and figures *)

(** The counter and the lock of a row agree. *)
Definition counter_consistent (u : User) : Prop :=
  0 <= failed_attempts u <= 3 /\ (locked u = true <-> failed_attempts u = 3).

(** A run in which every insertion into [users] gets a fresh key. *)
Fixpoint fresh_run `{Platform} (ops : list Op) (db : Tables) : Prop :=
  match ops with
  | [] => True
  | op :: ops' => fresh_key op db /\ fresh_run ops' (step op db)
  end.

(** The columns that say who a user is. *)
Definition same_person (u u' : User) : Prop :=
  user_id u' = user_id u /\ username u' = username u /\
  password_hash u' = password_hash u /\ role u' = role u /\
  active u' = active u.

(** The session's identity is that of a row of [users]. *)
Definition session_known `{Platform} (db : Tables) (session : Session) : Prop :=
  match session with
  | Anonymous => True
  | LoggedIn name r =>
      exists u, u ∈ users db /\ username u = name /\ role u = r
  end.

(** The rows a caller may see in the history. *)
Definition visible (role name : string) (search : option string)
    (d : Document) : bool :=
  (String.eqb role "admin" || String.eqb (created_by d) name)
  && sought search d.

(** The whole history a caller may see, in the order of the pages. *)
Definition history_rows `{Platform} (role name : string)
    (search : option string) (tbl : list Document) : list Document :=
  sort_desc created_at_leb (filter (visible role name search) tbl).

(** Each row is at least as recent as the next. *)
Definition newest_first `{Platform} (l : list Document) : Prop :=
  forall i d e, l !! i = Some d -> l !! S i = Some e ->
                created_at_leb (created_at e) (created_at d) = true.

(** The test of the date-range fetch. *)
Definition in_range `{Platform} (start_date end_date : option string)
    (d : Document) : bool :=
  match truthy start_date with
  | Some s => created_at_leb s (created_at d)
  | None => true
  end &&
  match truthy end_date with
  | Some e => created_at_leb (created_at d) e
  | None => true
  end.

Definition day_of (d : Document) : string := Py.prefix 10 (created_at d).

(** The rows of one group, and the sum of their amounts as the loops of
    the analytics add them. *)
Definition group (key : Document -> string) (k : string)
    (rows : list Document) : list Document :=
  filter (fun d => key d = k) rows.

(** One turn of the loops that add amounts by key. *)
Definition add_to_group `{Platform} (key : Document -> string)
    (acc : Py.result (gmap string Q)) (inv : Document)
    : Py.result (gmap string Q) :=
  m ← acc;
  x ← float (amount inv);
  mret (<[key inv := fadd (default 0%Q (m !! key inv)) x]> m).

Definition group_total `{Platform} (key : Document -> string) (k : string)
    (rows : list Document) : Q :=
  fold_left fadd (convertible (group key k rows)) 0%Q.

(** The invoices have distinct references, the agreements distinct
    numbers. *)
Definition distinct_references (db : Tables) : Prop :=
  NoDup (reference <$> invoices db) /\ NoDup (reference <$> agreements db).

(** Actions that insert a document without the generation page. *)
Definition raw_insert (a : Action) : bool :=
  match a with
  | Elsewhere (OpInsertInvoice _) | Elsewhere (OpInsertAgreement _) => true
  | _ => false
  end.

(** A row as the generation page writes it: its amount is a number and
    its phase one of the two labels. *)
Definition page_made `{Platform} (d : Document) : Prop :=
  Py.returns (float (amount d)) = true /\
  (phase d = "Single Phase" \/ phase d = "Three Phase").

(** A run that creates an account, fails three logins on it, unlocks it
    and logs in. *)
Definition busy_run : list Op :=
  [OpCreateUser 1 "alice" "secret" "staff";
   OpValidateLogin Sample.morning "alice" "guess";
   OpValidateLogin Sample.morning "alice" "guess";
   OpValidateLogin Sample.morning "alice" "guess";
   OpUnlockUser 1;
   OpValidateLogin Sample.morning "alice" "secret";
   OpRecordLogout Sample.morning "alice"].

(** The sum of the counts of a mapping. *)
Definition counted (split : gmap string nat) : nat :=
  map_fold (fun _ n acc => (n + acc)%nat) 0%nat split.

(** Every document names as its author a user of the store. *)
Definition authored (db : Tables) : Prop :=
  Forall (fun d => created_by d ∈ username <$> users db) (invoices db) /\
  Forall (fun d => created_by d ∈ username <$> users db) (agreements db).

(** Actions of other sessions that store a document. *)
Definition foreign_document (a : Action) : bool :=
  match a with
  | Elsewhere (OpInsertInvoice _) | Elsewhere (OpInsertAgreement _)
  | Elsewhere (OpGenerateDocuments _ _ _ _ _ _) => true
  | _ => false
  end.

(** ** Facts about the built-ins *)

Lemma list_ascii_of_string_app (a b : string) :
  list_ascii_of_string (a +:+ b) = list_ascii_of_string a ++ list_ascii_of_string b.
Proof. induction a as [|c a IH]; simpl; [done | by rewrite IH]. Qed.

Lemma string_length_chars (s : string) :
  String.length s = length (list_ascii_of_string s).
Proof. induction s as [|c s IH]; simpl; [done | by rewrite IH]. Qed.

Lemma digit_char_val (d : Z) :
  0 <= d <= 9 -> Py.digit_val (Py.digit_char d) = d.
Proof.
  intros Hd. unfold Py.digit_val, Py.digit_char.
  rewrite nat_ascii_embedding by lia. lia.
Qed.

Lemma digit_char_is_digit (d : Z) :
  0 <= d <= 9 -> Py.is_digit (Py.digit_char d) = true.
Proof.
  intros Hd. unfold Py.is_digit, Py.digit_char.
  rewrite nat_ascii_embedding by lia.
  apply andb_true_intro; split; apply Nat.leb_le; lia.
Qed.

Lemma rev_digits_value (fuel : nat) : forall n,
  0 <= n < 10 ^ Z.of_nat fuel -> le_value (Py.rev_digits fuel n) = n.
Proof.
  induction fuel as [|fuel IH]; intros n Hn.
  - simpl in *. lia.
  - cbn [Py.rev_digits le_value].
    assert (0 <= n mod 10 <= 9) by (pose proof (Z.mod_pos_bound n 10); lia).
    rewrite digit_char_val by done.
    destruct (Z.ltb_spec n 10) as [Hlt|Hge].
    + simpl. rewrite Z.mod_small; lia.
    + rewrite IH.
      * pose proof (Z.div_mod n 10). lia.
      * rewrite Nat2Z.inj_succ, Z.pow_succ_r in Hn by lia.
        split; [apply Z.div_pos; lia | apply Z.div_lt_upper_bound; lia].
Qed.

Lemma rev_digits_all_digits (fuel : nat) : forall n,
  0 <= n -> Forall (fun c => Py.is_digit c = true) (Py.rev_digits fuel n).
Proof.
  induction fuel as [|fuel IH]; intros n Hn; cbn [Py.rev_digits].
  - constructor.
  - constructor.
    + apply digit_char_is_digit. pose proof (Z.mod_pos_bound n 10); lia.
    + destruct (n <? 10); [constructor | apply IH, Z.div_pos; lia].
Qed.

Lemma rev_digits_length_le (k : nat) : forall fuel n,
  (1 <= k)%nat -> 0 <= n < 10 ^ Z.of_nat k ->
  (length (Py.rev_digits fuel n) <= k)%nat.
Proof.
  induction k as [|k IH]; intros fuel n Hk Hn; [lia|].
  destruct fuel as [|fuel]; cbn [Py.rev_digits length]; [lia|].
  destruct (Z.ltb_spec n 10) as [Hlt|Hge]; [simpl; lia|].
  apply le_n_S. rewrite Nat2Z.inj_succ, Z.pow_succ_r in Hn by lia.
  destruct k as [|k]; [simpl in Hn; lia|].
  apply IH; [lia|].
  split; [apply Z.div_pos; lia | apply Z.div_lt_upper_bound; lia].
Qed.

Lemma rev_digits_length_gt (k : nat) : forall fuel n,
  (k < fuel)%nat -> 10 ^ Z.of_nat k <= n ->
  (k < length (Py.rev_digits fuel n))%nat.
Proof.
  induction k as [|k IH]; intros fuel n Hf Hn.
  - destruct fuel; [lia|]. cbn [Py.rev_digits length]. lia.
  - destruct fuel as [|fuel]; [lia|]. cbn [Py.rev_digits length].
    rewrite Nat2Z.inj_succ, Z.pow_succ_r in Hn by lia.
    assert (0 < 10 ^ Z.of_nat k) by (apply Z.pow_pos_nonneg; lia).
    destruct (Z.ltb_spec n 10) as [Hlt|Hge]; [lia|].
    apply -> Nat.succ_lt_mono. apply IH; [lia|].
    apply Z.div_le_lower_bound; lia.
Qed.

Lemma fuel_enough (n : Z) :
  0 <= n -> n < 10 ^ Z.of_nat (S (Z.to_nat (Z.log2 n))).
Proof.
  intros Hn.
  destruct (Z.eq_dec n 0) as [->|Hne]; [done|].
  pose proof (Z.log2_nonneg n) as Hl.
  destruct (Z.log2_spec n) as [_ Hub]; [lia|].
  rewrite Nat2Z.inj_succ, Z2Nat.id by lia.
  eapply Z.lt_le_trans; [exact Hub|].
  apply Z.pow_le_mono_l. lia.
Qed.

Lemma fuel_above (k : nat) (n : Z) :
  10 ^ Z.of_nat k <= n -> (k < S (Z.to_nat (Z.log2 n)))%nat.
Proof.
  intros Hn.
  assert (2 ^ Z.of_nat k <= n).
  { etrans; [|exact Hn]. apply Z.pow_le_mono_l. lia. }
  assert (Z.of_nat k <= Z.log2 n).
  { rewrite <- (Z.log2_pow2 (Z.of_nat k)) by lia. by apply Z.log2_le_mono. }
  lia.
Qed.

Lemma int_digits_all_digits (l : list ascii) :
  Forall (fun c => Py.is_digit c = true) l ->
  forall acc prev, l <> [] \/ prev = true ->
  Py.int_digits acc prev l = Some (fold_left digit_step l acc).
Proof.
  induction 1 as [|c l Hc Hl IH]; intros acc prev Hne; simpl.
  - destruct Hne as [?| ->]; done.
  - rewrite Hc. apply IH. by right.
Qed.

Lemma fold_digit_step_rev (l : list ascii) :
  fold_left digit_step (rev l) 0 = le_value l.
Proof.
  induction l as [|c l IH]; [done|].
  simpl. rewrite fold_left_app, IH. unfold digit_step. simpl. lia.
Qed.

Lemma fold_digit_step_zeros (k : nat) (l : list ascii) :
  fold_left digit_step (repeat "0"%char k ++ l) 0 = fold_left digit_step l 0.
Proof. induction k as [|k IH]; [done | exact IH]. Qed.

Lemma is_digit_not_space (c : ascii) :
  Py.is_digit c = true -> Py.is_space c = false.
Proof.
  unfold Py.is_digit, Py.is_space. intros [H1 H2]%andb_prop.
  apply Nat.leb_le in H1, H2.
  apply orb_false_intro.
  - apply andb_false_intro2, Nat.leb_gt. lia.
  - apply Nat.eqb_neq. lia.
Qed.

Lemma is_digit_not_sign (c : ascii) :
  Py.is_digit c = true -> c <> "-"%char /\ c <> "+"%char.
Proof. intros Hc; split; intros ->; discriminate. Qed.

Lemma lstrip_cons (c : ascii) (l : list ascii) :
  Py.is_space c = false -> Py.lstrip (c :: l) = c :: l.
Proof. intros Hc. simpl. by rewrite Hc. Qed.

Lemma strip_id (c d : ascii) (mid : list ascii) :
  Py.is_space c = false -> Py.is_space d = false ->
  Py.strip (c :: mid ++ [d]) = c :: mid ++ [d].
Proof.
  intros Hc Hd. unfold Py.strip. rewrite lstrip_cons by done.
  change (c :: mid ++ [d]) with ((c :: mid) ++ [d]).
  rewrite rev_unit, lstrip_cons by done.
  change (d :: rev (c :: mid)) with ([d] ++ rev (c :: mid)).
  by rewrite rev_app_distr, rev_involutive.
Qed.

Lemma strip_id_single (c : ascii) :
  Py.is_space c = false -> Py.strip [c] = [c].
Proof. intros Hc. unfold Py.strip. simpl. rewrite Hc. simpl. by rewrite Hc. Qed.

(** The digits of a natural number: a non-empty run of digit characters
    whose value is the number. *)
Lemma nat_digits_spec (n : Z) :
  0 <= n ->
  Forall (fun c => Py.is_digit c = true) (Py.nat_digits n) /\
  Py.nat_digits n <> [] /\
  fold_left digit_step (Py.nat_digits n) 0 = n.
Proof.
  intros Hn. unfold Py.nat_digits. split; [|split].
  - apply Forall_rev, rev_digits_all_digits, Hn.
  - simpl. destruct (rev _); discriminate.
  - rewrite fold_digit_step_rev. apply rev_digits_value.
    split; [done | by apply fuel_enough].
Qed.

Lemma digits_strip (l : list ascii) :
  Forall (fun c => Py.is_digit c = true) l -> Py.strip l = l.
Proof.
  intros Hl. destruct l as [|c l]; [done|].
  destruct (exists_last (l:=c :: l)) as (mid & d & Heq); [done|].
  assert (Hd : Py.is_digit d = true).
  { rewrite Forall_forall in Hl. apply Hl. rewrite Heq. set_solver. }
  inversion Hl as [|? ? Hc Hl']; subst.
  destruct mid as [|c' mid]; simpl in Heq.
  - injection Heq as -> ->. apply strip_id_single, is_digit_not_space, Hd.
  - injection Heq as -> ->.
    apply strip_id; by apply is_digit_not_space.
Qed.

Lemma int_chars_digits (l : list ascii) :
  Forall (fun c => Py.is_digit c = true) l -> l <> [] ->
  Py.int_chars l = Some (fold_left digit_step l 0).
Proof.
  intros Hl Hne. unfold Py.int_chars. rewrite digits_strip by done.
  destruct l as [|c l]; [done|].
  inversion Hl as [|? ? Hc _]; subst.
  destruct (is_digit_not_sign c Hc) as [Hm Hp].
  transitivity (Py.int_digits 0 false (c :: l)).
  - destruct c as [[] [] [] [] [] [] [] []]; try reflexivity; congruence.
  - apply int_digits_all_digits; [done | by left].
Qed.

Lemma int_chars_minus_digits (l : list ascii) :
  Forall (fun c => Py.is_digit c = true) l -> l <> [] ->
  Py.int_chars ("-"%char :: l) = Some (- fold_left digit_step l 0).
Proof.
  intros Hl Hne. unfold Py.int_chars.
  destruct (exists_last Hne) as (mid & d & ->).
  rewrite strip_id.
  - rewrite int_digits_all_digits; [done | done | left; by destruct mid].
  - done.
  - apply is_digit_not_space. rewrite Forall_forall in Hl. apply Hl.
    set_solver.
Qed.

Lemma zfill_chars_digits (w : nat) (l : list ascii) :
  Forall (fun c => Py.is_digit c = true) l ->
  Py.zfill_chars w l = repeat "0"%char (w - length l) ++ l.
Proof.
  intros Hl. unfold Py.zfill_chars. destruct l as [|c l]; [done|].
  inversion Hl as [|? ? Hc _]; subst.
  destruct (is_digit_not_sign c Hc) as [Hm Hp].
  destruct c as [[] [] [] [] [] [] [] []]; try reflexivity; congruence.
Qed.

Lemma zfill_chars_length (w : nat) (l : list ascii) :
  length (Py.zfill_chars w l) = Nat.max w (length l).
Proof.
  unfold Py.zfill_chars.
  assert (Hgen : length (repeat "0"%char (w - length l) ++ l) = Nat.max w (length l)).
  { rewrite length_app, repeat_length. lia. }
  destruct l as [|c l]; [exact Hgen|].
  assert (Hsign : forall s : ascii, length (s :: repeat "0"%char (w - length (c :: l)) ++ l)
                    = Nat.max w (length (c :: l))).
  { intros s. simpl. rewrite length_app, repeat_length. simpl. lia. }
  destruct c as [[] [] [] [] [] [] [] []]; first [exact Hgen | apply Hsign].
Qed.

Lemma zfill_chars_long (w : nat) (l : list ascii) :
  (w <= length l)%nat -> Py.zfill_chars w l = l.
Proof.
  intros Hw. unfold Py.zfill_chars.
  replace (w - length l)%nat with 0%nat by lia. simpl.
  destruct l as [|c l]; [done|].
  destruct c as [[] [] [] [] [] [] [] []]; reflexivity.
Qed.

Lemma zeros_are_digits (k : nat) :
  Forall (fun c => Py.is_digit c = true) (repeat "0"%char k).
Proof. induction k; simpl; by constructor. Qed.

(** [int(str(z).zfill(w)) == z]. *)
Lemma int_zfill_str (w : nat) (z : Z) :
  Py.int_ascii (Py.zfill w (Py.str z)) = Py.Ret z.
Proof.
  unfold Py.int_ascii, Py.zfill, Py.str.
  rewrite !list_ascii_of_string_of_list_ascii. unfold Py.str_chars.
  destruct (Z.ltb_spec z 0) as [Hneg|Hpos].
  - destruct (nat_digits_spec (- z)) as (Hd & Hne & Hv); [lia|].
    cbn [Py.zfill_chars].
    rewrite int_chars_minus_digits.
    + rewrite fold_digit_step_zeros, Hv. f_equal. lia.
    + apply Forall_app; split; [apply zeros_are_digits | done].
    + destruct (Py.nat_digits (- z)); [done|]. by destruct (repeat _ _).
  - destruct (nat_digits_spec z) as (Hd & Hne & Hv); [lia|].
    rewrite zfill_chars_digits by done.
    rewrite int_chars_digits.
    + by rewrite fold_digit_step_zeros, Hv.
    + apply Forall_app; split; [apply zeros_are_digits | done].
    + destruct (Py.nat_digits z); [done|]. by destruct (repeat _ _).
Qed.

Lemma zfill_length (w : nat) (s : string) :
  String.length (Py.zfill w s) = Nat.max w (String.length s).
Proof.
  unfold Py.zfill. rewrite !string_length_chars, list_ascii_of_string_of_list_ascii.
  apply zfill_chars_length.
Qed.

Lemma zfill_long (w : nat) (s : string) :
  (w <= String.length s)%nat -> Py.zfill w s = s.
Proof.
  intros Hw. unfold Py.zfill. rewrite zfill_chars_long.
  - apply string_of_list_ascii_of_string.
  - by rewrite <- string_length_chars.
Qed.

Lemma str_length_small (z : Z) :
  -1000 < z < 10000 -> (String.length (Py.str z) <= 4)%nat.
Proof.
  intros Hz. unfold Py.str. rewrite string_length_chars, list_ascii_of_string_of_list_ascii.
  unfold Py.str_chars, Py.nat_digits.
  destruct (Z.ltb_spec z 0).
  - cbn [length]. rewrite length_rev.
    pose proof (rev_digits_length_le 3 (S (Z.to_nat (Z.log2 (- z)))) (- z)). lia.
  - rewrite length_rev.
    pose proof (rev_digits_length_le 4 (S (Z.to_nat (Z.log2 z))) z). lia.
Qed.

Lemma str_length_large (z : Z) :
  10000 <= z -> (4 < String.length (Py.str z))%nat.
Proof.
  intros Hz. unfold Py.str. rewrite string_length_chars, list_ascii_of_string_of_list_ascii.
  unfold Py.str_chars, Py.nat_digits.
  destruct (Z.ltb_spec z 0); [lia|].
  rewrite length_rev. apply rev_digits_length_gt; [apply fuel_above|]; simpl; lia.
Qed.

(** *** Splitting *)

Lemma split_chars_nonempty (sep : ascii) (l : list ascii) :
  Py.split_chars sep l <> [].
Proof.
  destruct l as [|c l]; simpl; [done|].
  destruct (Ascii.eqb c sep); [done|]. by destruct (Py.split_chars sep l).
Qed.

Lemma split_chars_no_sep (sep : ascii) (l : list ascii) :
  Forall (fun c => Ascii.eqb c sep = false) l -> Py.split_chars sep l = [l].
Proof.
  induction 1 as [|c l Hc _ IH]; simpl; [done|]. by rewrite Hc, IH.
Qed.

Lemma last_cons_nonempty {A : Type} (x : A) (l : list A) :
  l <> [] -> last (x :: l) = last l.
Proof. by destruct l. Qed.

Lemma split_chars_two (sep : ascii) (a seg : list ascii) :
  exists tok tok' toks, Py.split_chars sep (a ++ sep :: seg) = tok :: tok' :: toks.
Proof.
  induction a as [|c a (tok & tok' & toks & IH)]; simpl.
  - rewrite Ascii.eqb_refl.
    destruct (Py.split_chars sep seg) as [|t ts] eqn:E.
    + by apply split_chars_nonempty in E.
    + by exists [], t, ts.
  - rewrite IH. destruct (Ascii.eqb c sep); eauto.
Qed.

Lemma split_chars_last_app (sep : ascii) (a seg : list ascii) :
  last (Py.split_chars sep (a ++ sep :: seg)) = last (Py.split_chars sep seg).
Proof.
  induction a as [|c a IH]; simpl.
  - rewrite Ascii.eqb_refl. apply last_cons_nonempty, split_chars_nonempty.
  - destruct (split_chars_two sep a seg) as (tok & tok' & toks & E).
    rewrite E in IH |- *.
    destruct (Ascii.eqb c sep); exact IH.
Qed.

Lemma split_last_token (a seg : string) :
  Forall (fun c => Ascii.eqb c "/" = false) (list_ascii_of_string seg) ->
  Py.last_item (Py.split "/" (a +:+ "/" +:+ seg)) = Py.Ret seg.
Proof.
  intros Hseg. unfold Py.last_item, Py.split.
  rewrite !list_ascii_of_string_app. simpl.
  rewrite fmap_last, split_chars_last_app, split_chars_no_sep by done.
  simpl. by rewrite string_of_list_ascii_of_string.
Qed.

(** *** Characters of a printed number *)

Lemma nat_digits_numeric (n : Z) :
  0 <= n -> Forall (fun c => numeric_char c = true) (Py.nat_digits n).
Proof.
  intros Hn. destruct (nat_digits_spec n Hn) as (Hd & _).
  eapply Forall_impl; [exact Hd|]. intros c Hc. unfold numeric_char. by rewrite Hc.
Qed.

Lemma str_chars_numeric (z : Z) :
  Forall (fun c => numeric_char c = true) (Py.str_chars z).
Proof.
  unfold Py.str_chars. destruct (Z.ltb_spec z 0).
  - constructor; [done | apply nat_digits_numeric; lia].
  - by apply nat_digits_numeric.
Qed.

Lemma zfill_chars_numeric (w : nat) (l : list ascii) :
  Forall (fun c => numeric_char c = true) l ->
  Forall (fun c => numeric_char c = true) (Py.zfill_chars w l).
Proof.
  intros Hl. unfold Py.zfill_chars.
  assert (Hz : Forall (fun c => numeric_char c = true) (repeat "0"%char (w - length l))).
  { generalize (w - length l)%nat. intros k. induction k; simpl; by constructor. }
  assert (Hgen : Forall (fun c => numeric_char c = true) (repeat "0"%char (w - length l) ++ l)).
  { by apply Forall_app. }
  destruct l as [|c l]; [exact Hgen|].
  inversion Hl as [|? ? Hc Hl']; subst.
  assert (Hsign : Forall (fun c => numeric_char c = true)
                    (c :: repeat "0"%char (w - length (c :: l)) ++ l)).
  { constructor; [done | by apply Forall_app]. }
  destruct c as [[] [] [] [] [] [] [] []]; first [exact Hgen | exact Hsign].
Qed.

Lemma pad_numeric (w : nat) (z : Z) :
  Forall (fun c => numeric_char c = true) (list_ascii_of_string (pad w z)).
Proof.
  unfold pad, Py.zfill, Py.str. rewrite !list_ascii_of_string_of_list_ascii.
  apply zfill_chars_numeric, str_chars_numeric.
Qed.

Lemma str_numeric (z : Z) :
  Forall (fun c => numeric_char c = true) (list_ascii_of_string (Py.str z)).
Proof.
  unfold Py.str. rewrite list_ascii_of_string_of_list_ascii. apply str_chars_numeric.
Qed.

Lemma numeric_not_slash (c : ascii) :
  numeric_char c = true -> Ascii.eqb c "/" = false.
Proof. destruct c as [[] [] [] [] [] [] [] []]; done. Qed.

(** *** LIKE *)

Lemma numeric_plain (c : ascii) : numeric_char c = true -> plain_char c = true.
Proof. destruct c as [[] [] [] [] [] [] [] []]; done. Qed.

Lemma like_chars_plain (c : ascii) (p s : list ascii) :
  plain_char c = true ->
  like_chars (c :: p) (c :: s) = like_chars p s.
Proof.
  intros Hc.
  transitivity (Ascii.eqb c c && like_chars p s); [|by rewrite Ascii.eqb_refl].
  destruct c as [[] [] [] [] [] [] [] []]; try reflexivity; discriminate.
Qed.

Lemma like_chars_literal (lit p s : list ascii) :
  Forall (fun c => plain_char c = true) lit ->
  like_chars (lit ++ p) (lit ++ s) = like_chars p s.
Proof.
  induction 1 as [|c lit Hc _ IH]; [done|].
  simpl app. by rewrite like_chars_plain.
Qed.

Lemma like_chars_percent_here (p s : list ascii) :
  like_chars p s = true -> like_chars ("%"%char :: p) s = true.
Proof. intros Hp. destruct s; simpl; by rewrite Hp. Qed.

Lemma like_chars_percent_skip (p a s : list ascii) :
  like_chars p s = true -> like_chars ("%"%char :: p) (a ++ s) = true.
Proof.
  intros Hp. induction a as [|c a IH].
  - by apply like_chars_percent_here.
  - simpl app. change (like_chars ("%"%char :: p) (c :: a ++ s))
      with (like_chars p (c :: a ++ s) || like_chars ("%"%char :: p) (a ++ s)).
    rewrite IH. apply orb_true_r.
Qed.

Lemma like_chars_percent_end (s : list ascii) : like_chars ["%"%char] s = true.
Proof.
  induction s as [|c s IH]; [done|].
  change (like_chars ["%"%char] (c :: s))
    with (like_chars [] (c :: s) || like_chars ["%"%char] s).
  rewrite IH. apply orb_true_r.
Qed.

Lemma star_to_percent_plain (lit : list ascii) :
  Forall (fun c => plain_char c = true) lit -> map star_to_percent lit = lit.
Proof.
  induction 1 as [|c lit Hc _ IH]; [done|]. simpl. rewrite IH. f_equal.
  destruct c as [[] [] [] [] [] [] [] []]; done.
Qed.

(** A reference that carries [/key/] matches the period pattern of [key]. *)
Lemma like_period (key before after : string) :
  Forall (fun c => plain_char c = true) (list_ascii_of_string key) ->
  like ("%/" +:+ key +:+ "/%") (before +:+ "/" +:+ key +:+ "/" +:+ after) = true.
Proof.
  intros Hkey. unfold like.
  set (K := list_ascii_of_string key) in *.
  assert (Hp : map star_to_percent (list_ascii_of_string ("%/" +:+ key +:+ "/%"))
               = "%"%char :: ("/"%char :: K) ++ ["/"%char; "%"%char]).
  { rewrite !list_ascii_of_string_app, !map_app.
    fold K. by rewrite (star_to_percent_plain K). }
  assert (Hv : list_ascii_of_string (before +:+ "/" +:+ key +:+ "/" +:+ after)
               = list_ascii_of_string before
                 ++ ("/"%char :: K) ++ "/"%char :: list_ascii_of_string after).
  { by rewrite !list_ascii_of_string_app. }
  rewrite Hp, Hv.
  apply like_chars_percent_skip.
  rewrite like_chars_literal by (by constructor).
  rewrite like_chars_plain by done.
  apply like_chars_percent_end.
Qed.

(** ** Counters *)

Section CounterFacts.
Context `{Platform}.

Lemma numeric_ascii (c : ascii) : numeric_char c = true -> Py.is_ascii c = true.
Proof.
  unfold numeric_char, Py.is_ascii, Py.is_digit.
  intros [[H1 H2]%andb_prop| ->%Ascii.eqb_eq]%orb_prop; [|reflexivity].
  apply Nat.leb_le in H2. apply Nat.ltb_lt. lia.
Qed.

(** A printed number is ASCII text, and [int] reads it back. *)
Lemma int_padded (w : nat) (z : Z) : int (Py.zfill w (Py.str z)) = Py.Ret z.
Proof.
  unfold int.
  assert (Hascii : forallb Py.is_ascii
                     (list_ascii_of_string (Py.zfill w (Py.str z))) = true).
  { apply forallb_forall. intros c Hc. apply numeric_ascii.
    pose proof (pad_numeric w z) as Hnum. unfold pad in Hnum.
    rewrite List.Forall_forall in Hnum. by apply Hnum. }
  rewrite Hascii. apply int_zfill_str.
Qed.

Lemma elem_of_period_rows (key : string) (tbl : list Document) (d : Document) :
  d ∈ period_rows key tbl <-> in_period key tbl d.
Proof.
  unfold period_rows, in_period. rewrite list_elem_of_filter.
  rewrite Is_true_true. tauto.
Qed.

Lemma collect_nums_from (rows : list Document) : forall acc,
  fold_left
    (fun nums row =>
       Py.try_except (n ← trailing_number (reference row); mret (nums ++ [n])) nums)
    rows acc = acc ++ omap parsed rows.
Proof.
  induction rows as [|d rows IH]; intros acc; simpl.
  - by rewrite app_nil_r.
  - rewrite IH. unfold parsed.
    destruct (trailing_number (reference d)); simpl; [by rewrite <- app_assoc | done].
Qed.

Lemma collect_nums_omap (rows : list Document) :
  collect_nums rows = omap parsed rows.
Proof. unfold collect_nums. by rewrite collect_nums_from. Qed.

Lemma elem_of_collect_nums (rows : list Document) (m : Z) :
  m ∈ collect_nums rows <->
  exists d, d ∈ rows /\ trailing_number (reference d) = Py.Ret m.
Proof.
  rewrite collect_nums_omap, list_elem_of_omap. unfold parsed.
  split; intros (d & Hd & Hm); exists d; (split; [done|]).
  - destruct (trailing_number (reference d)); congruence.
  - by rewrite Hm.
Qed.

Lemma max_ge_init (l : list Z) : forall z, z <= Py.max z l.
Proof.
  unfold Py.max. induction l as [|x l IH]; intros z; simpl; [lia|].
  etrans; [|apply IH]. lia.
Qed.

Lemma max_upper_bound (l : list Z) : forall z x, x ∈ z :: l -> x <= Py.max z l.
Proof.
  induction l as [|y l IH]; intros z x Hx.
  - apply list_elem_of_singleton in Hx as ->. apply max_ge_init.
  - change (Py.max z (y :: l)) with (Py.max (Z.max z y) l).
    apply elem_of_cons in Hx as [->|Hx].
    + etrans; [|apply max_ge_init]. lia.
    + apply elem_of_cons in Hx as [->|Hx].
      * etrans; [|apply max_ge_init]. lia.
      * apply IH. by right.
Qed.

Lemma max_attained (l : list Z) : forall z, Py.max z l ∈ z :: l.
Proof.
  induction l as [|y l IH]; intros z.
  - by left.
  - change (Py.max z (y :: l)) with (Py.max (Z.max z y) l).
    specialize (IH (Z.max z y)).
    apply elem_of_cons in IH as [Heq|Hin].
    + rewrite Heq. destruct (Z.max_spec z y) as [[_ ->]|[_ ->]]; set_solver.
    + set_solver.
Qed.

Lemma next_num_above (nums : list Z) (x : Z) : x ∈ nums -> x < next_num nums.
Proof.
  destruct nums as [|z l]; intros Hx; [by apply elem_of_nil in Hx|].
  simpl. pose proof (max_upper_bound l z x Hx). lia.
Qed.

Lemma next_num_pred (nums : list Z) : nums <> [] -> next_num nums - 1 ∈ nums.
Proof.
  destruct nums as [|z l]; [done|]. intros _. simpl.
  replace (Py.max z l + 1 - 1) with (Py.max z l) by lia. apply max_attained.
Qed.

Lemma next_num_snoc (nums : list Z) :
  next_num (nums ++ [next_num nums]) = next_num nums + 1.
Proof.
  set (n := next_num nums).
  assert (Hub : forall x, x ∈ nums ++ [n] -> x <= n).
  { intros x [Hx| ->%list_elem_of_singleton]%elem_of_app; [|lia].
    pose proof (next_num_above nums x Hx). lia. }
  assert (Hin : n ∈ nums ++ [n]) by set_solver.
  destruct (nums ++ [n]) as [|z l] eqn:E; [by apply elem_of_nil in Hin|].
  simpl. f_equal.
  apply Z.le_antisymm.
  - apply Hub, max_attained.
  - by apply max_upper_bound.
Qed.

Lemma next_num_successor (key : string) (tbl : list Document) :
  period_successor key tbl (next_num (collect_nums (period_rows key tbl))).
Proof.
  split.
  - intros d m Hd Hm. apply next_num_above, elem_of_collect_nums.
    exists d. split; [by apply elem_of_period_rows | done].
  - destruct (collect_nums (period_rows key tbl)) as [|z l] eqn:E.
    + right. split; [done|]. intros d m Hd Hm.
      assert (Hin : m ∈ collect_nums (period_rows key tbl)).
      { apply elem_of_collect_nums. exists d.
        split; [by apply elem_of_period_rows | done]. }
      rewrite E in Hin. by apply elem_of_nil in Hin.
    + left. pose proof (next_num_pred (z :: l) ltac:(done)) as Hp.
      rewrite <- E in Hp |- *. apply elem_of_collect_nums in Hp as (d & Hd & Hm).
      exists d. split; [by apply elem_of_period_rows | done].
Qed.

Lemma period_successor_unique (key : string) (tbl : list Document) (n n' : Z) :
  period_successor key tbl n -> period_successor key tbl n' -> n = n'.
Proof.
  intros [Hub [(d & Hd & Hm)|[-> Hnone]]] [Hub' [(d' & Hd' & Hm')|[-> Hnone']]].
  - pose proof (Hub _ _ Hd' Hm'). pose proof (Hub' _ _ Hd Hm). lia.
  - by destruct (Hnone' _ _ Hd Hm).
  - by destruct (Hnone _ _ Hd' Hm').
  - done.
Qed.

(** The period keys are made of digits, the minus sign and the slash. *)
Lemma strftime_m_y_plain (now : datetime) :
  Forall (fun c => plain_char c = true) (list_ascii_of_string (strftime_m_y now)).
Proof.
  unfold strftime_m_y. rewrite !list_ascii_of_string_app.
  repeat apply Forall_app_2.
  - eapply Forall_impl; [apply pad_numeric | apply numeric_plain].
  - by repeat constructor.
  - eapply Forall_impl; [apply pad_numeric | apply numeric_plain].
Qed.

Lemma str_plain (z : Z) :
  Forall (fun c => plain_char c = true) (list_ascii_of_string (Py.str z)).
Proof. eapply Forall_impl; [apply str_numeric | apply numeric_plain]. Qed.

Lemma trailing_number_padded (before : string) (w : nat) (n : Z) :
  trailing_number (before +:+ "/" +:+ Py.zfill w (Py.str n)) = Py.Ret n.
Proof.
  unfold trailing_number. rewrite split_last_token.
  - apply int_padded.
  - eapply Forall_impl; [apply pad_numeric | apply numeric_not_slash].
Qed.

Lemma string_app_assoc (a b c : string) : (a +:+ b) +:+ c = a +:+ b +:+ c.
Proof.
  rewrite <- (string_of_list_ascii_of_string ((a +:+ b) +:+ c)).
  rewrite <- (string_of_list_ascii_of_string (a +:+ b +:+ c)).
  f_equal. rewrite !list_ascii_of_string_app. by rewrite app_assoc.
Qed.

(** Allocating again after the allocated reference was stored. *)
Lemma next_after_insert (before key : string) (tbl : list Document) (row : Document) :
  Forall (fun c => plain_char c = true) (list_ascii_of_string key) ->
  let n := next_num (collect_nums (period_rows key tbl)) in
  reference row = before +:+ "/" +:+ key +:+ "/" +:+ Py.zfill 4 (Py.str n) ->
  next_num (collect_nums (period_rows key (insert_row row tbl))) = n + 1.
Proof.
  intros Hkey n Href. unfold insert_row, period_rows.
  rewrite filter_app. rewrite (filter_cons_True _ row []).
  - rewrite filter_nil. fold (period_rows key tbl).
    rewrite !collect_nums_omap, omap_app. simpl. unfold parsed at 2.
    rewrite Href.
    replace (before +:+ "/" +:+ key +:+ "/" +:+ Py.zfill 4 (Py.str n))
      with ((before +:+ "/" +:+ key) +:+ "/" +:+ Py.zfill 4 (Py.str n))
      by (by rewrite !string_app_assoc).
    rewrite trailing_number_padded. simpl.
    rewrite <- collect_nums_omap. apply next_num_snoc.
  - apply Is_true_true. rewrite Href. by apply like_period.
Qed.

(** C3.  Both allocators return their prefix, the key of the current
    period, a slash and [str(n).zfill(4)], where [n] is the successor of
    the largest integer that the last slash-separated token of a row of
    the period parses to (rows whose token does not parse are passed
    over), and 1 when no row of the period has such a token.  With rows
    of the period that end in 1 and 3 and in nothing else that parses,
    the invoice reference ends in [0004]. *)
Theorem next_reference_follows_period_maximum (now : datetime)
    (invoice_rows agreement_rows : list Document) :
  (exists n,
     get_next_invoice_ref now invoice_rows
     = "BE/KNG/PMSG/QTN/" +:+ strftime_m_y now +:+ "/" +:+ Py.zfill 4 (Py.str n) /\
     period_successor (strftime_m_y now) invoice_rows n) /\
  (exists n,
     get_next_agreement_no now agreement_rows
     = "AG/SG/APDCL/" +:+ Py.str (year now) +:+ "/" +:+ Py.zfill 4 (Py.str n) /\
     period_successor (Py.str (year now)) agreement_rows n) /\
  ((exists d, in_period (strftime_m_y now) invoice_rows d /\
              trailing_number (reference d) = Py.Ret 3) ->
   (forall d m, in_period (strftime_m_y now) invoice_rows d ->
                trailing_number (reference d) = Py.Ret m -> m = 1 \/ m = 3) ->
   get_next_invoice_ref now invoice_rows
   = "BE/KNG/PMSG/QTN/" +:+ strftime_m_y now +:+ "/0004").
Proof.
  split; [|split].
  - eexists. split; [reflexivity | apply next_num_successor].
  - eexists. split; [reflexivity | apply next_num_successor].
  - intros (d3 & Hd3 & Hm3) Honly. unfold get_next_invoice_ref.
    pose proof (next_num_successor (strftime_m_y now) invoice_rows) as [Hub Hmax].
    set (n := next_num (collect_nums (period_rows (strftime_m_y now) invoice_rows))) in *.
    pose proof (Hub _ _ Hd3 Hm3) as Hlt.
    assert (n = 4) as ->; [|reflexivity].
    destruct Hmax as [(d & Hd & Hm)|[Hn _]]; [|lia].
    destruct (Honly _ _ Hd Hm); lia.
Qed.

(** C9, with the range of four-character segments stated.  The numeric
    segment of an allocated reference is [str(n).zfill(4)] for the next
    value [n]: four characters when [-1000 < n < 10000], and [str(n)]
    itself, longer than four characters, when [10000 <= n].  The segment
    is the last token of the reference and parses back to [n], so that
    once the reference is stored the next allocation is [n + 1]. *)
Theorem padding_never_truncates (now : datetime) (tbl : list Document) :
  let n_inv := next_num (collect_nums (period_rows (strftime_m_y now) tbl)) in
  let n_agr := next_num (collect_nums (period_rows (Py.str (year now)) tbl)) in
  (get_next_invoice_ref now tbl
   = "BE/KNG/PMSG/QTN/" +:+ strftime_m_y now +:+ "/" +:+ Py.zfill 4 (Py.str n_inv) /\
   get_next_agreement_no now tbl
   = "AG/SG/APDCL/" +:+ Py.str (year now) +:+ "/" +:+ Py.zfill 4 (Py.str n_agr)) /\
  (forall n, -1000 < n < 10000 ->
             String.length (Py.zfill 4 (Py.str n)) = 4%nat) /\
  (forall n, 10000 <= n ->
             Py.zfill 4 (Py.str n) = Py.str n /\
             (4 < String.length (Py.str n))%nat) /\
  (trailing_number (get_next_invoice_ref now tbl) = Py.Ret n_inv /\
   trailing_number (get_next_agreement_no now tbl) = Py.Ret n_agr) /\
  (forall row,
     reference row = get_next_invoice_ref now tbl ->
     get_next_invoice_ref now (insert_invoice row tbl)
     = "BE/KNG/PMSG/QTN/" +:+ strftime_m_y now +:+ "/"
       +:+ Py.zfill 4 (Py.str (n_inv + 1))) /\
  (forall row,
     reference row = get_next_agreement_no now tbl ->
     get_next_agreement_no now (insert_agreement row tbl)
     = "AG/SG/APDCL/" +:+ Py.str (year now) +:+ "/"
       +:+ Py.zfill 4 (Py.str (n_agr + 1))).
Proof.
  intros n_inv n_agr.
  assert (Hinv : get_next_invoice_ref now tbl
                 = ("BE/KNG/PMSG/QTN" +:+ "/" +:+ strftime_m_y now) +:+ "/"
                   +:+ Py.zfill 4 (Py.str n_inv)).
  { by rewrite !string_app_assoc. }
  assert (Hagr : get_next_agreement_no now tbl
                 = ("AG/SG/APDCL" +:+ "/" +:+ Py.str (year now)) +:+ "/"
                   +:+ Py.zfill 4 (Py.str n_agr)).
  { by rewrite !string_app_assoc. }
  split; [done|]. split; [|split; [|split; [|split]]].
  - intros n Hn. rewrite zfill_length. pose proof (str_length_small n Hn). lia.
  - intros n Hn. pose proof (str_length_large n Hn).
    split; [apply zfill_long; lia | done].
  - rewrite Hinv, Hagr. split; apply trailing_number_padded.
  - intros row Href. unfold get_next_invoice_ref, insert_invoice.
    rewrite (next_after_insert "BE/KNG/PMSG/QTN" (strftime_m_y now) tbl row);
      [done | apply strftime_m_y_plain|].
    by rewrite Href.
  - intros row Href. unfold get_next_agreement_no, insert_agreement.
    rewrite (next_after_insert "AG/SG/APDCL" (Py.str (year now)) tbl row);
      [done | apply str_plain|].
    by rewrite Href.
Qed.

End CounterFacts.

(** ** Login and lockout *)

Section AuthFacts.
Context `{Platform}.

Lemma get_user_cons (u : User) (tbl : list User) (name : string) :
  get_user (u :: tbl) name =
  if String.eqb (username u) name then Some u else get_user tbl name.
Proof.
  unfold get_user. rewrite filter_cons.
  destruct (String.eqb (username u) name) eqn:E.
  - rewrite decide_True; [done | by apply Is_true_true].
  - rewrite decide_False; [done | by rewrite Is_true_false].
Qed.

Lemma get_user_elem (tbl : list User) (name : string) (u : User) :
  get_user tbl name = Some u -> u ∈ tbl /\ username u = name.
Proof.
  induction tbl as [|v tbl IH]; [done|].
  rewrite get_user_cons. destruct (String.eqb_spec (username v) name) as [Hn|Hn].
  - intros [= ->]. split; [by left | done].
  - intros [Hin Hu]%IH. split; [by right | done].
Qed.

Lemma get_user_update_where (sel : User -> bool) (change : User -> User)
    (tbl : list User) (name : string) :
  (forall u, username (change u) = username u) ->
  get_user (update_where sel change tbl) name =
  (fun u => if sel u then change u else u) <$> get_user tbl name.
Proof.
  intros Hname. induction tbl as [|v tbl IH]; [done|].
  unfold update_where in *. cbn [map]. rewrite !get_user_cons, IH.
  assert (Hv : username (if sel v then change v else v) = username v).
  { destruct (sel v); [apply Hname | done]. }
  rewrite Hv. by destruct (String.eqb (username v) name).
Qed.

Lemma update_where_lookup {A : Type} (sel : A -> bool) (change : A -> A)
    (rows : list A) (i : nat) :
  update_where sel change rows !! i =
  (fun r => if sel r then change r else r) <$> rows !! i.
Proof. unfold update_where. apply list_lookup_fmap. Qed.

Lemma update_where_Forall2 {A : Type} (R : A -> A -> Prop) (sel : A -> bool)
    (change : A -> A) (rows : list A) :
  (forall r, R r (if sel r then change r else r)) ->
  Forall2 R rows (update_where sel change rows).
Proof. intros HR. induction rows; simpl; by constructor. Qed.

Lemma has_id_true (i : Z) (u : User) : has_id i u = true <-> user_id u = i.
Proof. unfold has_id. apply Z.eqb_eq. Qed.

Lemma has_id_self (u : User) : has_id (user_id u) u = true.
Proof. by apply has_id_true. Qed.

Lemma frame_login_refl (target : Z) (u : User) : frame_login target u u.
Proof. by repeat split. Qed.

Lemma frame_attempts_refl (target : Z) (u : User) : frame_attempts target u u.
Proof. by repeat split. Qed.

Lemma frame_login_update (target : Z) (stamp : string) (u : User) :
  frame_login target u
    (if has_id target u then set_login_success stamp u else u).
Proof.
  destruct (has_id target u) eqn:E; [|apply frame_login_refl].
  apply has_id_true in E. by repeat split.
Qed.

Lemma frame_attempts_update (target attempts : Z) (lock : bool) (u : User) :
  frame_attempts target u
    (if has_id target u then set_attempts attempts lock u else u).
Proof.
  destruct (has_id target u) eqn:E; [|apply frame_attempts_refl].
  apply has_id_true in E. by repeat split.
Qed.

(** The four ways a login ends, read off the row [get_user] returns. *)
Lemma validate_login_unknown utcnow tbl name password :
  get_user tbl name = None ->
  validate_login utcnow tbl name password = (tbl, None).
Proof. intros Hu. unfold validate_login. by rewrite Hu. Qed.

Lemma validate_login_locked utcnow tbl name password user :
  get_user tbl name = Some user -> locked user = true ->
  validate_login utcnow tbl name password = (tbl, None).
Proof. intros Hu Hl. unfold validate_login. by rewrite Hu, Hl. Qed.

Lemma validate_login_inactive utcnow tbl name password user :
  get_user tbl name = Some user -> active user = false ->
  validate_login utcnow tbl name password = (tbl, None).
Proof.
  intros Hu Ha. unfold validate_login. rewrite Hu, Ha.
  by destruct (locked user).
Qed.

Lemma validate_login_success utcnow tbl name password user :
  get_user tbl name = Some user -> locked user = false -> active user = true ->
  verify_password password (password_hash user) = true ->
  validate_login utcnow tbl name password =
  (update_where (has_id (user_id user)) (set_login_success (isoformat utcnow)) tbl,
   Some {| identity_username := username user; identity_role := role user |}).
Proof.
  intros Hu Hl Ha Hp. unfold validate_login. by rewrite Hu, Hl, Ha, Hp.
Qed.

Lemma validate_login_failure utcnow tbl name password user :
  get_user tbl name = Some user -> locked user = false -> active user = true ->
  verify_password password (password_hash user) = false ->
  validate_login utcnow tbl name password =
  (update_where (has_id (user_id user))
     (set_attempts (failed_attempts user + 1) (3 <=? failed_attempts user + 1)) tbl,
   None).
Proof.
  intros Hu Hl Ha Hp. unfold validate_login. by rewrite Hu, Hl, Ha, Hp.
Qed.

End AuthFacts.

Section AuthTheorems.
Context `{Platform}.

Lemma unique_key (tbl : list User) (u v : User) :
  NoDup (user_id <$> tbl) -> u ∈ tbl -> v ∈ tbl ->
  user_id u = user_id v -> u = v.
Proof.
  induction tbl as [|w tbl IH]; intros Hnd Hu Hv Heq.
  - by apply elem_of_nil in Hu.
  - rewrite fmap_cons in Hnd. apply NoDup_cons in Hnd as [Hw Hnd].
    apply elem_of_cons in Hu as [->|Hu]; apply elem_of_cons in Hv as [->|Hv].
    + done.
    + destruct Hw. rewrite Heq. by apply list_elem_of_fmap_2.
    + destruct Hw. rewrite <- Heq. by apply list_elem_of_fmap_2.
    + by apply IH.
Qed.

(** C1, with its precondition.  For a user that exists, is active and is
    not locked, a call of [validate_login] with a wrong password returns
    nothing, adds one to [failed_attempts] and sets [locked] exactly
    when the new count is at least 3.  For a locked user every call
    returns nothing, whatever the password, and leaves the table as it
    was, so the same holds of every later call. *)
Theorem failed_login_counts_and_locks (utcnow : datetime) (tbl : list User)
    (name : string) (user : User) :
  get_user tbl name = Some user ->
  (locked user = false -> active user = true ->
   forall password, verify_password password (password_hash user) = false ->
   exists tbl' user',
     validate_login utcnow tbl name password = (tbl', None) /\
     get_user tbl' name = Some user' /\
     failed_attempts user' = failed_attempts user + 1 /\
     locked user' = (3 <=? failed_attempts user + 1)) /\
  (locked user = true ->
   forall password, validate_login utcnow tbl name password = (tbl, None)).
Proof.
  intros Hu. split.
  - intros Hl Ha password Hp. eexists _, _. split.
    + by apply validate_login_failure.
    + rewrite get_user_update_where, Hu by done. cbn [fmap option_fmap option_map].
      rewrite has_id_self. by repeat split.
  - intros Hl password. by eapply validate_login_locked.
Qed.

Lemma three_failed_logins_lock (t1 t2 t3 : datetime) (tbl : list User)
    (name p1 p2 p3 : string) (user : User) :
  get_user tbl name = Some user ->
  locked user = false -> active user = true -> 0 <= failed_attempts user ->
  verify_password p1 (password_hash user) = false ->
  verify_password p2 (password_hash user) = false ->
  verify_password p3 (password_hash user) = false ->
  let tbl1 := fst (validate_login t1 tbl name p1) in
  let tbl2 := fst (validate_login t2 tbl1 name p2) in
  let tbl3 := fst (validate_login t3 tbl2 name p3) in
  exists user', get_user tbl3 name = Some user' /\ locked user' = true.
Proof.
  intros Hu Hl Ha H0 Hp1 Hp2 Hp3.
  assert (Hstep : forall t tbl0 u0 p,
    get_user tbl0 name = Some u0 -> active u0 = true ->
    password_hash u0 = password_hash user ->
    verify_password p (password_hash user) = false ->
    exists u1, get_user (fst (validate_login t tbl0 name p)) name = Some u1 /\
               active u1 = true /\ password_hash u1 = password_hash user /\
               (locked u0 = true -> locked u1 = true) /\
               (locked u0 = false ->
                failed_attempts u1 = failed_attempts u0 + 1 /\
                locked u1 = (3 <=? failed_attempts u0 + 1))).
  { intros t tbl0 u0 p Hu0 Ha0 Hh0 Hp0. destruct (locked u0) eqn:El.
    - rewrite (validate_login_locked t tbl0 name p u0) by done.
      exists u0. by repeat split.
    - rewrite (validate_login_failure t tbl0 name p u0) by (by rewrite ?Hh0).
      cbn [fst]. rewrite get_user_update_where, Hu0 by done.
      cbn [fmap option_fmap option_map]. rewrite has_id_self.
      eexists. by repeat split. }
  intros tbl1 tbl2 tbl3.
  destruct (Hstep t1 tbl user p1) as (u1 & Hu1 & Ha1 & Hh1 & _ & Hc1); try done.
  destruct (Hc1 Hl) as [Hf1 Hl1].
  destruct (Hstep t2 tbl1 u1 p2) as (u2 & Hu2 & Ha2 & Hh2 & Hk2 & Hc2); try done.
  destruct (Hstep t3 tbl2 u2 p3) as (u3 & Hu3 & Ha3 & Hh3 & Hk3 & Hc3); try done.
  exists u3. split; [done|].
  destruct (locked u1) eqn:E1; [by apply Hk3, Hk2|].
  destruct (Hc2 eq_refl) as [Hf2 Hl2].
  destruct (locked u2) eqn:E2; [by apply Hk3|].
  destruct (Hc3 eq_refl) as [Hf3 Hl3].
  rewrite Hl3. apply Z.leb_le. lia.
Qed.

Lemma login_keeps_lock (utcnow : datetime) (tbl : list User)
    (name password : string) (i : nat) (u : User) :
  NoDup (user_id <$> tbl) -> tbl !! i = Some u -> locked u = true ->
  exists u', fst (validate_login utcnow tbl name password) !! i = Some u' /\
             user_id u' = user_id u /\ username u' = username u /\
             locked u' = true.
Proof.
  intros Hnd Hi Hl. unfold validate_login.
  destruct (get_user tbl name) as [user|] eqn:Hu; [|by exists u].
  destruct (locked user) eqn:Elock; [by exists u|].
  destruct (negb (active user)); [by exists u|].
  destruct (verify_password password (password_hash user)); cbn [fst];
    rewrite update_where_lookup, Hi; cbn [fmap option_fmap option_map].
  - destruct (has_id (user_id user) u); eexists; by repeat split.
  - destruct (has_id (user_id user) u) eqn:E; [|by exists u].
    apply has_id_true in E. apply get_user_elem in Hu as [Huser _].
    assert (u = user) as ->.
    { eapply unique_key; [done | by eapply list_elem_of_lookup_2 | done | done]. }
    congruence.
Qed.

Lemma update_where_keys (sel : User -> bool) (change : User -> User)
    (tbl : list User) :
  (forall u, user_id (change u) = user_id u) ->
  user_id <$> update_where sel change tbl = user_id <$> tbl.
Proof.
  intros Hid. unfold update_where. induction tbl as [|u tbl IH]; [done|].
  cbn [map fmap list_fmap] in *. rewrite IH. f_equal.
  destruct (sel u); [apply Hid | done].
Qed.

Lemma step_keeps_lock (op : Op) (db : Tables) (i : nat) (u : User) :
  is_unlock op = false -> NoDup (user_id <$> users db) ->
  users db !! i = Some u -> locked u = true ->
  exists u', users (step op db) !! i = Some u' /\
             user_id u' = user_id u /\ username u' = username u /\
             locked u' = true.
Proof.
  intros Hop Hnd Hi Hl.
  destruct op; try discriminate Hop; cbn [step with_users users].
  - exists u. split; [|done]. unfold create_user, insert_row.
    by apply lookup_app_l_Some.
  - unfold ensure_default_admin. destruct (users db); [done | by exists u].
  - by apply login_keeps_lock.
  - unfold record_logout. rewrite update_where_lookup, Hi.
    cbn [fmap option_fmap option_map].
    destruct (String.eqb (username u) name); eexists; by repeat split.
  - by exists u.
  - by exists u.
  - by exists u.
  - exists u. split; [|done]. unfold generate_documents_page.
    destruct (negb clicked); [done|].
    by destruct (String.eqb (form_customer_name form) ""
                 || String.eqb (form_phone form) "").
Qed.

Lemma step_keeps_keys (op : Op) (db : Tables) :
  NoDup (user_id <$> users db) -> fresh_key op db ->
  NoDup (user_id <$> users (step op db)).
Proof.
  intros Hnd Hfresh. destruct op; cbn [step with_users users]; try done.
  - unfold create_user, insert_row. rewrite fmap_app. cbn [fmap list_fmap].
    apply NoDup_app. split; [done|]. split; [|apply NoDup_singleton].
    intros x Hx ->%list_elem_of_singleton. by apply Hfresh.
  - unfold ensure_default_admin. destruct (users db); [|done].
    apply NoDup_singleton.
  - unfold validate_login. destruct (get_user (users db) name) as [user|]; [|done].
    destruct (locked user); [done|]. destruct (negb (active user)); [done|].
    destruct (verify_password password (password_hash user)); cbn [fst];
      by rewrite update_where_keys.
  - unfold record_logout. by rewrite update_where_keys.
  - unfold unlock_user. by rewrite update_where_keys.
  - unfold generate_documents_page. destruct (negb clicked); [done|].
    by destruct (String.eqb (form_customer_name form) ""
                 || String.eqb (form_phone form) "").
Qed.

(** A lock that is set survives every run without unlock. *)
Lemma run_keeps_lock (ops : list Op) : forall (db : Tables) (i : nat) (u : User),
  NoDup (user_id <$> users db) -> unlock_free ops db ->
  users db !! i = Some u -> locked u = true ->
  exists u', users (run ops db) !! i = Some u' /\
             user_id u' = user_id u /\ username u' = username u /\
             locked u' = true.
Proof.
  induction ops as [|op ops IH]; intros db i u Hnd Hrun Hi Hl.
  - by exists u.
  - destruct Hrun as (Hop & Hfresh & Hrun).
    destruct (step_keeps_lock op db i u) as (u1 & Hi1 & Hid1 & Hn1 & Hl1);
      try done.
    destruct (IH (step op db) i u1) as (u' & Hi' & Hid' & Hn' & Hl');
      [by apply step_keeps_keys | done | done | done |].
    exists u'. cbn [run fold_left]. repeat split; [done | congruence..| done].
Qed.

(** C2, with its preconditions.  (1) In a [users] table whose keys are
    distinct, no operation of the application other than [unlock_user]
    turns a lock that is set into one that is clear.  (2) [unlock_user]
    sets [failed_attempts] to 0 and [locked] to false on the row it
    names.  (3) After the unlock of an active user, [validate_login]
    with the correct password returns the user's identity and leaves
    [failed_attempts] at 0 and the lock clear. *)
Theorem lock_cleared_only_by_unlock :
  (forall (op : Op) (db : Tables) (i : nat) (u : User),
     is_unlock op = false -> NoDup (user_id <$> users db) ->
     users db !! i = Some u -> locked u = true ->
     exists u', users (step op db) !! i = Some u' /\
                user_id u' = user_id u /\ username u' = username u /\
                locked u' = true) /\
  (forall (uid : Z) (tbl : list User) (i : nat) (u : User),
     tbl !! i = Some u -> user_id u = uid ->
     exists u', unlock_user uid tbl !! i = Some u' /\
                failed_attempts u' = 0 /\ locked u' = false) /\
  (forall (utcnow : datetime) (tbl : list User) (name password : string)
          (user : User),
     get_user tbl name = Some user -> active user = true ->
     verify_password password (password_hash user) = true ->
     exists tbl' user',
       validate_login utcnow (unlock_user (user_id user) tbl) name password
       = (tbl', Some {| identity_username := username user;
                        identity_role := role user |}) /\
       get_user tbl' name = Some user' /\
       failed_attempts user' = 0 /\ locked user' = false).
Proof.
  split; [|split].
  - intros op db i u. apply step_keeps_lock.
  - intros uid tbl i u Hi Hid. unfold unlock_user.
    rewrite update_where_lookup, Hi. cbn [fmap option_fmap option_map].
    rewrite (proj2 (has_id_true uid u) Hid). by eexists.
  - intros utcnow tbl name password user Hu Ha Hp.
    assert (Hu' : get_user (unlock_user (user_id user) tbl) name
                  = Some (set_attempts 0 false user)).
    { unfold unlock_user. rewrite get_user_update_where, Hu by done.
      cbn [fmap option_fmap option_map]. by rewrite has_id_self. }
    eexists _, _. split.
    + by rewrite (validate_login_success _ _ _ _ _ Hu').
    + rewrite get_user_update_where, Hu' by done.
      cbn [fmap option_fmap option_map].
      rewrite has_id_self. by repeat split.
Qed.

(** C10.  A login that succeeds changes nothing but [failed_attempts] and
    [last_login], and only on the rows that carry the key of the user
    that logged in; a login that fails, and [unlock_user], change
    nothing but [failed_attempts] and [locked], again on the rows of the
    one key; a login under an unknown name changes nothing. *)
Theorem login_and_unlock_frame (utcnow : datetime) (tbl : list User)
    (name password : string) (uid : Z) :
  (forall user tbl' identity,
     get_user tbl name = Some user ->
     validate_login utcnow tbl name password = (tbl', Some identity) ->
     Forall2 (frame_login (user_id user)) tbl tbl') /\
  (forall user tbl',
     get_user tbl name = Some user ->
     validate_login utcnow tbl name password = (tbl', None) ->
     Forall2 (frame_attempts (user_id user)) tbl tbl') /\
  (get_user tbl name = None ->
   validate_login utcnow tbl name password = (tbl, None)) /\
  Forall2 (frame_attempts uid) tbl (unlock_user uid tbl).
Proof.
  split; [|split; [|split]].
  - intros user tbl' identity Hu. unfold validate_login. rewrite Hu.
    destruct (locked user); [done|]. destruct (negb (active user)); [done|].
    destruct (verify_password password (password_hash user)); [|done].
    intros [= <- _]. apply update_where_Forall2. intros r. apply frame_login_update.
  - intros user tbl' Hu. unfold validate_login. rewrite Hu.
    assert (Hrefl : Forall2 (frame_attempts (user_id user)) tbl tbl).
    { apply Forall_Forall2_diag, Forall_forall. intros; apply frame_attempts_refl. }
    destruct (locked user); [by intros [= <-]|].
    destruct (negb (active user)); [by intros [= <-]|].
    destruct (verify_password password (password_hash user)); [done|].
    intros [= <-]. apply update_where_Forall2. intros r. apply frame_attempts_update.
  - apply validate_login_unknown.
  - apply update_where_Forall2. intros r. apply frame_attempts_update.
Qed.

End AuthTheorems.

(** ** History, phase split and document generation *)

Lemma insert_desc_perm (leb : string -> string -> bool) (d : Document)
    (l : list Document) : insert_desc leb d l ≡ₚ d :: l.
Proof.
  induction l as [|e l IH]; simpl; [done|].
  destruct (leb (created_at e) (created_at d)); [done|].
  rewrite IH. apply Permutation_swap.
Qed.

Lemma sort_desc_perm (leb : string -> string -> bool) (l : list Document) :
  sort_desc leb l ≡ₚ l.
Proof.
  induction l as [|d l IH]; simpl; [done|].
  unfold sort_desc in *. simpl. by rewrite insert_desc_perm, IH.
Qed.

Lemma elem_of_slice (first last : Z) (l : list Document) (d : Document) :
  d ∈ slice first last l -> d ∈ l.
Proof.
  unfold slice. intros Hd.
  eapply elem_of_sublist; [exact Hd|].
  etrans; [apply sublist_take | apply sublist_drop].
Qed.

(** Every row of a response is a row of the table that passes every
    filter of the query. *)
Lemma execute_sound (leb : string -> string -> bool) (q : Query)
    (tbl : list Document) (d : Document) :
  d ∈ data (execute leb q tbl) ->
  d ∈ tbl /\ Forall (fun f => f d = true) (q_filters q).
Proof.
  unfold execute. cbn [data]. intros Hd.
  assert (Hhit : d ∈ filter (matches q) tbl).
  { destruct (q_range q) as [[first last]|].
    - apply elem_of_slice in Hd.
      destruct (q_order_desc q); [by rewrite sort_desc_perm in Hd | done].
    - destruct (q_order_desc q); [by rewrite sort_desc_perm in Hd | done]. }
  apply list_elem_of_filter in Hhit as [Hm Hin]. split; [done|].
  apply Is_true_true in Hm. unfold matches in Hm.
  rewrite forallb_forall in Hm. apply Forall_forall. intros f Hf.
  apply Hm. by apply list_elem_of_In.
Qed.

Section HistoryFacts.
Context `{Platform}.

Lemma history_query_scoped (role name : string) (search : option string)
    (limit offset : Z) (d : Document) :
  role <> "admin" ->
  Forall (fun f => f d = true)
         (q_filters (history_query role name search limit offset)) ->
  created_by d = name.
Proof.
  intros Hrole. unfold history_query.
  destruct (String.eqb_spec role "admin") as [|_]; [done|]. cbn [negb].
  destruct (truthy search); cbn; intros Hall;
    apply Forall_cons in Hall as [Hc _]; by apply String.eqb_eq.
Qed.

Lemma history_query_admin (name other : string) (search : option string)
    (limit offset : Z) :
  history_query "admin" name search limit offset
  = history_query "admin" other search limit offset.
Proof. reflexivity. Qed.

Lemma history_admin_matches (name : string) (search : option string)
    (limit offset : Z) (d : Document) :
  matches (history_query "admin" name search limit offset) d = sought search d.
Proof.
  unfold history_query, sought, matches. cbn.
  destruct (truthy search); cbn; [apply andb_true_r | done].
Qed.

(** C4.  When the role is not [admin], every row of the page that
    [fetch_invoices] or [fetch_agreements] returns was created by the
    caller, whatever the search text.  For the role [admin] the result
    does not depend on the caller's name, and the count is that of all
    rows the search selects, whoever created them. *)
Theorem history_is_role_scoped (tbl : list Document) (role name : string)
    (search : option string) (limit offset : Z) :
  (role <> "admin" ->
   (forall d, d ∈ page_data (fetch_invoices tbl role name search limit offset) ->
              created_by d = name) /\
   (forall d, d ∈ page_data (fetch_agreements tbl role name search limit offset) ->
              created_by d = name)) /\
  (forall other,
     fetch_invoices tbl "admin" name search limit offset
     = fetch_invoices tbl "admin" other search limit offset /\
     fetch_agreements tbl "admin" name search limit offset
     = fetch_agreements tbl "admin" other search limit offset) /\
  page_count (fetch_invoices tbl "admin" name search limit offset)
  = length (filter (sought search) tbl) /\
  page_count (fetch_agreements tbl "admin" name search limit offset)
  = length (filter (sought search) tbl).
Proof.
  split; [|split; [|split]].
  - intros Hrole. split; intros d Hd; cbn [fetch_invoices fetch_agreements page_data] in Hd;
      apply execute_sound in Hd as [_ Hall]; by eapply history_query_scoped.
  - intros other. split; reflexivity.
  - cbn [fetch_invoices page_count execute count]. f_equal.
    apply list_filter_iff. intros d. by rewrite history_admin_matches.
  - cbn [fetch_agreements page_count execute count]. f_equal.
    apply list_filter_iff. intros d. by rewrite history_admin_matches.
Qed.

(** *** Phase split *)

Lemma phase_fold (rows : list Document) : forall (m : gmap string nat) (k : string),
  fold_left bump rows m !! k =
  if decide (phase_count k rows = 0%nat) then m !! k
  else Some (default 0%nat (m !! k) + phase_count k rows)%nat.
Proof.
  induction rows as [|d rows IH]; intros m k; [done|].
  cbn [fold_left]. rewrite IH. unfold phase_count, bump.
  rewrite filter_cons. destruct (decide (phase d = k)) as [->|Hne].
  - rewrite lookup_insert_eq. cbn [length default].
    destruct (decide (length (filter (fun d0 => phase d0 = k) rows) = 0%nat)) as [->|Hn].
    + rewrite decide_False by lia. f_equal; lia.
    + rewrite decide_False by lia. unfold id. f_equal; lia.
  - rewrite lookup_insert_ne by done. done.
Qed.

(** C7.  The mapping [get_phase_split] returns has the keys
    [Single Phase] and [Three Phase], each with the number of fetched
    invoices of that phase, 0 included. *)
Theorem phase_split_reports_both_keys (tbl : list Document)
    (start_date end_date : option string) :
  let rows := fetch_invoices_in_range tbl start_date end_date in
  get_phase_split tbl start_date end_date !! "Single Phase"
  = Some (phase_count "Single Phase" rows) /\
  get_phase_split tbl start_date end_date !! "Three Phase"
  = Some (phase_count "Three Phase" rows).
Proof.
  intros rows. unfold get_phase_split. fold rows.
  change (fun (split : gmap string nat) inv =>
            <[phase inv := (default 0%nat (split !! phase inv) + 1)%nat]> split)
    with bump.
  split; rewrite phase_fold; case_decide as Hc.
  - rewrite Hc. by rewrite lookup_insert_eq.
  - by rewrite lookup_insert_eq.
  - rewrite Hc. by rewrite lookup_insert_ne, lookup_insert_eq.
  - by rewrite lookup_insert_ne, lookup_insert_eq.
Qed.

(** *** Document generation *)

(** C8.  Capacity 5 gives the phase [Three Phase] and the amount
    5 * 70000 = 350000, capacity 3 gives [Single Phase] and 210000; and
    one run of the page with a customer name and a phone stores one
    invoice and one agreement that carry the same phase and the same
    amount, those derived from the capacity of the form. *)
Theorem generation_derives_phase_and_amount :
  phase_of 5 = "Three Phase" /\ total_amount_of 5 = 5 * 70000 /\
  total_amount_of 5 = 350000 /\
  phase_of 3 = "Single Phase" /\ total_amount_of 3 = 210000 /\
  forall (session_username : string) (t_invoice t_agreement now : datetime)
         (form : GenerateForm) (db : Tables),
    form_customer_name form <> "" -> form_phone form <> "" ->
    exists invoice agreement,
      generate_documents_page session_username true t_invoice t_agreement
                              now form db
      = ({| users := users db;
            invoices := invoices db ++ [invoice];
            agreements := agreements db ++ [agreement];
            activity_logs :=
              activity_logs db ++
              [{| log_username := session_username;
                  action := "Generated " +:+ reference invoice +:+ " & "
                            +:+ reference agreement;
                  category := "generate" |}] |},
         Saved (reference invoice) (reference agreement)) /\
      reference invoice = get_next_invoice_ref t_invoice (invoices db) /\
      reference agreement = get_next_agreement_no t_agreement (agreements db) /\
      phase invoice = phase_of (form_capacity form) /\
      phase agreement = phase_of (form_capacity form) /\
      amount invoice = JNum (inject_Z (total_amount_of (form_capacity form))) /\
      amount agreement = JNum (inject_Z (total_amount_of (form_capacity form))).
Proof.
  repeat (split; [reflexivity|]).
  intros session_username t_invoice t_agreement now form db Hname Hphone.
  unfold generate_documents_page. cbn [negb].
  destruct (String.eqb_spec (form_customer_name form) "") as [|_]; [done|].
  destruct (String.eqb_spec (form_phone form) "") as [|_]; [done|].
  cbn [orb].
  exists (document_row (get_next_invoice_ref t_invoice (invoices db))
                       form session_username now),
         (document_row (get_next_agreement_no t_agreement (agreements db))
                       form session_username now).
  by repeat split.
Qed.

End HistoryFacts.

(** ** Revenue figures *)

(** *** Loops that stop at the first exception *)

Lemma fold_raise_absorbs {S A : Type} (step : Py.result S -> A -> Py.result S)
    (rows : list A) (e : Py.exn) :
  (forall e' x, step (Py.Raise e') x = Py.Raise e') ->
  fold_left step rows (Py.Raise e) = Py.Raise e.
Proof. intros Habs. induction rows as [|x rows IH]; simpl; [done | by rewrite Habs]. Qed.

Lemma fold_raises {S A : Type} (step : Py.result S -> A -> Py.result S)
    (rows : list A) (bad : A) :
  (forall e x, step (Py.Raise e) x = Py.Raise e) ->
  (forall acc, exists e, step acc bad = Py.Raise e) ->
  bad ∈ rows ->
  forall init, exists e, fold_left step rows init = Py.Raise e.
Proof.
  intros Habs Hbad. induction rows as [|x rows IH]; intros Hin init.
  - by apply elem_of_nil in Hin.
  - apply elem_of_cons in Hin as [<-|Hin]; simpl.
    + destruct (Hbad init) as [e ->]. exists e. by apply fold_raise_absorbs.
    + by apply IH.
Qed.

Lemma fold_returns {S A : Type} (step : Py.result S -> A -> Py.result S)
    (rows : list A) :
  (forall s x, x ∈ rows -> exists s', step (Py.Ret s) x = Py.Ret s') ->
  forall init, exists s, fold_left step rows (Py.Ret init) = Py.Ret s.
Proof.
  induction rows as [|x rows IH]; intros Hok init; simpl; [by eexists|].
  destruct (Hok init x) as [s' ->]; [by left|].
  apply IH. intros s y Hy. apply Hok. by right.
Qed.

Section AnalyticsFacts.
Context `{Platform}.

Lemma totals_skip (rows : list Document) : forall total,
  fold_left
    (fun total i => Py.try_except (x ← float (amount i); mret (fadd total x)) total)
    rows total
  = fold_left fadd (convertible rows) total.
Proof.
  induction rows as [|d rows IH]; intros total; [done|].
  cbn [fold_left]. rewrite IH. unfold convertible. cbn [omap list_omap].
  by destruct (float (amount d)).
Qed.

Lemma sum_amounts_returns (rows : list Document) :
  Forall (fun d => Py.returns (float (amount d)) = true) rows ->
  exists total, sum_amounts rows = Py.Ret total.
Proof.
  intros Hall. unfold sum_amounts.
  edestruct (fold_returns
               (fun acc i => xs ← acc; x ← float (amount i); mret (xs ++ [x]))
               rows) as [xs ->]; [|by eexists].
  intros s d Hd. rewrite Forall_forall in Hall. specialize (Hall d Hd).
  cbn. destruct (float (amount d)); [by eexists | done].
Qed.

(** When the amounts are collected, every one of them converts and the
    list is that of the amounts in the order of the rows. *)
Lemma amounts_from (rows : list Document) : forall init xs,
  fold_left
    (fun acc i => xs ← acc; x ← float (amount i); mret (xs ++ [x]))
    rows (Py.Ret init) = Py.Ret xs ->
  xs = init ++ convertible rows /\
  Forall (fun d => Py.returns (float (amount d)) = true) rows.
Proof.
  induction rows as [|d rows IH]; intros init xs Hxs.
  - cbn in Hxs. injection Hxs as <-. by rewrite app_nil_r.
  - cbn [fold_left] in Hxs. unfold convertible. cbn [omap list_omap].
    cbn [mbind result_bind Py.bind] in Hxs.
    destruct (float (amount d)) as [x|e] eqn:Hd.
    + cbn in Hxs. apply IH in Hxs as [-> Hall].
      split; [by rewrite <- app_assoc | constructor; [by rewrite Hd | done]].
    + cbn in Hxs.
      rewrite fold_raise_absorbs in Hxs by done. discriminate Hxs.
Qed.

Lemma sum_amounts_total (rows : list Document) (total : Q) :
  sum_amounts rows = Py.Ret total ->
  total = builtin_sum (convertible rows) /\
  Forall (fun d => Py.returns (float (amount d)) = true) rows.
Proof.
  unfold sum_amounts. intros Hsum.
  destruct (fold_left _ rows (Py.Ret [])) as [xs|e] eqn:Hxs; [|discriminate Hsum].
  apply amounts_from in Hxs as [-> Hall]. cbn in Hsum. by injection Hsum as <-.
Qed.

(** C5, as the code has it.  When one fetched invoice has an amount that
    [float] does not convert, [get_revenue_kpis],
    [get_daily_revenue_series] and [get_staff_performance] raise instead
    of returning; [calculate_invoice_totals] and
    [calculate_agreement_totals] do pass over such rows and return the
    sum of the amounts that convert. *)
Theorem unconvertible_amount_aborts_analytics (tbl : list Document)
    (start_date end_date : option string) (bad : Document) (e : Py.exn) :
  bad ∈ fetch_invoices_in_range tbl start_date end_date ->
  float (amount bad) = Py.Raise e ->
  Py.returns (get_revenue_kpis tbl start_date end_date) = false /\
  Py.returns (get_daily_revenue_series tbl start_date end_date) = false /\
  Py.returns (get_staff_performance tbl start_date end_date) = false /\
  total_amount (calculate_invoice_totals
                  (fetch_invoices_in_range tbl start_date end_date))
  = fold_left fadd
      (convertible (fetch_invoices_in_range tbl start_date end_date)) 0%Q /\
  total_amount (calculate_agreement_totals
                  (fetch_invoices_in_range tbl start_date end_date))
  = fold_left fadd
      (convertible (fetch_invoices_in_range tbl start_date end_date)) 0%Q.
Proof.
  intros Hin Hbad.
  set (rows := fetch_invoices_in_range tbl start_date end_date) in *.
  assert (Hstop : forall (S : Type) (step : Py.result S -> Document -> Py.result S) init,
    (forall e x, step (Py.Raise e) x = Py.Raise e) ->
    (forall acc, exists e, step acc bad = Py.Raise e) ->
    exists e, fold_left step rows init = Py.Raise e).
  { intros S step init Habs Hstep. by apply (fold_raises step rows bad). }
  repeat split.
  - unfold get_revenue_kpis. fold rows. unfold sum_amounts.
    edestruct Hstop as [e' ->]; [| |done]; [done|].
    intros [s|e0]; cbn; rewrite ?Hbad; by eexists.
  - unfold get_daily_revenue_series. fold rows.
    edestruct Hstop as [e' ->]; [| |done]; [done|].
    intros [s|e0]; cbn; rewrite ?Hbad; by eexists.
  - unfold get_staff_performance. fold rows.
    edestruct Hstop as [e' ->]; [| |done]; [done|].
    intros [s|e0]; cbn; rewrite ?Hbad; by eexists.
  - unfold calculate_invoice_totals. cbn [total_amount]. apply totals_skip.
  - unfold calculate_agreement_totals. cbn [total_amount]. apply totals_skip.
Qed.


End AnalyticsFacts.

(** ** Further properties of accounts and sessions *)

Section AccountFacts.
Context `{Platform}.

Lemma get_user_app_fresh (tbl : list User) (u : User) (name : string) :
  get_user tbl name = None -> username u = name ->
  get_user (tbl ++ [u]) name = Some u.
Proof.
  intros Hnone Hname. induction tbl as [|v tbl IH]; simpl.
  - rewrite get_user_cons, Hname, String.eqb_refl. done.
  - rewrite get_user_cons in Hnone |- *.
    destruct (String.eqb (username v) name); [done | by apply IH].
Qed.

Lemma verify_password_own (password : string) :
  verify_password password (hash_password password) = true.
Proof. apply String.eqb_refl. Qed.

Lemma get_user_created (new_id : Z) (name password role : string)
    (tbl : list User) :
  get_user tbl name = None ->
  get_user (create_user new_id name password role tbl) name
  = Some {| user_id := new_id; username := name;
            password_hash := hash_password password; role := role;
            active := true; failed_attempts := 0; locked := false;
            last_login := None; last_logout := None |}.
Proof. intros Hfresh. unfold create_user, insert_row. by apply get_user_app_fresh. Qed.

(** X1.  A user created under a name not yet in use can log in with the
    password given at creation and gets back that name and the role
    given at creation; a password with another digest is refused. *)
Theorem created_user_can_log_in (utcnow : datetime) (new_id : Z)
    (name password role : string) (tbl : list User) :
  get_user tbl name = None ->
  snd (validate_login utcnow (create_user new_id name password role tbl)
                      name password)
  = Some {| identity_username := name; identity_role := role |} /\
  (forall other,
     hash_password other <> hash_password password ->
     snd (validate_login utcnow (create_user new_id name password role tbl)
                         name other) = None).
Proof.
  intros Hfresh.
  pose proof (get_user_created new_id name password role tbl Hfresh) as Hu.
  split.
  - rewrite (validate_login_success _ _ _ _ _ Hu); try done.
    apply verify_password_own.
  - intros other Hother.
    rewrite (validate_login_failure _ _ _ _ _ Hu); try done.
    unfold verify_password. by apply String.eqb_neq.
Qed.

(** X2.  [ensure_default_admin] acts once: on an empty table it creates
    the user [admin], who can then log in with the built-in password and
    gets the role [admin]; on a table with any row it changes nothing,
    so a second call never adds a second row. *)
Theorem default_admin_is_created_once (utcnow : datetime) (id1 id2 : Z)
    (tbl : list User) :
  ensure_default_admin id2 (ensure_default_admin id1 tbl)
  = ensure_default_admin id1 tbl /\
  (tbl <> [] -> ensure_default_admin id1 tbl = tbl) /\
  length (ensure_default_admin id1 []) = 1%nat /\
  snd (validate_login utcnow (ensure_default_admin id1 []) "admin" "admin@123")
  = Some {| identity_username := "admin"; identity_role := "admin" |}.
Proof.
  split; [|split; [|split]].
  - destruct tbl; reflexivity.
  - by destruct tbl.
  - reflexivity.
  - cbn [ensure_default_admin].
    rewrite (validate_login_success _ _ _ _ _
               (get_user_created id1 "admin" "admin@123" "admin" [] eq_refl));
      try done.
    apply verify_password_own.
Qed.

Lemma update_where_Forall {A : Type} (P : A -> Prop) (sel : A -> bool)
    (change : A -> A) (rows : list A) :
  (forall r, r ∈ rows -> P r -> P (if sel r then change r else r)) ->
  Forall P rows -> Forall P (update_where sel change rows).
Proof.
  intros Hstep Hall. unfold update_where.
  induction Hall as [|r rows Hr Hall IH]; simpl; constructor.
  - apply Hstep; [by left | done].
  - apply IH. intros r' Hr'. apply Hstep. by right.
Qed.

Lemma login_keeps_counters (utcnow : datetime) (tbl : list User)
    (name password : string) :
  NoDup (user_id <$> tbl) -> Forall counter_consistent tbl ->
  Forall counter_consistent (fst (validate_login utcnow tbl name password)).
Proof.
  intros Hnd Hall. unfold validate_login.
  destruct (get_user tbl name) as [user|] eqn:Hu; [|done].
  destruct (locked user) eqn:Hl; [done|].
  destruct (negb (active user)); [done|].
  apply get_user_elem in Hu as [Huser _].
  assert (Hc : counter_consistent user).
  { rewrite Forall_forall in Hall. by apply Hall. }
  destruct Hc as [Hrange Hlock].
  assert (Hlt : failed_attempts user <> 3).
  { intros H3. apply Hlock in H3. congruence. }
  destruct (verify_password password (password_hash user)); cbn [fst];
    apply update_where_Forall; try done; intros r Hr Hcr;
    destruct (has_id (user_id user) r) eqn:E; try done.
  - apply has_id_true in E.
    assert (r = user) as -> by (by eapply unique_key).
    split; cbn; [lia|]. rewrite Hl. split; [done | lia].
  - split; cbn; [lia|]. rewrite Z.leb_le. lia.
Qed.

Lemma step_keeps_counters (op : Op) (db : Tables) :
  NoDup (user_id <$> users db) -> Forall counter_consistent (users db) ->
  Forall counter_consistent (users (step op db)).
Proof.
  intros Hnd Hall. destruct op; cbn [step with_users users]; try done.
  - unfold create_user, insert_row. apply Forall_app. split; [done|].
    constructor; [|done]. split; cbn; [lia | split; [done | lia]].
  - unfold ensure_default_admin. destruct (users db); [|done].
    constructor; [|done]. split; cbn; [lia | split; [done | lia]].
  - by apply login_keeps_counters.
  - unfold record_logout. apply update_where_Forall; [|done].
    intros r _ Hr. by destruct (String.eqb (username r) name).
  - unfold unlock_user. apply update_where_Forall; [|done].
    intros r _ Hr. destruct (has_id uid r); [|done].
    split; cbn; [lia | split; [done | lia]].
  - unfold generate_documents_page. destruct (negb clicked); [done|].
    by destruct (String.eqb (form_customer_name form) ""
                 || String.eqb (form_phone form) "").
Qed.

(** X3.  From a [users] table with distinct keys in which every counter
    lies between 0 and 3 and every lock is set exactly when the counter
    is 3 (the empty table is one), every run of the application's
    operations, unlock included, leads to such a table again. *)
Theorem counters_stay_consistent (ops : list Op) : forall db : Tables,
  NoDup (user_id <$> users db) -> Forall counter_consistent (users db) ->
  fresh_run ops db ->
  NoDup (user_id <$> users (run ops db)) /\
  Forall counter_consistent (users (run ops db)).
Proof.
  induction ops as [|op ops IH]; intros db Hnd Hall Hrun; [done|].
  destruct Hrun as [Hfresh Hrun]. cbn [run fold_left].
  apply IH; [by apply step_keeps_keys | by apply step_keeps_counters | done].
Qed.

Lemma get_user_record_logout (utcnow : datetime) (who name : string)
    (tbl : list User) :
  get_user (record_logout utcnow who tbl) name
  = (fun u => if String.eqb (username u) who
              then set_last_logout (isoformat utcnow) u else u)
    <$> get_user tbl name.
Proof. unfold record_logout. by apply get_user_update_where. Qed.

Lemma update_where_swap {A : Type} (sel1 sel2 : A -> bool)
    (change1 change2 : A -> A) (rows : list A) :
  (forall r, sel1 (change2 r) = sel1 r) ->
  (forall r, sel2 (change1 r) = sel2 r) ->
  (forall r, change1 (change2 r) = change2 (change1 r)) ->
  update_where sel1 change1 (update_where sel2 change2 rows)
  = update_where sel2 change2 (update_where sel1 change1 rows).
Proof.
  intros H1 H2 Hc. unfold update_where. rewrite !map_map.
  apply map_ext. intros r.
  destruct (sel1 r) eqn:E1, (sel2 r) eqn:E2;
    rewrite ?H1, ?H2, ?E1, ?E2, ?Hc; done.
Qed.

(** X4.  Stamping a logout is invisible to the login: on the table after
    [record_logout] a login returns what it returns on the table before,
    and the two writes can be done in either order. *)
Theorem logout_stamp_does_not_affect_login (t t' : datetime)
    (who name password : string) (tbl : list User) :
  snd (validate_login t (record_logout t' who tbl) name password)
  = snd (validate_login t tbl name password) /\
  fst (validate_login t (record_logout t' who tbl) name password)
  = record_logout t' who (fst (validate_login t tbl name password)).
Proof.
  unfold validate_login. rewrite get_user_record_logout.
  destruct (get_user tbl name) as [user|]; [|done].
  cbn [fmap option_fmap option_map].
  set (user' := if String.eqb (username user) who
                then set_last_logout (isoformat t') user else user).
  assert (Hsame : locked user' = locked user /\ active user' = active user /\
                  password_hash user' = password_hash user /\
                  user_id user' = user_id user /\
                  failed_attempts user' = failed_attempts user /\
                  username user' = username user /\ role user' = role user).
  { unfold user'. by destruct (String.eqb (username user) who). }
  destruct Hsame as (-> & -> & -> & -> & -> & -> & ->).
  destruct (locked user); [done|]. destruct (negb (active user)); [done|].
  destruct (verify_password password (password_hash user)); cbn [fst snd];
    (split; [done|]); unfold record_logout; by apply update_where_swap.
Qed.

(** X5.  A login that succeeds forgives the failures before it: it
    returns the stored name and role, sets the counter to 0 and stamps
    [last_login], so that two wrong passwords after it leave the account
    open with a count of 2, whatever the count was before. *)
Theorem success_resets_the_count (t t1 t2 : datetime) (tbl : list User)
    (name password p1 p2 : string) (user : User) :
  get_user tbl name = Some user ->
  locked user = false -> active user = true ->
  verify_password password (password_hash user) = true ->
  verify_password p1 (password_hash user) = false ->
  verify_password p2 (password_hash user) = false ->
  exists tbl' user' user'',
    validate_login t tbl name password
    = (tbl', Some {| identity_username := username user;
                     identity_role := role user |}) /\
    get_user tbl' name = Some user' /\
    failed_attempts user' = 0 /\ locked user' = false /\
    last_login user' = Some (isoformat t) /\
    get_user (fst (validate_login t2 (fst (validate_login t1 tbl' name p1))
                                  name p2)) name = Some user'' /\
    failed_attempts user'' = 2 /\ locked user'' = false.
Proof.
  intros Hu Hl Ha Hp Hp1 Hp2.
  set (tbl' := update_where (has_id (user_id user))
                 (set_login_success (isoformat t)) tbl).
  assert (Hu' : get_user tbl' name = Some (set_login_success (isoformat t) user)).
  { unfold tbl'. rewrite get_user_update_where, Hu by done.
    cbn [fmap option_fmap option_map]. by rewrite has_id_self. }
  set (u1 := set_attempts 1 false (set_login_success (isoformat t) user)).
  assert (Hu1 : get_user (fst (validate_login t1 tbl' name p1)) name = Some u1).
  { rewrite (validate_login_failure _ _ _ _ _ Hu') by done. cbn [fst].
    rewrite get_user_update_where, Hu' by done.
    cbn [fmap option_fmap option_map]. by rewrite has_id_self. }
  eexists tbl', _, _. split; [by apply validate_login_success|].
  split; [exact Hu'|]. do 3 (split; [done|]).
  rewrite (validate_login_failure _ _ _ _ _ Hu1) by done. cbn [fst].
  rewrite get_user_update_where, Hu1 by done.
  cbn [fmap option_fmap option_map]. rewrite has_id_self. by repeat split.
Qed.

Lemma same_person_refl (u : User) : same_person u u.
Proof. by repeat split. Qed.

Lemma same_person_trans (u v w : User) :
  same_person u v -> same_person v w -> same_person u w.
Proof.
  intros (? & ? & ? & ? & ?) (? & ? & ? & ? & ?). repeat split; congruence.
Qed.

Lemma update_where_same_person (sel : User -> bool) (change : User -> User)
    (tbl : list User) (i : nat) (u : User) :
  (forall r, same_person r (change r)) ->
  tbl !! i = Some u ->
  exists u', update_where sel change tbl !! i = Some u' /\ same_person u u'.
Proof.
  intros Hchange Hi. rewrite update_where_lookup, Hi.
  cbn [fmap option_fmap option_map]. eexists. split; [done|].
  destruct (sel u); [apply Hchange | apply same_person_refl].
Qed.

Lemma step_keeps_people (op : Op) (db : Tables) (i : nat) (u : User) :
  users db !! i = Some u ->
  exists u', users (step op db) !! i = Some u' /\ same_person u u'.
Proof.
  intros Hi.
  assert (Hsame : exists u', users db !! i = Some u' /\ same_person u u').
  { exists u. split; [done | apply same_person_refl]. }
  destruct op; cbn [step with_users users]; try done.
  - exists u. split; [|apply same_person_refl]. unfold create_user, insert_row.
    by apply lookup_app_l_Some.
  - unfold ensure_default_admin. by destruct (users db).
  - unfold validate_login. destruct (get_user (users db) name) as [user|]; [|done].
    destruct (locked user); [done|]. destruct (negb (active user)); [done|].
    destruct (verify_password password (password_hash user)); cbn [fst];
      by apply update_where_same_person.
  - unfold record_logout. by apply update_where_same_person.
  - unfold unlock_user. by apply update_where_same_person.
  - unfold generate_documents_page. destruct (negb clicked); [done|].
    by destruct (String.eqb (form_customer_name form) ""
                 || String.eqb (form_phone form) "").
Qed.

(** X6.  No run of the application's operations deletes a user or
    changes who a user is: the row stays at its place with its key,
    name, password digest, role and active flag. *)
Theorem people_are_kept (ops : list Op) : forall (db : Tables) (i : nat) (u : User),
  users db !! i = Some u ->
  exists u', users (run ops db) !! i = Some u' /\ same_person u u'.
Proof.
  induction ops as [|op ops IH]; intros db i u Hi.
  - exists u. split; [done | apply same_person_refl].
  - destruct (step_keeps_people op db i u Hi) as (u1 & Hi1 & Hs1).
    destruct (IH (step op db) i u1 Hi1) as (u' & Hi' & Hs').
    exists u'. split; [done | by eapply same_person_trans].
Qed.

Lemma step_appends (op : Op) (db : Tables) :
  invoices db `prefix_of` invoices (step op db) /\
  agreements db `prefix_of` agreements (step op db) /\
  activity_logs db `prefix_of` activity_logs (step op db).
Proof.
  destruct op; cbn [step with_users invoices agreements activity_logs];
    try (by repeat split; try apply prefix_app_r).
  unfold generate_documents_page. destruct (negb clicked); [done|].
  destruct (String.eqb (form_customer_name form) ""
            || String.eqb (form_phone form) ""); [done|].
  cbn. repeat split; by apply prefix_app_r.
Qed.

(** X7.  Invoices, agreements and the activity log only grow: after any
    run of the application's operations each of the three tables starts
    with the rows it had, unchanged and in their order. *)
Theorem documents_are_append_only (ops : list Op) : forall db : Tables,
  invoices db `prefix_of` invoices (run ops db) /\
  agreements db `prefix_of` agreements (run ops db) /\
  activity_logs db `prefix_of` activity_logs (run ops db).
Proof.
  induction ops as [|op ops IH]; intros db; [done|].
  destruct (step_appends op db) as (H1 & H2 & H3).
  destruct (IH (step op db)) as (H1' & H2' & H3').
  cbn [run fold_left]. repeat split; by etrans.
Qed.

End AccountFacts.

Section SessionFacts.
Context `{Platform}.

Lemma step_keeps_session (op : Op) (db : Tables) (session : Session) :
  session_known db session -> session_known (step op db) session.
Proof.
  destruct session as [|name r]; [done|]. intros (u & Hu & Hname & Hrole).
  apply list_elem_of_lookup in Hu as [i Hi].
  destruct (step_keeps_people op db i u Hi) as (u' & Hi' & _ & Hn & _ & Hr & _).
  exists u'. split; [by eapply list_elem_of_lookup_2 | split; congruence].
Qed.

Lemma validate_login_identity (utcnow : datetime) (tbl tbl' : list User)
    (name password : string) (identity : Identity) :
  validate_login utcnow tbl name password = (tbl', Some identity) ->
  exists u, u ∈ tbl' /\ username u = identity_username identity /\
            role u = identity_role identity.
Proof.
  unfold validate_login. destruct (get_user tbl name) as [user|] eqn:Hu; [|done].
  destruct (locked user); [done|]. destruct (negb (active user)); [done|].
  destruct (verify_password password (password_hash user)); [|done].
  intros [= <- <-].
  assert (Hu' : get_user (update_where (has_id (user_id user))
                            (set_login_success (isoformat utcnow)) tbl) name
                = Some (set_login_success (isoformat utcnow) user)).
  { rewrite get_user_update_where, Hu by done.
    cbn [fmap option_fmap option_map]. by rewrite has_id_self. }
  apply get_user_elem in Hu' as [Hin _]. eexists. split; [exact Hin | done].
Qed.

Lemma script_run_keeps_session (new_id : Z) (ev : Event) (db : Tables)
    (session : Session) :
  session_known db session ->
  session_known (fst (script_run new_id ev db session))
                (snd (script_run new_id ev db session)).
Proof.
  intros Hknown. unfold script_run.
  pose proof (step_keeps_session (OpEnsureDefaultAdmin new_id) db session Hknown)
    as Hk0.
  cbn [step] in Hk0.
  set (db0 := with_users db (ensure_default_admin new_id (users db))) in *.
  destruct session as [|name r].
  - destruct ev; try done. unfold login_page. cbn [negb].
    destruct (validate_login utcnow (users db0) name password)
      as [users' [identity|]] eqn:Hlogin; [|done].
    cbn [fst snd session_known users].
    by eapply validate_login_identity.
  - destruct ev; try done.
    cbn [fst snd].
    apply (step_keeps_session
             (OpGenerateDocuments name true t_invoice t_agreement now form)
             db0 (LoggedIn name r) Hk0).
Qed.

(** X8.  Whatever this session and the others do, a logged-in session
    carries the name and the role of a row of [users]: the role the
    pages test is one the store holds for that name. *)
Theorem session_identity_is_stored (actions : list Action) :
  forall state : Tables * Session,
    session_known (fst state) (snd state) ->
    session_known (fst (play actions state)) (snd (play actions state)).
Proof.
  induction actions as [|a actions IH]; intros state Hknown; [done|].
  cbn [play fold_left]. apply IH. destruct a as [new_id ev|op]; cbn [act fst snd].
  - by apply script_run_keeps_session.
  - by apply step_keeps_session.
Qed.

End SessionFacts.

(** ** Further properties of the history *)

Lemma insert_desc_sorted (leb : string -> string -> bool) (d : Document)
    (l : list Document) :
  (forall a b, leb a b = true \/ leb b a = true) ->
  Sorted (fun x y => leb (created_at y) (created_at x) = true) l ->
  Sorted (fun x y => leb (created_at y) (created_at x) = true)
         (insert_desc leb d l).
Proof.
  intros Htotal Hs. induction l as [|e l IH]; simpl.
  - by repeat constructor.
  - destruct (leb (created_at e) (created_at d)) eqn:E.
    + constructor; [done | by constructor].
    + apply Sorted_inv in Hs as [Hs Hhd]. constructor; [by apply IH|].
      destruct l as [|e' l]; simpl.
      * constructor. destruct (Htotal (created_at d) (created_at e)); congruence.
      * destruct (leb (created_at e') (created_at d)).
        -- constructor. destruct (Htotal (created_at d) (created_at e)); congruence.
        -- constructor. by apply HdRel_inv in Hhd.
Qed.

Lemma sort_desc_sorted (leb : string -> string -> bool) (l : list Document) :
  (forall a b, leb a b = true \/ leb b a = true) ->
  Sorted (fun x y => leb (created_at y) (created_at x) = true) (sort_desc leb l).
Proof.
  intros Htotal. induction l as [|d l IH]; [constructor|].
  by apply insert_desc_sorted.
Qed.

Lemma Sorted_lookup {A : Type} (R : A -> A -> Prop) (l : list A) :
  Sorted R l ->
  forall i x y, l !! i = Some x -> l !! S i = Some y -> R x y.
Proof.
  induction 1 as [|a l Hs IH Hhd]; intros i x y Hx Hy; [done|].
  destruct i as [|i].
  - injection Hx as ->. destruct l as [|b l]; [done|].
    injection Hy as ->. by apply HdRel_inv in Hhd.
  - by eapply IH.
Qed.

Lemma StronglySorted_lookup {A : Type} (R : A -> A -> Prop) (l : list A) :
  StronglySorted R l ->
  forall i j x y, (i < j)%nat -> l !! i = Some x -> l !! j = Some y -> R x y.
Proof.
  induction 1 as [|a l Hs IH Hall]; intros i j x y Hij Hx Hy; [done|].
  destruct j as [|j]; [lia|]. destruct i as [|i].
  - injection Hx as ->. rewrite List.Forall_forall in Hall. apply Hall.
    apply list_elem_of_In. by eapply list_elem_of_lookup_2.
  - eapply IH; [|done..]. lia.
Qed.

Section HistoryMore.
Context `{Platform}.

Lemma history_matches (role name : string) (search : option string)
    (limit offset : Z) (d : Document) :
  matches (history_query role name search limit offset) d
  = visible role name search d.
Proof.
  unfold history_query, visible, sought, matches.
  destruct (String.eqb role "admin"); cbn [negb orb];
    destruct (truthy search); cbn; rewrite ?andb_true_r; done.
Qed.

Lemma history_hits (role name : string) (search : option string)
    (limit offset : Z) (tbl : list Document) :
  filter (matches (history_query role name search limit offset)) tbl
  = filter (visible role name search) tbl.
Proof. apply list_filter_iff. intros d. by rewrite history_matches. Qed.

Lemma fetch_invoices_page (tbl : list Document) (role name : string)
    (search : option string) (limit offset : Z) :
  page_data (fetch_invoices tbl role name search limit offset)
  = take (Z.to_nat limit)
         (drop (Z.to_nat offset) (history_rows role name search tbl)) /\
  page_count (fetch_invoices tbl role name search limit offset)
  = length (filter (visible role name search) tbl).
Proof.
  unfold fetch_invoices, execute. cbn [page_data page_count data count].
  rewrite history_hits. split; [|done].
  cbn [history_query q_range range order_created_at_desc q_order_desc].
  unfold slice, history_rows. do 2 f_equal. lia.
Qed.

Lemma fetch_agreements_page (tbl : list Document) (role name : string)
    (search : option string) (limit offset : Z) :
  page_data (fetch_agreements tbl role name search limit offset)
  = take (Z.to_nat limit)
         (drop (Z.to_nat offset) (history_rows role name search tbl)) /\
  page_count (fetch_agreements tbl role name search limit offset)
  = length (filter (visible role name search) tbl).
Proof. apply fetch_invoices_page. Qed.

Lemma history_rows_length (role name : string) (search : option string)
    (tbl : list Document) :
  length (history_rows role name search tbl)
  = length (filter (visible role name search) tbl).
Proof. unfold history_rows. by rewrite sort_desc_perm. Qed.

(** X9.  Paging loses and repeats nothing.  A page holds at most
    [limit] rows; the count returned with it is that of all rows the
    caller may see and does not depend on the page asked for; two pages
    that follow each other, put together, are the one page of their
    joint size; and a page that starts at or after the count is
    empty. *)
Theorem pages_tile_the_history (tbl : list Document) (role name : string)
    (search : option string) (limit offset : Z) :
  (length (page_data (fetch_invoices tbl role name search limit offset))
   <= Z.to_nat limit)%nat /\
  (forall limit' offset',
     page_count (fetch_invoices tbl role name search limit' offset')
     = page_count (fetch_invoices tbl role name search limit offset)) /\
  (forall more,
     0 <= offset -> 0 <= limit -> 0 <= more ->
     page_data (fetch_invoices tbl role name search limit offset)
     ++ page_data (fetch_invoices tbl role name search more (offset + limit))
     = page_data (fetch_invoices tbl role name search (limit + more) offset)) /\
  (Z.of_nat (page_count (fetch_invoices tbl role name search limit offset))
   <= offset ->
   page_data (fetch_invoices tbl role name search limit offset) = []) /\
  fetch_agreements tbl role name search limit offset
  = fetch_invoices tbl role name search limit offset.
Proof.
  split; [|split; [|split; [|split]]].
  - rewrite (proj1 (fetch_invoices_page _ _ _ _ _ _)). rewrite length_take. lia.
  - intros limit' offset'. by rewrite !(proj2 (fetch_invoices_page _ _ _ _ _ _)).
  - intros more Ho Hl Hm. rewrite !(proj1 (fetch_invoices_page _ _ _ _ _ _)).
    rewrite !Z2Nat.inj_add by lia.
    rewrite <- drop_drop. apply take_take_drop.
  - intros Hpast. rewrite (proj1 (fetch_invoices_page _ _ _ _ _ _)).
    rewrite (proj2 (fetch_invoices_page _ _ _ _ _ _)) in Hpast.
    rewrite drop_ge; [by rewrite take_nil|].
    rewrite history_rows_length. lia.
  - reflexivity.
Qed.

(** X10.  When the store's order on [created_at] is total, every page
    of the history is newest first: no row is older than the row after
    it; when the order is transitive as well, no row is older than any
    row after it. *)
Theorem pages_are_newest_first (tbl : list Document) (role name : string)
    (search : option string) (limit offset : Z) :
  (forall a b, created_at_leb a b = true \/ created_at_leb b a = true) ->
  newest_first (page_data (fetch_invoices tbl role name search limit offset)) /\
  newest_first (page_data (fetch_agreements tbl role name search limit offset)) /\
  ((forall a b c, created_at_leb a b = true -> created_at_leb b c = true ->
                  created_at_leb a c = true) ->
   forall i j d e,
     (i < j)%nat ->
     page_data (fetch_invoices tbl role name search limit offset) !! i = Some d ->
     page_data (fetch_invoices tbl role name search limit offset) !! j = Some e ->
     created_at_leb (created_at e) (created_at d) = true).
Proof.
  intros Htotal.
  pose proof (sort_desc_sorted created_at_leb
                (filter (visible role name search) tbl) Htotal) as Hsorted.
  fold (history_rows role name search tbl) in Hsorted.
  assert (Hnf : newest_first
                  (take (Z.to_nat limit)
                     (drop (Z.to_nat offset) (history_rows role name search tbl)))).
  { intros i d e Hd He.
    apply lookup_take_Some in Hd as [Hd _]. apply lookup_take_Some in He as [He _].
    rewrite lookup_drop in Hd, He.
    eapply (Sorted_lookup _ _ Hsorted); [exact Hd|].
    by rewrite Nat.add_succ_r in He. }
  split; [|split].
  - by rewrite (proj1 (fetch_invoices_page _ _ _ _ _ _)).
  - by rewrite (proj1 (fetch_agreements_page _ _ _ _ _ _)).
  - intros Htrans i j d e Hij.
    rewrite (proj1 (fetch_invoices_page _ _ _ _ _ _)). intros Hd He.
    apply lookup_take_Some in Hd as [Hd _]. apply lookup_take_Some in He as [He _].
    rewrite lookup_drop in Hd, He.
    apply Sorted_StronglySorted in Hsorted.
    + eapply (StronglySorted_lookup _ _ Hsorted); [|exact Hd|exact He]. lia.
    + intros x y z Hxy Hyz. by eapply Htrans.
Qed.

(** X11.  The count returned with a page counts exactly the rows the
    caller may see (for a caller who is not [admin], rows of the caller
    that the search selects), and a first page large enough for the
    count holds each of those rows once. *)
Theorem history_shows_each_visible_row_once (tbl : list Document)
    (role name : string) (search : option string) (limit offset : Z) :
  page_count (fetch_invoices tbl role name search limit offset)
  = length (filter (visible role name search) tbl) /\
  (role <> "admin" ->
   page_count (fetch_invoices tbl role name search limit offset)
   = length (filter (fun d => created_by d = name /\ sought search d) tbl)) /\
  (Z.of_nat (page_count (fetch_invoices tbl role name search limit offset))
   <= limit ->
   page_data (fetch_invoices tbl role name search limit 0)
   ≡ₚ filter (visible role name search) tbl).
Proof.
  split; [|split].
  - apply fetch_invoices_page.
  - intros Hrole. rewrite (proj2 (fetch_invoices_page _ _ _ _ _ _)). f_equal.
    apply list_filter_iff. intros d. unfold visible.
    destruct (String.eqb_spec role "admin") as [|_]; [done|]. cbn [orb].
    rewrite andb_True, !Is_true_true, String.eqb_eq. done.
  - intros Hfits. rewrite (proj1 (fetch_invoices_page _ _ _ _ _ _)).
    rewrite (proj2 (fetch_invoices_page _ _ _ _ _ _)) in Hfits.
    change (Z.to_nat 0) with 0%nat. rewrite drop_0, take_ge.
    + apply sort_desc_perm.
    + rewrite history_rows_length. lia.
Qed.

(** X12.  Page [page_no] of the invoice history ([page_no] at least 1)
    shows rows 20 (page_no - 1) + 1 to 20 page_no of the caller's
    history, or the notice when there is none; its totals line counts
    the rows of that page only and adds their amounts, passing over
    those that do not convert. *)
Theorem history_page_shows_its_slice (role name search : string)
    (page_no : Z) (tbl : list Document) :
  1 <= page_no ->
  let rows := take 20 (drop (20 * Z.to_nat (page_no - 1))
                         (history_rows role name (Some search) tbl)) in
  (rows = [] ->
   invoice_history_page role name search page_no tbl = NothingFound /\
   agreement_history_page role name search page_no tbl = NothingFound) /\
  (rows <> [] ->
   invoice_history_page role name search page_no tbl
   = Listing rows {| totals_count := length rows;
                     total_amount := fold_left fadd (convertible rows) 0%Q |} /\
   agreement_history_page role name search page_no tbl
   = Listing rows {| totals_count := length rows;
                     total_amount := fold_left fadd (convertible rows) 0%Q |}) /\
  (length rows <= 20)%nat.
Proof.
  intros Hpage rows.
  assert (Hinv : page_data (fetch_invoices tbl role name (Some search)
                              ROWS_PER_PAGE ((page_no - 1) * ROWS_PER_PAGE))
                 = rows).
  { rewrite (proj1 (fetch_invoices_page _ _ _ _ _ _)). unfold rows, ROWS_PER_PAGE.
    f_equal. f_equal. lia. }
  assert (Hagr : page_data (fetch_agreements tbl role name (Some search)
                              ROWS_PER_PAGE ((page_no - 1) * ROWS_PER_PAGE))
                 = rows) by exact Hinv.
  unfold invoice_history_page, agreement_history_page. rewrite Hinv, Hagr.
  split; [|split].
  - by intros ->.
  - intros Hne. destruct rows as [|d rows'] eqn:E; [done|].
    unfold calculate_invoice_totals, calculate_agreement_totals.
    by rewrite !totals_skip.
  - unfold rows. rewrite length_take. lia.
Qed.

End HistoryMore.

(** ** Further properties of the revenue figures *)

Lemma insert_sorted_perm (kv : string * Q) (l : list (string * Q)) :
  insert_sorted kv l ≡ₚ kv :: l.
Proof.
  induction l as [|e l IH]; simpl; [done|].
  destruct (String.leb (fst kv) (fst e)); [done|].
  rewrite IH. apply Permutation_swap.
Qed.

Lemma sorted_items_perm (m : gmap string Q) : sorted_items m ≡ₚ map_to_list m.
Proof.
  unfold sorted_items. induction (map_to_list m) as [|kv l IH]; simpl; [done|].
  by rewrite insert_sorted_perm, IH.
Qed.

Lemma insert_sorted_sorted (kv : string * Q) (l : list (string * Q)) :
  Sorted (fun x y => String.leb (fst x) (fst y) = true) l ->
  Sorted (fun x y => String.leb (fst x) (fst y) = true) (insert_sorted kv l).
Proof.
  intros Hs. induction l as [|e l IH]; simpl.
  - by repeat constructor.
  - destruct (String.leb (fst kv) (fst e)) eqn:E.
    + constructor; [done | by constructor].
    + apply Sorted_inv in Hs as [Hs Hhd]. constructor; [by apply IH|].
      assert (He : String.leb (fst e) (fst kv) = true).
      { destruct (String.leb_total (fst kv) (fst e)); congruence. }
      destruct l as [|e' l]; simpl; [by constructor|].
      destruct (String.leb (fst kv) (fst e')); constructor; [done|].
      by apply HdRel_inv in Hhd.
Qed.

Lemma sorted_items_sorted (m : gmap string Q) :
  Sorted (fun x y => String.leb (fst x) (fst y) = true) (sorted_items m).
Proof.
  unfold sorted_items. induction (map_to_list m) as [|kv l IH]; simpl.
  - constructor.
  - by apply insert_sorted_sorted.
Qed.

Lemma filter_keeps_all {A : Type} (f : A -> bool) (l : list A) :
  (forall x, f x = true) -> filter f l = l.
Proof.
  intros Hall. induction l as [|x l IH]; [done|].
  rewrite filter_cons, decide_True, IH; [done|]. by rewrite Hall.
Qed.

Section FiguresMore.
Context `{Platform}.

Lemma add_to_group_raise (key : Document -> string) (e : Py.exn) (d : Document) :
  add_to_group key (Py.Raise e) d = Py.Raise e.
Proof. reflexivity. Qed.

Lemma grouped_fold (key : Document -> string) (rows : list Document) :
  forall m0 m,
    fold_left (add_to_group key) rows (Py.Ret m0) = Py.Ret m ->
    forall k,
      m !! k = match group key k rows with
               | [] => m0 !! k
               | _ :: _ =>
                   Some (fold_left fadd (convertible (group key k rows))
                                   (default 0%Q (m0 !! k)))
               end.
Proof.
  induction rows as [|d rows IH]; intros m0 m Hfold k.
  - injection Hfold as <-. done.
  - cbn [fold_left] in Hfold.
    destruct (float (amount d)) as [x|e] eqn:Hx.
    2:{ unfold add_to_group in Hfold at 2. cbn in Hfold. rewrite Hx in Hfold.
        cbn in Hfold. rewrite fold_raise_absorbs in Hfold; [done|].
        intros; apply add_to_group_raise. }
    assert (Hstep : add_to_group key (Py.Ret m0) d
                    = Py.Ret (<[key d := fadd (default 0%Q (m0 !! key d)) x]> m0)).
    { unfold add_to_group. cbn. by rewrite Hx. }
    rewrite Hstep in Hfold. rewrite (IH _ _ Hfold k).
    unfold group. rewrite filter_cons.
    destruct (decide (key d = k)) as [Hk|Hk].
    + rewrite Hk, lookup_insert_eq. unfold convertible at 2. cbn [omap list_omap].
      rewrite Hx. cbn [fold_left default].
      fold (convertible (filter (fun d0 => key d0 = k) rows)).
      by destruct (filter (fun d0 => key d0 = k) rows).
    + by rewrite lookup_insert_ne.
Qed.

Lemma grouped_fold_returns (key : Document -> string) (rows : list Document) :
  Forall (fun d => Py.returns (float (amount d)) = true) rows ->
  forall m0, exists m, fold_left (add_to_group key) rows (Py.Ret m0) = Py.Ret m.
Proof.
  intros Hall. apply fold_returns. intros m d Hd.
  rewrite Forall_forall in Hall. specialize (Hall d Hd).
  unfold add_to_group. cbn. destruct (float (amount d)); [by eexists | done].
Qed.

Lemma convertible_all (rows : list Document) :
  Forall (fun d => Py.returns (float (amount d)) = true) rows ->
  length (convertible rows) = length rows.
Proof.
  unfold convertible. induction 1 as [|d rows Hd _ IH]; [done|].
  cbn [omap list_omap]. destruct (float (amount d)); [|done].
  cbn [length]. by rewrite <- IH.
Qed.

(** X13.  The totals line of the history and the revenue figures are
    taken over the same numbers.  [calculate_invoice_totals] counts
    every row it is given, those whose amount it passes over included.
    Whenever [get_revenue_kpis] returns, every fetched amount converts,
    so that [calculate_invoice_totals] passes over none of the fetched
    rows; its count is the count of the figures, and its total adds
    with [+=], in the order of the rows, the amounts that the figures
    add with [sum].  On an interpreter whose [sum] adds from left to
    right (CPython before 3.12) the two totals are equal. *)
Theorem totals_agree_with_kpis (tbl : list Document)
    (start_date end_date : option string) (kpis : Kpis) :
  get_revenue_kpis tbl start_date end_date = Py.Ret kpis ->
  let rows := fetch_invoices_in_range tbl start_date end_date in
  length (convertible rows) = length rows /\
  total_revenue kpis = builtin_sum (convertible rows) /\
  total_amount (calculate_invoice_totals rows)
  = fold_left fadd (convertible rows) 0%Q /\
  total_invoices kpis = totals_count (calculate_invoice_totals rows) /\
  totals_count (calculate_invoice_totals rows) = length rows /\
  calculate_agreement_totals rows = calculate_invoice_totals rows /\
  ((forall xs, fsum xs = fold_left fadd xs 0%Q) ->
   total_revenue kpis = total_amount (calculate_invoice_totals rows)).
Proof.
  intros Hk rows. unfold get_revenue_kpis in Hk. fold rows in Hk.
  destruct (sum_amounts rows) as [total|e] eqn:Hsum; [|discriminate Hk].
  cbn [mbind result_bind Py.bind mret result_ret] in Hk. injection Hk as <-.
  cbn [total_revenue total_invoices].
  apply sum_amounts_total in Hsum as [-> Hall].
  assert (Htotal : total_amount (calculate_invoice_totals rows)
                   = fold_left fadd (convertible rows) 0%Q).
  { unfold calculate_invoice_totals. cbn [total_amount]. apply totals_skip. }
  split; [by apply convertible_all|]. split; [done|]. split; [done|].
  split; [done|]. split; [done|]. split; [done|].
  intros Hplain. rewrite Htotal. unfold builtin_sum.
  destruct (convertible rows) as [|x xs]; [done | apply Hplain].
Qed.

Lemma daily_series_returns (tbl : list Document)
    (start_date end_date : option string) :
  Forall (fun d => Py.returns (float (amount d)) = true)
         (fetch_invoices_in_range tbl start_date end_date) ->
  Py.returns (get_daily_revenue_series tbl start_date end_date) = true.
Proof.
  intros Hall. unfold get_daily_revenue_series.
  change (fold_left _ (fetch_invoices_in_range tbl start_date end_date)
                    (Py.Ret ∅))
    with (fold_left (add_to_group day_of)
                    (fetch_invoices_in_range tbl start_date end_date)
                    (Py.Ret ∅)).
  by destruct (grouped_fold_returns day_of _ Hall ∅) as [m ->].
Qed.

Lemma staff_performance_returns (tbl : list Document)
    (start_date end_date : option string) :
  Forall (fun d => Py.returns (float (amount d)) = true)
         (fetch_invoices_in_range tbl start_date end_date) ->
  Py.returns (get_staff_performance tbl start_date end_date) = true.
Proof.
  intros Hall. unfold get_staff_performance.
  change (fold_left _ (fetch_invoices_in_range tbl start_date end_date)
                    (Py.Ret ∅))
    with (fold_left (add_to_group created_by)
                    (fetch_invoices_in_range tbl start_date end_date)
                    (Py.Ret ∅)).
  by destruct (grouped_fold_returns created_by _ Hall ∅) as [m ->].
Qed.

(** X14.  When [get_daily_revenue_series] returns, its list has one
    pair for each day (the first ten characters of [created_at]) on
    which a fetched invoice was created and for no other day, the
    figure of a day is the sum of that day's amounts, and the days come
    in ascending order without repetition.  It returns whenever every
    fetched amount converts. *)
Theorem daily_series_sums_each_day (tbl : list Document)
    (start_date end_date : option string) :
  let rows := fetch_invoices_in_range tbl start_date end_date in
  (forall series,
     get_daily_revenue_series tbl start_date end_date = Py.Ret series ->
     (forall day v, (day, v) ∈ series <->
                    group day_of day rows <> [] /\
                    v = group_total day_of day rows) /\
     Sorted (fun x y => String.leb (fst x) (fst y) = true) series /\
     NoDup series.*1) /\
  (Forall (fun d => Py.returns (float (amount d)) = true) rows ->
   Py.returns (get_daily_revenue_series tbl start_date end_date) = true).
Proof.
  intros rows. split; [|apply daily_series_returns].
  unfold get_daily_revenue_series. fold rows.
  change (fold_left _ rows (Py.Ret ∅))
    with (fold_left (add_to_group day_of) rows (Py.Ret ∅)).
  - intros series Hs.
    destruct (fold_left (add_to_group day_of) rows (Py.Ret ∅)) as [m|e] eqn:Hm;
      [|done].
    cbn in Hs. injection Hs as <-.
    pose proof (grouped_fold day_of rows ∅ m Hm) as Hlook.
    split; [|split].
    + intros day v. rewrite sorted_items_perm, elem_of_map_to_list, Hlook.
      unfold group_total. rewrite lookup_empty. cbn [default].
      destruct (group day_of day rows).
      * split; [done | by intros [? _]].
      * split; [intros [= <-]; by split | intros [_ ->]; done].
    + apply sorted_items_sorted.
    + rewrite sorted_items_perm. apply NoDup_fst_map_to_list.
Qed.

(** X15.  When [get_staff_performance] returns, its mapping has a key
    for each user who created a fetched invoice and for no one else,
    with the sum of that user's amounts.  It returns whenever every
    fetched amount converts. *)
Theorem staff_performance_sums_each_user (tbl : list Document)
    (start_date end_date : option string) :
  let rows := fetch_invoices_in_range tbl start_date end_date in
  (forall perf,
     get_staff_performance tbl start_date end_date = Py.Ret perf ->
     forall user,
       perf !! user = match group created_by user rows with
                      | [] => None
                      | _ :: _ => Some (group_total created_by user rows)
                      end) /\
  (Forall (fun d => Py.returns (float (amount d)) = true) rows ->
   Py.returns (get_staff_performance tbl start_date end_date) = true).
Proof.
  intros rows. split; [|apply staff_performance_returns].
  unfold get_staff_performance. fold rows.
  change (fold_left _ rows (Py.Ret ∅))
    with (fold_left (add_to_group created_by) rows (Py.Ret ∅)).
  intros perf Hp user. rewrite (grouped_fold created_by rows ∅ perf Hp user).
  rewrite lookup_empty. done.
Qed.

Lemma range_fetch_filter (tbl : list Document)
    (start_date end_date : option string) :
  fetch_invoices_in_range tbl start_date end_date
  = filter (in_range start_date end_date) tbl.
Proof.
  unfold fetch_invoices_in_range, execute, in_range.
  destruct (truthy start_date), (truthy end_date);
    cbn [data q_range q_order_desc add_filter select_all];
    apply list_filter_iff; intros d; unfold matches; cbn;
    rewrite ?andb_true_r; done.
Qed.

(** X16.  The date-range fetch keeps exactly the rows whose [created_at]
    lies between the two bounds, bounds included, in the order of the
    table; a bound that is missing or is the empty string does not
    restrict, so without bounds the whole table comes back. *)
Theorem range_fetch_is_a_filter (tbl : list Document)
    (start_date end_date : option string) :
  fetch_invoices_in_range tbl start_date end_date
  = filter (in_range start_date end_date) tbl /\
  fetch_invoices_in_range tbl start_date end_date `sublist_of` tbl /\
  fetch_invoices_in_range tbl None None = tbl /\
  fetch_invoices_in_range tbl (Some "") (Some "") = tbl /\
  (forall s e d,
     s <> "" -> e <> "" ->
     (d ∈ fetch_invoices_in_range tbl (Some s) (Some e) <->
      d ∈ tbl /\ created_at_leb s (created_at d) = true /\
      created_at_leb (created_at d) e = true)).
Proof.
  pose proof (range_fetch_filter tbl) as Hfilter.
  split; [apply Hfilter|]. split; [|split; [|split]].
  - rewrite Hfilter. apply sublist_filter.
  - rewrite Hfilter. by apply filter_keeps_all.
  - rewrite Hfilter. by apply filter_keeps_all.
  - intros s e d Hs He. rewrite Hfilter, list_elem_of_filter.
    unfold in_range. destruct s as [|c s]; [done|]. destruct e as [|c' e]; [done|].
    cbn [truthy]. rewrite andb_True, !Is_true_true. tauto.
Qed.

End FiguresMore.

(** ** Further properties of the counters *)

Section AllocationMore.
Context `{Platform}.

Lemma padded_reference_is_new (before key : string) (tbl : list Document) :
  Forall (fun c => plain_char c = true) (list_ascii_of_string key) ->
  before +:+ "/" +:+ key +:+ "/"
  +:+ Py.zfill 4 (Py.str (next_num (collect_nums (period_rows key tbl))))
  ∉ (reference <$> tbl).
Proof.
  intros Hkey Hin. set (n := next_num (collect_nums (period_rows key tbl))) in *.
  apply list_elem_of_fmap in Hin as (d & Href & Hd).
  assert (Hper : in_period key tbl d).
  { split; [done|]. rewrite <- Href. by apply like_period. }
  assert (Hnum : trailing_number (reference d) = Py.Ret n).
  { rewrite <- Href.
    replace (before +:+ "/" +:+ key +:+ "/" +:+ Py.zfill 4 (Py.str n))
      with ((before +:+ "/" +:+ key) +:+ "/" +:+ Py.zfill 4 (Py.str n))
      by (by rewrite !string_app_assoc).
    apply trailing_number_padded. }
  destruct (next_num_successor key tbl) as [Hub _].
  specialize (Hub d n Hper Hnum). fold n in Hub. lia.
Qed.

Lemma invoice_ref_is_new (now : datetime) (tbl : list Document) :
  get_next_invoice_ref now tbl ∉ (reference <$> tbl).
Proof.
  apply (padded_reference_is_new "BE/KNG/PMSG/QTN" (strftime_m_y now) tbl).
  apply strftime_m_y_plain.
Qed.

Lemma agreement_no_is_new (now : datetime) (tbl : list Document) :
  get_next_agreement_no now tbl ∉ (reference <$> tbl).
Proof.
  apply (padded_reference_is_new "AG/SG/APDCL" (Py.str (year now)) tbl).
  apply str_plain.
Qed.

Lemma in_period_perm (key : string) (tbl tbl' : list Document) (d : Document) :
  tbl ≡ₚ tbl' -> in_period key tbl d -> in_period key tbl' d.
Proof. intros Hp [Hin Hl]. split; [by rewrite <- Hp | done]. Qed.

Lemma period_successor_perm (key : string) (tbl tbl' : list Document) (n : Z) :
  tbl ≡ₚ tbl' -> period_successor key tbl n -> period_successor key tbl' n.
Proof.
  intros Hp [Hub Hmax]. split.
  - intros d m Hd. apply Hub. by eapply in_period_perm.
  - destruct Hmax as [(d & Hd & Hm)|[Hn Hnone]].
    + left. exists d. split; [by eapply in_period_perm | done].
    + right. split; [done|]. intros d m Hd. apply Hnone.
      by eapply in_period_perm.
Qed.

Lemma next_num_perm (key : string) (tbl tbl' : list Document) :
  tbl ≡ₚ tbl' ->
  next_num (collect_nums (period_rows key tbl))
  = next_num (collect_nums (period_rows key tbl')).
Proof.
  intros Hp. apply (period_successor_unique key tbl').
  - eapply period_successor_perm; [exact Hp | apply next_num_successor].
  - apply next_num_successor.
Qed.

(** X17.  The reference allocated does not depend on the order in which
    the store returns the rows: two tables with the same rows give the
    same invoice reference and the same agreement number. *)
Theorem allocation_ignores_row_order (now : datetime)
    (tbl tbl' : list Document) :
  tbl ≡ₚ tbl' ->
  get_next_invoice_ref now tbl = get_next_invoice_ref now tbl' /\
  get_next_agreement_no now tbl = get_next_agreement_no now tbl'.
Proof.
  intros Hp. unfold get_next_invoice_ref, get_next_agreement_no.
  by rewrite (next_num_perm (strftime_m_y now) tbl tbl' Hp),
             (next_num_perm (Py.str (year now)) tbl tbl' Hp).
Qed.

Lemma generation_keeps_references_distinct (session_username : string)
    (clicked : bool) (t_invoice t_agreement now : datetime)
    (form : GenerateForm) (db : Tables) :
  distinct_references db ->
  distinct_references
    (fst (generate_documents_page session_username clicked
                                  t_invoice t_agreement now form db)).
Proof.
  intros [Hi Ha]. unfold generate_documents_page.
  destruct (negb clicked); [done|].
  destruct (String.eqb (form_customer_name form) ""
            || String.eqb (form_phone form) ""); [done|].
  unfold distinct_references, insert_invoice, insert_agreement, insert_row.
  cbn [fst invoices agreements]. rewrite !fmap_app.
  cbn [fmap list_fmap reference document_row].
  split; apply NoDup_app; (split; [done|]); (split; [|apply NoDup_singleton]).
  - intros x Hx Hs. apply list_elem_of_singleton in Hs. subst x.
    by apply invoice_ref_is_new in Hx.
  - intros x Hx Hs. apply list_elem_of_singleton in Hs. subst x.
    by apply agreement_no_is_new in Hx.
Qed.

(** What document generation keeps of [invoices] and [agreements], every
    action keeps that does not insert a row of its own. *)
Lemma play_keeps_documents (P : list Document -> list Document -> Prop) :
  (forall session_username clicked t_invoice t_agreement now form db,
     P (invoices db) (agreements db) ->
     P (invoices (fst (generate_documents_page session_username clicked
                         t_invoice t_agreement now form db)))
       (agreements (fst (generate_documents_page session_username clicked
                           t_invoice t_agreement now form db)))) ->
  forall (actions : list Action) (state : Tables * Session),
    Forall (fun a => raw_insert a = false) actions ->
    P (invoices (fst state)) (agreements (fst state)) ->
    P (invoices (fst (play actions state)))
      (agreements (fst (play actions state))).
Proof.
  intros Hgen actions.
  induction actions as [|a actions IH]; intros state Hraw HP; [done|].
  apply Forall_cons in Hraw as [Ha Hraw].
  unfold play. cbn [fold_left]. fold (play actions (act a state)).
  apply IH; [done|]. clear IH Hraw. destruct state as [db session].
  destruct a as [new_id ev|op]; cbn [act fst snd].
  - unfold script_run.
    set (db0 := with_users db (ensure_default_admin new_id (users db))).
    assert (HP0 : P (invoices db0) (agreements db0)) by done.
    destruct session as [|name r]; destruct ev; try done.
    + unfold login_page. cbn [negb].
      by destruct (validate_login utcnow (users db0) name password) as [? [?|]].
    + cbn [fst]. by apply Hgen.
  - destruct op; try done. cbn [step]. by apply Hgen.
Qed.

(** X18.  The allocators never return a reference the table already
    holds, so the references of the invoices stay distinct and so do the
    numbers of the agreements, through every sequence of actions none of
    which inserts a document without the page. *)
Theorem generated_references_stay_distinct (now : datetime)
    (tbl : list Document) :
  (get_next_invoice_ref now tbl ∉ reference <$> tbl) /\
  (get_next_agreement_no now tbl ∉ reference <$> tbl) /\
  (forall (actions : list Action) (state : Tables * Session),
     Forall (fun a => raw_insert a = false) actions ->
     distinct_references (fst state) ->
     distinct_references (fst (play actions state))).
Proof.
  split; [apply invoice_ref_is_new|]. split; [apply agreement_no_is_new|].
  intros actions state Hraw Hd.
  apply (play_keeps_documents
           (fun inv agr => NoDup (reference <$> inv) /\ NoDup (reference <$> agr)));
    [|done|done].
  intros. by apply generation_keeps_references_distinct.
Qed.

End AllocationMore.

(** ** What the pages store and what the figures make of it *)

Lemma counted_insert (split : gmap string nat) (k : string) (n : nat) :
  split !! k = None -> counted (<[k := n]> split) = (n + counted split)%nat.
Proof.
  intros Hk. unfold counted. apply map_fold_insert_L; [|done].
  intros; lia.
Qed.

Lemma counted_bump (split : gmap string nat) (d : Document) :
  counted (bump split d) = S (counted split).
Proof.
  unfold bump. destruct (split !! phase d) as [n|] eqn:E; cbn [default].
  - rewrite <- insert_delete_eq.
    rewrite (counted_insert (delete (phase d) split)) by apply lookup_delete_eq.
    rewrite <- (insert_delete_id split (phase d) n E) at 2.
    rewrite (counted_insert (delete (phase d) split)) by apply lookup_delete_eq.
    unfold id. lia.
  - rewrite counted_insert by done. lia.
Qed.

Lemma counted_fold (rows : list Document) : forall split : gmap string nat,
  counted (fold_left bump rows split) = (counted split + length rows)%nat.
Proof.
  induction rows as [|d rows IH]; intros split; cbn [fold_left length]; [lia|].
  rewrite IH, counted_bump. lia.
Qed.

Lemma phase_count_two (rows : list Document) :
  Forall (fun d => phase d = "Single Phase" \/ phase d = "Three Phase") rows ->
  (phase_count "Single Phase" rows + phase_count "Three Phase" rows
   = length rows)%nat /\
  forall k, k <> "Single Phase" -> k <> "Three Phase" ->
            phase_count k rows = 0%nat.
Proof.
  unfold phase_count. induction 1 as [|d rows Hd _ [IHsum IHnone]]; [done|].
  split.
  - rewrite !filter_cons. destruct Hd as [Hd|Hd]; rewrite Hd.
    + rewrite decide_True by done. rewrite decide_False by done.
      cbn [length]. lia.
    + rewrite decide_False by done. rewrite decide_True by done.
      cbn [length]. lia.
  - intros k H1 H2. rewrite filter_cons.
    rewrite decide_False by (destruct Hd; congruence). by apply IHnone.
Qed.

Section PageFacts.
Context `{Platform}.

Lemma phase_split_lookup (tbl : list Document)
    (start_date end_date : option string) (k : string) :
  get_phase_split tbl start_date end_date !! k
  = if decide (k = "Single Phase" \/ k = "Three Phase" \/
               phase_count k (fetch_invoices_in_range tbl start_date end_date)
               <> 0%nat)
    then Some (phase_count k (fetch_invoices_in_range tbl start_date end_date))
    else None.
Proof.
  unfold get_phase_split.
  change (fun (split : gmap string nat) inv =>
            <[phase inv := (default 0%nat (split !! phase inv) + 1)%nat]> split)
    with bump.
  rewrite phase_fold.
  set (rows := fetch_invoices_in_range tbl start_date end_date).
  destruct (decide (k = "Single Phase" \/ k = "Three Phase" \/
                    phase_count k rows <> 0%nat)) as [Hor|Hor].
  - destruct (decide (phase_count k rows = 0%nat)) as [Hc|Hc].
    + rewrite Hc. destruct Hor as [->|[->|?]]; [| |done].
      * by rewrite lookup_insert_eq.
      * by rewrite lookup_insert_ne, lookup_insert_eq.
    + destruct (decide (k = "Single Phase")) as [->|H1];
        [by rewrite lookup_insert_eq|].
      destruct (decide (k = "Three Phase")) as [->|H2];
        [by rewrite lookup_insert_ne, lookup_insert_eq|].
      by rewrite !lookup_insert_ne, lookup_empty.
  - rewrite decide_True by (apply dec_stable; tauto).
    rewrite !lookup_insert_ne, lookup_empty; [done| |];
      intros <-; apply Hor; auto.
Qed.

(** X19.  [get_phase_split] accounts for every fetched invoice once:
    beside the two keys it starts from, each phase label that occurs has
    a key with the number of its invoices, no label that does not occur
    has one, and the counts of all keys add up to the number of fetched
    invoices. *)
Theorem phase_split_accounts_for_every_invoice (tbl : list Document)
    (start_date end_date : option string) :
  let rows := fetch_invoices_in_range tbl start_date end_date in
  (forall k,
     get_phase_split tbl start_date end_date !! k
     = if decide (k = "Single Phase" \/ k = "Three Phase" \/
                  phase_count k rows <> 0%nat)
       then Some (phase_count k rows) else None) /\
  counted (get_phase_split tbl start_date end_date) = length rows.
Proof.
  intros rows. split; [intros k; apply phase_split_lookup|].
  unfold get_phase_split. fold rows.
  change (fun (split : gmap string nat) inv =>
            <[phase inv := (default 0%nat (split !! phase inv) + 1)%nat]> split)
    with bump.
  rewrite counted_fold. rewrite !counted_insert.
  - unfold counted. rewrite map_fold_empty. lia.
  - apply lookup_empty.
  - by rewrite lookup_insert_ne, lookup_empty.
Qed.

Lemma generation_rows (session_username : string)
    (t_invoice t_agreement now : datetime) (form : GenerateForm) (db : Tables) :
  form_customer_name form <> "" -> form_phone form <> "" ->
  invoices (fst (generate_documents_page session_username true t_invoice
                   t_agreement now form db))
  = invoices db
    ++ [document_row (get_next_invoice_ref t_invoice (invoices db))
                     form session_username now] /\
  agreements (fst (generate_documents_page session_username true t_invoice
                     t_agreement now form db))
  = agreements db
    ++ [document_row (get_next_agreement_no t_agreement (agreements db))
                     form session_username now].
Proof.
  intros Hname Hphone. unfold generate_documents_page. cbn [negb].
  destruct (String.eqb_spec (form_customer_name form) "") as [|_]; [done|].
  destruct (String.eqb_spec (form_phone form) "") as [|_]; [done|].
  done.
Qed.

Lemma visible_count_snoc (role viewer : string) (tbl : list Document)
    (d : Document) :
  length (filter (visible role viewer None) (tbl ++ [d]))
  = (length (filter (visible role viewer None) tbl)
     + if String.eqb role "admin" || String.eqb (created_by d) viewer
       then 1 else 0)%nat.
Proof.
  rewrite filter_app, length_app. f_equal.
  rewrite filter_cons, filter_nil.
  assert (Hv : visible role viewer None d
               = String.eqb role "admin" || String.eqb (created_by d) viewer).
  { unfold visible, sought. cbn [truthy]. apply andb_true_r. }
  destruct (String.eqb role "admin" || String.eqb (created_by d) viewer).
  - rewrite decide_True; [done|].
    change (Is_true (visible role viewer None d)). by rewrite Hv.
  - rewrite decide_False; [done|].
    change (~ Is_true (visible role viewer None d)). by apply Is_true_false.
Qed.

(** X20.  What a user generates reaches the history of that user and
    that of an administrator, and of no one else.  A run of the page
    without a click, or with the customer's name or the phone missing,
    stores nothing; a run that saves raises the count of the histories
    of invoices and of agreements by one for the administrator and for
    the user of the session and leaves the count of any other user as
    it was, and the new invoice is in the first page of the session's
    user when that page is large enough. *)
Theorem generated_documents_reach_the_history (session_username : string)
    (t_invoice t_agreement now : datetime) (form : GenerateForm) (db : Tables) :
  fst (generate_documents_page session_username false t_invoice t_agreement
                               now form db) = db /\
  (form_customer_name form = "" \/ form_phone form = "" ->
   fst (generate_documents_page session_username true t_invoice t_agreement
                                now form db) = db) /\
  (form_customer_name form <> "" -> form_phone form <> "" ->
   let db' := fst (generate_documents_page session_username true t_invoice
                                           t_agreement now form db) in
   (forall role viewer limit offset,
      page_count (fetch_invoices (invoices db') role viewer None limit offset)
      = (page_count (fetch_invoices (invoices db) role viewer None limit offset)
         + if String.eqb role "admin" || String.eqb session_username viewer
           then 1 else 0)%nat /\
      page_count (fetch_agreements (agreements db') role viewer None limit offset)
      = (page_count (fetch_agreements (agreements db) role viewer None limit offset)
         + if String.eqb role "admin" || String.eqb session_username viewer
           then 1 else 0)%nat) /\
   (forall role limit,
      Z.of_nat (page_count (fetch_invoices (invoices db') role session_username
                                           None limit 0)) <= limit ->
      exists d,
        d ∈ page_data (fetch_invoices (invoices db') role session_username
                                      None limit 0) /\
        reference d = get_next_invoice_ref t_invoice (invoices db) /\
        created_by d = session_username)).
Proof.
  split; [done|]. split.
  - intros Hmissing. unfold generate_documents_page. cbn [negb].
    destruct (String.eqb_spec (form_customer_name form) "") as [|Hn]; [done|].
    destruct (String.eqb_spec (form_phone form) "") as [|Hp]; [done|].
    by destruct Hmissing.
  - intros Hname Hphone db'.
    destruct (generation_rows session_username t_invoice t_agreement now form
                db Hname Hphone) as [Hinv Hagr].
    fold db' in Hinv, Hagr. split.
    + intros role viewer limit offset.
      rewrite !(proj2 (fetch_invoices_page _ _ _ _ _ _)),
              ?(proj2 (fetch_agreements_page _ _ _ _ _ _)).
      rewrite Hinv, Hagr, !visible_count_snoc. done.
    + intros role limit Hfits.
      destruct (fetch_invoices_page (invoices db') role session_username None
                  limit 0) as [Hdata Hcount].
      rewrite Hcount in Hfits. rewrite Hdata.
      change (Z.to_nat 0) with 0%nat. rewrite drop_0.
      rewrite take_ge
        by (rewrite history_rows_length; lia).
      exists (document_row (get_next_invoice_ref t_invoice (invoices db))
                           form session_username now).
      split; [|done]. unfold history_rows. rewrite sort_desc_perm.
      apply list_elem_of_filter. split.
      * unfold visible, sought. cbn [truthy created_by document_row].
        rewrite String.eqb_refl, orb_true_r. done.
      * rewrite Hinv. set_solver.
Qed.

Lemma generation_keeps_page_made (session_username : string) (clicked : bool)
    (t_invoice t_agreement now : datetime) (form : GenerateForm) (db : Tables) :
  Forall page_made (invoices db) ->
  Forall page_made
    (invoices (fst (generate_documents_page session_username clicked
                      t_invoice t_agreement now form db))).
Proof.
  intros Hall. unfold generate_documents_page.
  destruct (negb clicked); [done|].
  destruct (String.eqb (form_customer_name form) ""
            || String.eqb (form_phone form) ""); [done|].
  cbn [fst invoices]. unfold insert_invoice, insert_row.
  apply Forall_app. split; [done|]. apply Forall_singleton.
  split; [done|]. cbn [phase document_row]. unfold phase_of.
  destruct (Qle_bool 5 (form_capacity form)); tauto.
Qed.

Lemma range_fetch_Forall (P : Document -> Prop) (tbl : list Document)
    (start_date end_date : option string) :
  Forall P tbl -> Forall P (fetch_invoices_in_range tbl start_date end_date).
Proof.
  rewrite range_fetch_filter, !Forall_forall. intros Hall d Hd.
  apply list_elem_of_filter in Hd as [_ Hd]. by apply Hall.
Qed.

(** X21.  On invoices that the page wrote the figures never fail.  When
    every invoice has a numeric amount and one of the two phase labels,
    this is still so after any sequence of actions none of which
    inserts a document without the page; then [get_revenue_kpis],
    [get_daily_revenue_series] and [get_staff_performance] return for
    every range, and [get_phase_split] has the two keys only, whose
    counts add up to the number of fetched invoices. *)
Theorem figures_return_on_page_made_invoices (actions : list Action)
    (state : Tables * Session) :
  Forall (fun a => raw_insert a = false) actions ->
  Forall page_made (invoices (fst state)) ->
  let tbl := invoices (fst (play actions state)) in
  Forall page_made tbl /\
  forall start_date end_date,
    Py.returns (get_revenue_kpis tbl start_date end_date) = true /\
    Py.returns (get_daily_revenue_series tbl start_date end_date) = true /\
    Py.returns (get_staff_performance tbl start_date end_date) = true /\
    (forall k, is_Some (get_phase_split tbl start_date end_date !! k)
               <-> k = "Single Phase" \/ k = "Three Phase") /\
    forall single three,
      get_phase_split tbl start_date end_date !! "Single Phase" = Some single ->
      get_phase_split tbl start_date end_date !! "Three Phase" = Some three ->
      (single + three)%nat
      = length (fetch_invoices_in_range tbl start_date end_date).
Proof.
  intros Hraw Hmade tbl.
  assert (Hall : Forall page_made tbl).
  { apply (play_keeps_documents (fun inv _ => Forall page_made inv));
      [|done|done].
    intros. by apply generation_keeps_page_made. }
  split; [done|]. intros start_date end_date.
  pose proof (range_fetch_Forall page_made tbl start_date end_date Hall) as Hrows.
  assert (Hamounts : Forall (fun d => Py.returns (float (amount d)) = true)
                            (fetch_invoices_in_range tbl start_date end_date)).
  { eapply Forall_impl; [exact Hrows|]. by intros d [Hd _]. }
  assert (Hphases : Forall (fun d => phase d = "Single Phase"
                                     \/ phase d = "Three Phase")
                           (fetch_invoices_in_range tbl start_date end_date)).
  { eapply Forall_impl; [exact Hrows|]. by intros d [_ Hd]. }
  destruct (phase_count_two _ Hphases) as [Hsum Hnone].
  assert (Hsplit : forall k,
            get_phase_split tbl start_date end_date !! k
            = if decide (k = "Single Phase" \/ k = "Three Phase")
              then Some (phase_count k
                           (fetch_invoices_in_range tbl start_date end_date))
              else None).
  { intros k. rewrite phase_split_lookup.
    destruct (decide (k = "Single Phase" \/ k = "Three Phase")) as [Hk|Hk].
    - by rewrite decide_True by tauto.
    - rewrite decide_False; [done|].
      intros [?|[?|Hc]]; [tauto | tauto |]. apply Hc, Hnone; tauto. }
  split; [|split; [|split; [|split]]].
  - unfold get_revenue_kpis.
    destruct (sum_amounts_returns _ Hamounts) as [total ->]. done.
  - by apply daily_series_returns.
  - by apply staff_performance_returns.
  - intros k. rewrite Hsplit. case_decide as Hk.
    + split; [done | by eexists].
    + split; [by intros [? ?] | done].
  - intros single three. rewrite !Hsplit.
    rewrite !decide_True by auto. intros [= <-] [= <-]. exact Hsum.
Qed.

End PageFacts.

(** ** Authors of the documents *)

Section AuthorFacts.
Context `{Platform}.

Lemma step_keeps_names (op : Op) (db : Tables) (name : string) :
  name ∈ username <$> users db -> name ∈ username <$> users (step op db).
Proof.
  intros Hin. apply list_elem_of_fmap in Hin as (u & -> & Hu).
  apply list_elem_of_lookup in Hu as [i Hi].
  destruct (step_keeps_people op db i u Hi) as (u' & Hi' & _ & Hn & _).
  apply list_elem_of_fmap. exists u'.
  split; [done | by eapply list_elem_of_lookup_2].
Qed.

Lemma authored_users (db db' : Tables) :
  (forall name, name ∈ username <$> users db -> name ∈ username <$> users db') ->
  invoices db' = invoices db -> agreements db' = agreements db ->
  authored db -> authored db'.
Proof.
  intros Hnames Hi Ha [Hinv Hagr]. unfold authored. rewrite Hi, Ha.
  split; (eapply Forall_impl; [eassumption|]); intros d; apply Hnames.
Qed.

Lemma step_keeps_authors (op : Op) (db : Tables) :
  foreign_document (Elsewhere op) = false ->
  authored db -> authored (step op db).
Proof.
  intros Hop. apply authored_users.
  - intros name. apply step_keeps_names.
  - by destruct op.
  - by destruct op.
Qed.

Lemma generation_keeps_authors (name r : string)
    (t_invoice t_agreement now : datetime) (form : GenerateForm) (db : Tables) :
  session_known db (LoggedIn name r) -> authored db ->
  authored (fst (generate_documents_page name true t_invoice t_agreement
                                         now form db)).
Proof.
  intros (u & Hu & Hname & _) [Hinv Hagr]. unfold generate_documents_page.
  cbn [negb].
  destruct (String.eqb (form_customer_name form) ""
            || String.eqb (form_phone form) ""); [done|].
  unfold authored, insert_invoice, insert_agreement, insert_row.
  cbn [fst users invoices agreements].
  assert (Hin : name ∈ username <$> users db).
  { apply list_elem_of_fmap. by exists u. }
  split; apply Forall_app; (split; [done|]); by apply Forall_singleton.
Qed.

Lemma script_run_keeps_authors (new_id : Z) (ev : Event) (db : Tables)
    (session : Session) :
  session_known db session -> authored db ->
  authored (fst (script_run new_id ev db session)).
Proof.
  intros Hknown Hauth. unfold script_run.
  pose proof (step_keeps_session (OpEnsureDefaultAdmin new_id) db session Hknown)
    as Hk0.
  pose proof (step_keeps_authors (OpEnsureDefaultAdmin new_id) db eq_refl Hauth)
    as Ha0.
  cbn [step] in Hk0, Ha0.
  set (db0 := with_users db (ensure_default_admin new_id (users db))) in *.
  destruct session as [|name r].
  - destruct ev; try done. unfold login_page. cbn [negb].
    pose proof (step_keeps_authors (OpValidateLogin utcnow name password) db0
                  eq_refl Ha0) as Ha1.
    cbn [step] in Ha1.
    by destruct (validate_login utcnow (users db0) name password)
      as [users' [identity|]].
  - destruct ev; try done.
    + apply (step_keeps_authors (OpRecordLogout utcnow name) db0 eq_refl Ha0).
    + cbn [fst]. by eapply generation_keeps_authors.
Qed.

(** X22.  Every document the session stores has an author the store
    knows.  When the session's identity is that of a row of [users] and
    each invoice and agreement names a user of the store in
    [created_by], this is still so after every sequence of runs of the
    script and of writes to [users] and to the log from elsewhere. *)
Theorem documents_have_known_authors (actions : list Action) :
  forall state : Tables * Session,
    Forall (fun a => foreign_document a = false) actions ->
    session_known (fst state) (snd state) -> authored (fst state) ->
    authored (fst (play actions state)).
Proof.
  induction actions as [|a actions IH]; intros state Hown Hknown Hauth; [done|].
  apply Forall_cons in Hown as [Ha Hown].
  unfold play. cbn [fold_left]. fold (play actions (act a state)).
  destruct state as [db session]. cbn [fst snd] in Hknown, Hauth.
  apply IH; [done| |]; destruct a as [new_id ev|op]; cbn [act fst snd].
  - by apply script_run_keeps_session.
  - by apply step_keeps_session.
  - by apply script_run_keeps_authors.
  - by apply step_keeps_authors.
Qed.

End AuthorFacts.

(** ** Worked examples on the reference platform *)

#[local] Existing Instance reference_platform.

Import Sample.

Example sha256_of_abc :
  Sha256.hexdigest "abc"
  = "ba7816bf8f01cfea414140de5dae2223b00361a396177a9cb410ff61f20015ad".
Proof. vm_compute. reflexivity. Qed.

Example secret_digest_is_the_hash : hash_password "secret" = secret_digest.
Proof. vm_compute. reflexivity. Qed.

Example seven_is_padded : Py.zfill 4 (Py.str 7) = "0007".
Proof. reflexivity. Qed.

Example three_strikes :
  let tbl1 := fst (validate_login morning [alice] "alice" "guess") in
  let tbl2 := fst (validate_login morning tbl1 "alice" "guess") in
  let tbl3 := fst (validate_login morning tbl2 "alice" "guess") in
  (failed_attempts <$> get_user tbl3 "alice") = Some 3 /\
  (locked <$> get_user tbl3 "alice") = Some true /\
  validate_login morning tbl3 "alice" "secret" = (tbl3, None).
Proof. vm_compute. repeat split. Qed.

Example phase_split_of_nothing :
  map_to_list (get_phase_split [] None None)
  = [("Single Phase", 0%nat); ("Three Phase", 0%nat)].
Proof. vm_compute. reflexivity. Qed.

Example half_past_four_kilowatts :
  phase_of (45 # 10) = "Single Phase" /\ total_amount_of (45 # 10) = 315000.
Proof. split; reflexivity. Qed.

(** Floats are binary: the float nearest to 2.675 lies below it, and so
    rounds to 2.67; a tenth and a fifth do not add up to three tenths. *)
Example average_of_one_invoice_of_2_675 :
  get_revenue_kpis
    [document "BE/KNG/PMSG/QTN/01/25/0001" "bob" (JNum (2675 # 1000))
              "Single Phase" "2025-01-10T10:00:00"] None None
  = Py.Ret {| total_revenue := float_of_number (2675 # 1000);
              total_invoices := 1;
              avg_value := float_of_number (267 # 100) |} /\
  (float_of_number (2675 # 1000) < 2675 # 1000)%Q.
Proof. split; vm_compute; reflexivity. Qed.

Example a_tenth_and_a_fifth :
  fadd (float_of_number (1 # 10)) (float_of_number (2 # 10))
  = float_of_number (30000000000000004 # 100000000000000000) /\
  fadd (float_of_number (1 # 10)) (float_of_number (2 # 10))
  <> float_of_number (3 # 10).
Proof. split; [vm_compute; reflexivity | vm_compute; discriminate]. Qed.

(** [int] reads the decimal digits of every script and strips the white
    space of Unicode, but not the separators FS to US. *)
Example numbers_outside_ascii :
  int "١٣" = Py.Ret 13 /\
  int ("0012" +:+ String "194" (String "160" "")) = Py.Ret 12 /\
  int (String "028" "5") = Py.Raise Py.ValueError /\
  get_next_invoice_ref morning
    [document "BE/KNG/PMSG/QTN/01/25/٠٠١٢" "bob" (JNum 210000)
              "Single Phase" "2025-01-10T10:00:00"]
  = "BE/KNG/PMSG/QTN/01/25/0013".
Proof. vm_compute. repeat split. Qed.

(** C1: a deactivated account is turned away before the password is
    looked at, so its wrong-password calls are not counted and three of
    them in a row do not lock it. *)
Lemma deactivated_account_is_not_counted :
  let tbl := [carol] in
  let tbl1 := fst (validate_login morning tbl "carol" "guess") in
  let tbl2 := fst (validate_login morning tbl1 "carol" "guess") in
  let tbl3 := fst (validate_login morning tbl2 "carol" "guess") in
  verify_password "guess" (password_hash carol) = false /\
  validate_login morning tbl "carol" "guess" = (tbl, None) /\
  (failed_attempts <$> get_user tbl "carol") = Some 0 /\
  (failed_attempts <$> get_user tbl1 "carol") = Some 0 /\
  (failed_attempts <$> get_user tbl3 "carol") = Some 0 /\
  (locked <$> get_user tbl3 "carol") = Some false.
Proof. vm_compute. repeat split. Qed.

Lemma failed_login_counts_and_locks_witness :
  get_user [alice] "alice" = Some alice /\
  exists tbl' user',
    validate_login morning [alice] "alice" "guess" = (tbl', None) /\
    get_user tbl' "alice" = Some user' /\
    failed_attempts user' = 0 + 1 /\
    locked user' = false.
Proof.
  split; [reflexivity|].
  apply (proj1 (failed_login_counts_and_locks morning [alice] "alice" alice
                  eq_refl));
    [reflexivity | reflexivity | vm_compute; reflexivity].
Defined.

(** C2: unlocking a deactivated account clears the lock, and the correct
    password is still refused. *)
Lemma deactivated_account_stays_out_after_unlock :
  let tbl := unlock_user 4 [dave] in
  (locked <$> get_user [dave] "dave") = Some true /\
  (locked <$> get_user tbl "dave") = Some false /\
  (failed_attempts <$> get_user tbl "dave") = Some 0 /\
  verify_password "secret" (password_hash dave) = true /\
  validate_login morning tbl "dave" "secret" = (tbl, None).
Proof. vm_compute. repeat split. Qed.

Lemma lock_cleared_only_by_unlock_witness :
  (exists u',
     users (step (OpValidateLogin morning "erin" "secret")
                 {| users := [erin]; invoices := []; agreements := [];
                    activity_logs := [] |}) !! 0%nat = Some u' /\
     user_id u' = 5 /\ username u' = "erin" /\ locked u' = true) /\
  (exists tbl' user',
     validate_login morning (unlock_user 5 [erin]) "erin" "secret"
     = (tbl', Some {| identity_username := "erin"; identity_role := "staff" |}) /\
     get_user tbl' "erin" = Some user' /\
     failed_attempts user' = 0 /\ locked user' = false).
Proof.
  split.
  - apply (proj1 lock_cleared_only_by_unlock
             (OpValidateLogin morning "erin" "secret")
             {| users := [erin]; invoices := []; agreements := [];
                activity_logs := [] |} 0%nat erin);
      [reflexivity | apply NoDup_singleton | reflexivity | reflexivity].
  - apply (proj2 (proj2 lock_cleared_only_by_unlock)
             morning [erin] "erin" "secret" erin);
      [reflexivity | reflexivity | vm_compute; reflexivity].
Defined.

Lemma next_reference_follows_period_maximum_witness :
  get_next_invoice_ref morning [first_invoice; third_invoice; old_invoice]
  = "BE/KNG/PMSG/QTN/01/25/0004".
Proof.
  apply (proj2 (proj2 (next_reference_follows_period_maximum morning
                         [first_invoice; third_invoice; old_invoice] []))).
  - exists third_invoice. split; [split|].
    + apply elem_of_cons. right. apply elem_of_cons. by left.
    + vm_compute. reflexivity.
    + vm_compute. reflexivity.
  - intros d m [Hin Hlike] Hm.
    apply elem_of_cons in Hin as [->|Hin]; [left|].
    { vm_compute in Hm. by injection Hm. }
    apply elem_of_cons in Hin as [->|Hin]; [right|].
    { vm_compute in Hm. by injection Hm. }
    apply elem_of_cons in Hin as [->|Hin].
    { vm_compute in Hlike. discriminate Hlike. }
    by apply elem_of_nil in Hin.
Defined.

Lemma history_is_role_scoped_witness :
  "staff" <> "admin" /\
  Forall (fun d => created_by d = "bob")
         (page_data (fetch_invoices [first_invoice; third_invoice; old_invoice]
                                    "staff" "bob" (Some "555") 20 0)).
Proof.
  assert (Hne : "staff" <> "admin") by discriminate.
  split; [exact Hne|]. apply Forall_forall.
  exact (proj1 (proj1 (history_is_role_scoped
                         [first_invoice; third_invoice; old_invoice]
                         "staff" "bob" (Some "555") 20 0) Hne)).
Defined.

Lemma unconvertible_amount_aborts_analytics_witness :
  Py.returns (get_revenue_kpis [first_invoice; blank_invoice] None None) = false /\
  Py.returns (get_daily_revenue_series [first_invoice; blank_invoice] None None)
  = false /\
  Py.returns (get_staff_performance [first_invoice; blank_invoice] None None)
  = false /\
  total_amount (calculate_invoice_totals [first_invoice; blank_invoice])
  = 210000%Q.
Proof.
  destruct (unconvertible_amount_aborts_analytics
              [first_invoice; blank_invoice] None None blank_invoice Py.TypeError)
    as (Hk & Hs & Hp & Ht & _).
  - apply elem_of_cons. right. apply elem_of_cons. by left.
  - reflexivity.
  - split; [exact Hk|]. split; [exact Hs|]. split; [exact Hp|]. reflexivity.
Defined.


Lemma generation_derives_phase_and_amount_witness :
  exists invoice agreement,
    snd (generate_documents_page "alice" true morning morning morning
                                 form empty_tables)
    = Saved (reference invoice) (reference agreement) /\
    phase invoice = "Three Phase" /\ phase agreement = "Three Phase" /\
    amount invoice = JNum 350000 /\ amount agreement = JNum 350000.
Proof.
  pose proof generation_derives_phase_and_amount as (_ & _ & _ & _ & _ & Hgen).
  destruct (Hgen "alice" morning morning morning form empty_tables)
    as (invoice & agreement & Hrun & _ & _ & Hp1 & Hp2 & Ha1 & Ha2);
    [discriminate | discriminate |].
  exists invoice, agreement. rewrite Hrun. by repeat split.
Defined.

(** C9: a trailing number below -1000 parses, and its successor takes
    five characters although it is below 10000. *)
Lemma negative_number_is_longer_than_four :
  let tbl := [negative_invoice] in
  trailing_number (reference negative_invoice) = Py.Ret (-5000) /\
  next_num (collect_nums (period_rows (strftime_m_y morning) tbl)) = -4999 /\
  -4999 < 10000 /\
  get_next_invoice_ref morning tbl = "BE/KNG/PMSG/QTN/01/25/-4999" /\
  String.length (Py.zfill 4 (Py.str (-4999))) = 5%nat.
Proof. vm_compute. repeat split. Qed.

Lemma padding_never_truncates_witness :
  String.length (Py.zfill 4 (Py.str 7)) = 4%nat /\
  Py.zfill 4 (Py.str 10000) = Py.str 10000 /\
  (4 < String.length (Py.str 10000))%nat.
Proof.
  pose proof (padding_never_truncates morning []) as Hpad.
  cbv zeta in Hpad. destruct Hpad as (_ & Hsmall & Hlarge & _).
  split; [apply Hsmall; lia | apply Hlarge; lia].
Defined.

Lemma login_and_unlock_frame_witness :
  Forall2 (frame_login 1) [alice]
          (fst (validate_login morning [alice] "alice" "secret")).
Proof.
  apply (proj1 (login_and_unlock_frame morning [alice] "alice" "secret" 1)
           alice _ {| identity_username := "alice"; identity_role := "staff" |});
    [reflexivity | vm_compute; reflexivity].
Defined.

(** *** The further properties at sample inputs *)

Lemma created_user_can_log_in_witness :
  snd (validate_login morning (create_user 7 "frank" "secret" "staff" [alice])
                      "frank" "secret")
  = Some {| identity_username := "frank"; identity_role := "staff" |} /\
  snd (validate_login morning (create_user 7 "frank" "secret" "staff" [alice])
                      "frank" "guess") = None.
Proof.
  destruct (created_user_can_log_in morning 7 "frank" "secret" "staff" [alice]
              eq_refl) as [Hright Hwrong].
  split; [exact Hright|]. apply Hwrong. vm_compute. discriminate.
Defined.

Lemma counters_stay_consistent_witness :
  NoDup (user_id <$> users (run busy_run empty_tables)) /\
  Forall counter_consistent (users (run busy_run empty_tables)).
Proof.
  apply (counters_stay_consistent busy_run empty_tables).
  - apply NoDup_nil_2.
  - apply Forall_nil_2.
  - repeat split. apply not_elem_of_nil.
Defined.

Lemma success_resets_the_count_witness :
  exists tbl' user' user'',
    validate_login morning [staff 1 "alice" true 2 false] "alice" "secret"
    = (tbl', Some {| identity_username := "alice"; identity_role := "staff" |}) /\
    get_user tbl' "alice" = Some user' /\
    failed_attempts user' = 0 /\ locked user' = false /\
    last_login user' = Some (isoformat morning) /\
    get_user (fst (validate_login morning
                     (fst (validate_login morning tbl' "alice" "guess"))
                     "alice" "wrong")) "alice" = Some user'' /\
    failed_attempts user'' = 2 /\ locked user'' = false.
Proof.
  apply (success_resets_the_count morning morning morning
           [staff 1 "alice" true 2 false] "alice" "secret" "guess" "wrong"
           (staff 1 "alice" true 2 false));
    try reflexivity; vm_compute; reflexivity.
Defined.

Lemma people_are_kept_witness :
  exists u',
    users (run (tail busy_run) (with_users empty_tables [alice])) !! 0%nat
    = Some u' /\ same_person alice u'.
Proof.
  apply (people_are_kept (tail busy_run) (with_users empty_tables [alice])
           0%nat alice).
  reflexivity.
Defined.

Lemma session_identity_is_stored_witness :
  session_known
    (fst (play [Elsewhere (OpUnlockUser 1); Ui 9 (ClickLogout morning);
                Ui 9 (ClickLogin morning "alice" "secret")]
               (with_users empty_tables [alice], LoggedIn "alice" "staff")))
    (snd (play [Elsewhere (OpUnlockUser 1); Ui 9 (ClickLogout morning);
                Ui 9 (ClickLogin morning "alice" "secret")]
               (with_users empty_tables [alice], LoggedIn "alice" "staff"))).
Proof.
  apply (session_identity_is_stored
           [Elsewhere (OpUnlockUser 1); Ui 9 (ClickLogout morning);
            Ui 9 (ClickLogin morning "alice" "secret")]
           (with_users empty_tables [alice], LoggedIn "alice" "staff")).
  exists alice. split; [apply list_elem_of_here | split; reflexivity].
Defined.

Lemma pages_are_newest_first_witness :
  newest_first
    (page_data (fetch_invoices [first_invoice; third_invoice; old_invoice]
                               "admin" "alice" None 2 0)).
Proof.
  apply (pages_are_newest_first [first_invoice; third_invoice; old_invoice]
           "admin" "alice" None 2 0).
  exact String.leb_total.
Defined.

Lemma history_page_shows_its_slice_witness :
  invoice_history_page "staff" "bob" "" 1
                       [first_invoice; third_invoice; blank_invoice]
  = Listing [blank_invoice; third_invoice]
            {| totals_count := 2; total_amount := 350000 |} /\
  invoice_history_page "staff" "bob" "" 2
                       [first_invoice; third_invoice; blank_invoice]
  = NothingFound.
Proof.
  assert (Hfirst : 1 <= 1) by lia. assert (Hsecond : 1 <= 2) by lia.
  destruct (history_page_shows_its_slice "staff" "bob" "" 1
              [first_invoice; third_invoice; blank_invoice] Hfirst)
    as (_ & Hrows & _).
  destruct (history_page_shows_its_slice "staff" "bob" "" 2
              [first_invoice; third_invoice; blank_invoice] Hsecond)
    as (Hnone & _ & _).
  split.
  - destruct Hrows as [Hinvoices _]; [vm_compute; discriminate|].
    exact Hinvoices.
  - destruct Hnone as [Hinvoices _]; [reflexivity|]. exact Hinvoices.
Defined.

Lemma totals_agree_with_kpis_witness :
  total_amount (calculate_invoice_totals [first_invoice; third_invoice])
  = 560000%Q /\
  totals_count (calculate_invoice_totals [first_invoice; third_invoice])
  = 2%nat.
Proof.
  assert (Hkpis : get_revenue_kpis [first_invoice; third_invoice] None None
                  = Py.Ret {| total_revenue := 560000; total_invoices := 2;
                              avg_value := 280000 |})
    by (vm_compute; reflexivity).
  destruct (totals_agree_with_kpis [first_invoice; third_invoice] None None
              _ Hkpis) as (_ & _ & _ & Hcount & _ & _ & Hequal).
  split; [symmetry; exact (Hequal (fun xs => eq_refl)) | symmetry; exact Hcount].
Defined.

Lemma allocation_ignores_row_order_witness :
  get_next_invoice_ref morning [third_invoice; first_invoice]
  = get_next_invoice_ref morning [first_invoice; third_invoice] /\
  get_next_agreement_no morning [third_invoice; first_invoice]
  = get_next_agreement_no morning [first_invoice; third_invoice].
Proof.
  apply (allocation_ignores_row_order morning [third_invoice; first_invoice]
           [first_invoice; third_invoice]).
  apply perm_swap.
Defined.

Lemma figures_return_on_page_made_invoices_witness :
  Py.returns
    (get_revenue_kpis
       (invoices
          (fst (play [Ui 9 (ClickLogin morning "alice" "secret");
                      Ui 9 (ClickGenerate morning morning morning form);
                      Elsewhere (OpUnlockUser 1)]
                     ({| users := [alice]; invoices := [first_invoice];
                         agreements := []; activity_logs := [] |},
                      Anonymous))))
       None None) = true.
Proof.
  apply (proj2 (figures_return_on_page_made_invoices
                  [Ui 9 (ClickLogin morning "alice" "secret");
                   Ui 9 (ClickGenerate morning morning morning form);
                   Elsewhere (OpUnlockUser 1)]
                  ({| users := [alice]; invoices := [first_invoice];
                      agreements := []; activity_logs := [] |}, Anonymous)
                  ltac:(repeat constructor)
                  ltac:(repeat constructor))
               None None).
Defined.

Lemma documents_have_known_authors_witness :
  authored
    (fst (play [Ui 9 (ClickLogin morning "alice" "secret");
                Ui 9 (ClickGenerate morning morning morning form);
                Elsewhere (OpUnlockUser 1)]
               ({| users := [alice]; invoices := [first_invoice];
                   agreements := []; activity_logs := [] |}, Anonymous))).
Proof.
  apply (documents_have_known_authors
           [Ui 9 (ClickLogin morning "alice" "secret");
            Ui 9 (ClickGenerate morning morning morning form);
            Elsewhere (OpUnlockUser 1)]
           ({| users := [alice]; invoices := [first_invoice];
               agreements := []; activity_logs := [] |}, Anonymous)).
  - repeat constructor.
  - exact I.
  - split; [|apply Forall_nil_2].
    apply Forall_singleton. apply list_elem_of_here.
Defined.

Lemma generated_references_stay_distinct_witness :
  distinct_references
    (fst (play [Ui 9 (ClickLogin morning "alice" "secret");
                Ui 9 (ClickGenerate morning morning morning form);
                Ui 9 (ClickGenerate morning morning morning form)]
               ({| users := [alice]; invoices := [first_invoice];
                   agreements := []; activity_logs := [] |}, Anonymous))).
Proof.
  apply (proj2 (proj2 (generated_references_stay_distinct morning []))
           [Ui 9 (ClickLogin morning "alice" "secret");
            Ui 9 (ClickGenerate morning morning morning form);
            Ui 9 (ClickGenerate morning morning morning form)]
           ({| users := [alice]; invoices := [first_invoice];
               agreements := []; activity_logs := [] |}, Anonymous)).
  - repeat constructor.
  - split; [apply NoDup_singleton | apply NoDup_nil_2].
Defined.

Lemma generated_documents_reach_the_history_witness :
  page_count
    (fetch_invoices
       (invoices (fst (generate_documents_page "alice" true morning morning
                         morning form empty_tables)))
       "staff" "alice" None 20 0) = 1%nat /\
  page_count
    (fetch_invoices
       (invoices (fst (generate_documents_page "alice" true morning morning
                         morning form empty_tables)))
       "staff" "bob" None 20 0) = 0%nat.
Proof.
  assert (Hname : form_customer_name form <> "") by discriminate.
  assert (Hphone : form_phone form <> "") by discriminate.
  destruct (proj2 (proj2 (generated_documents_reach_the_history
                            "alice" morning morning morning form empty_tables))
              Hname Hphone) as [Hcount _].
  split.
  - exact (proj1 (Hcount "staff" "alice" 20 0)).
  - exact (proj1 (Hcount "staff" "bob" 20 0)).
Defined.
